(** * arbot: a cross-exchange arbitrage monitor

    A shallow embedding of the market-data pipeline of the repository
    (TypeScript): the symbol mapper, the order-book reconstruction of the
    venue clients (Binance, Bybit, Kraken, Coinbase, Gemini, KuCoin), the
    reconnect back-off, the opportunity detector with its persistence path,
    the registry and the discovery of trading pairs, and the manager's
    order-book intake and configuration updates.

    Conventions of the embedding.
    - A JavaScript [number] that carries money, prices, quantities or
      percentages is a binary64 float ([PrimFloat.float], the same IEEE 754
      format and rounding); a [number] that carries a count, an update id or
      a millisecond timestamp is an integer ([Z]).
    - A JavaScript [string] is a [string]; only ASCII matters for symbols.
    - A JavaScript [Map] is an association list in insertion order, which is
      the order its iterators follow ([JsMap]).
    - [parseFloat] is a builtin of the language, not code of the repository:
      the definitions take it as a parameter, and the concrete evaluations
      use [parseFloatDecimal], which reads plain decimal numerals.
    - [Date.now()] is read once per synchronous run and passed as [now]. *)

From Stdlib Require Import String Ascii List Bool ZArith Lia Floats Uint63.
From Stdlib Require Import DecimalString.
From Stdlib Require Import Sorting.Sorted Sorting.Permutation.
Import ListNotations.

Set Warnings "-inexact-float".

Local Open Scope list_scope.
Local Open Scope string_scope.

(* ================================================================== *)
(** ** JavaScript strings *)
(* ================================================================== *)

Module Str.

Definition is_lower (c : ascii) : bool :=
  let n := nat_of_ascii c in (97 <=? n)%nat && (n <=? 122)%nat.

Definition is_upper (c : ascii) : bool :=
  let n := nat_of_ascii c in (65 <=? n)%nat && (n <=? 90)%nat.

Definition upper_char (c : ascii) : ascii :=
  if is_lower c then ascii_of_nat (nat_of_ascii c - 32) else c.

Definition lower_char (c : ascii) : ascii :=
  if is_upper c then ascii_of_nat (nat_of_ascii c + 32) else c.

(** [String.prototype.toUpperCase] / [toLowerCase] on ASCII text. *)
Fixpoint map_chars (f : ascii -> ascii) (s : string) : string :=
  match s with
  | EmptyString => EmptyString
  | String c s' => String (f c) (map_chars f s')
  end.

Definition toUpperCase : string -> string := map_chars upper_char.
Definition toLowerCase : string -> string := map_chars lower_char.

Fixpoint rev (s : string) : string :=
  match s with
  | EmptyString => EmptyString
  | String c s' => rev s' ++ String c EmptyString
  end.

Fixpoint drop (k : nat) (s : string) : string :=
  match k, s with
  | S k', String _ s' => drop k' s'
  | _, _ => s
  end.

(** [s.endsWith(suffix)]: the suffix, read backwards, starts [s] read
    backwards. *)
Definition endsWith (s suffix : string) : bool := prefix (rev suffix) (rev s).

(** [s.slice(0, -k)] for [k > 0]: [s] without its last [k] characters. *)
Definition dropLast (k : nat) (s : string) : string := rev (drop k (rev s)).

(** [s.includes(sub)]. *)
Fixpoint includes (s sub : string) : bool :=
  prefix sub s ||
  match s with
  | EmptyString => false
  | String _ s' => includes s' sub
  end.

(** [s.split(sep)] for a non-empty separator: [skip] counts the characters
    of a separator occurrence still to be passed over, [cur] is the part being
    read. *)
Fixpoint split_go (sep s : string) (skip : nat) (cur : string) : list string :=
  match s with
  | EmptyString => [cur]
  | String c s' =>
      match skip with
      | S k => split_go sep s' k cur
      | O =>
          if prefix sep s
          then cur :: split_go sep s' (String.length sep - 1) EmptyString
          else split_go sep s' 0 (cur ++ String c EmptyString)
      end
  end.

Definition split (sep s : string) : list string := split_go sep s 0 EmptyString.

(** [s.replace(/pat/g, rep)] for a literal, non-empty pattern: occurrences
    are replaced left to right and do not overlap. *)
Fixpoint replaceAll_go (pat rep s : string) (skip : nat) : string :=
  match s with
  | EmptyString => EmptyString
  | String c s' =>
      match skip with
      | S k => replaceAll_go pat rep s' k
      | O =>
          if prefix pat s
          then rep ++ replaceAll_go pat rep s' (String.length pat - 1)
          else String c (replaceAll_go pat rep s' 0)
      end
  end.

Definition replaceAll (pat rep s : string) : string := replaceAll_go pat rep s 0.

(** A JavaScript string is falsy exactly when it is empty. *)
Definition truthy (s : string) : bool := negb (String.eqb s EmptyString).

(** [s.replace(pat, rep)] for a literal, non-empty pattern: the first
    occurrence only. *)
Fixpoint replaceFirst (pat rep s : string) : string :=
  if prefix pat s then rep ++ drop (String.length pat) s
  else
    match s with
    | EmptyString => EmptyString
    | String c s' => String c (replaceFirst pat rep s')
    end.

(** [s.startsWith(p)]. *)
Definition startsWith (s p : string) : bool := prefix p s.

(** The order of [Array.prototype.sort()] without a comparator on strings:
    by code unit, a proper prefix first. *)
Definition leb (a b : string) : bool := String.leb a b.

Fixpoint insertSorted (x : string) (l : list string) : list string :=
  match l with
  | [] => [x]
  | y :: l' => if leb x y then x :: l else y :: insertSorted x l'
  end.

Definition sort (l : list string) : list string := fold_right insertSorted [] l.

(** Two arrays of strings have the same [JSON.stringify] text exactly when
    they hold the same strings in the same order. *)
Fixpoint sameList (a b : list string) : bool :=
  match a, b with
  | [], [] => true
  | x :: a', y :: b' => String.eqb x y && sameList a' b'
  | _, _ => false
  end.

End Str.

(* ================================================================== *)
(** ** JavaScript [Map]: insertion-ordered, one entry per key *)
(* ================================================================== *)

Module JsMap.

Section WithValue.
Context {V : Type}.

Definition t := list (string * V).

Definition empty : t := [].

Fixpoint get (m : t) (k : string) : option V :=
  match m with
  | [] => None
  | (k', v) :: m' => if String.eqb k' k then Some v else get m' k
  end.

(** [m.set(k, v)]: an existing key keeps its place, a new key goes last. *)
Fixpoint set (m : t) (k : string) (v : V) : t :=
  match m with
  | [] => [(k, v)]
  | (k', v') :: m' =>
      if String.eqb k' k then (k', v) :: m' else (k', v') :: set m' k v
  end.

Fixpoint delete (m : t) (k : string) : t :=
  match m with
  | [] => []
  | (k', v') :: m' =>
      if String.eqb k' k then m' else (k', v') :: delete m' k
  end.

Definition has (m : t) (k : string) : bool :=
  match get m k with Some _ => true | None => false end.

Definition keys (m : t) : list string := map fst m.
Definition values (m : t) : list V := map snd m.
Definition size (m : t) : nat := List.length m.

End WithValue.

Arguments t : clear implicits.

End JsMap.

(* ================================================================== *)
(** ** The symbol registry: [ExchangeSymbolMapper] *)
(* ================================================================== *)

Module SymbolMapper.

Record ExchangeSymbolFormat := {
  exchangeId : string;
  nativeFormat : string;
  separator : string;
  baseFirst : bool;
  examples : list string;
  specialMappings : option (JsMap.t string)
}.

Definition krakenSpecialMappings : JsMap.t string :=
  JsMap.set (JsMap.set JsMap.empty "BTC" "XBT") "XBT" "BTC".

Definition binanceFormat : ExchangeSymbolFormat := {|
  exchangeId := "binance"; nativeFormat := "BASEQOUTE"; separator := "";
  baseFirst := true;
  examples := [
    "BTCUSDT"; "ETHUSDT"; "BNBUSDT"; "NEOUSDT"; "LTCUSDT";
    "QTUMUSDT"; "ADAUSDT"; "XRPUSDT"; "EOSUSDT"; "IOTAUSDT";
    "XLMUSDT"; "ONTUSDT"; "TRXUSDT"; "ETCUSDT"; "ICXUSDT";
    "LINKUSDT"; "UNIUSDT"; "AAVEUSDT"; "DOTUSDT"; "MATICUSDT";
    "AVAXUSDT"; "SOLUSDT"; "ATOMUSDT"; "ALGOUSDT"; "XTZUSDT";
    "COMPUSDT"; "MKRUSDT"; "YFIUSDT"; "SUSHIUSDT"; "CRVUSDT" ];
  specialMappings := None |}.

Definition coinbaseFormat : ExchangeSymbolFormat := {|
  exchangeId := "coinbase"; nativeFormat := "BASE-QUOTE"; separator := "-";
  baseFirst := true;
  examples := [
    "BTC-USD"; "ETH-USD"; "LTC-USD"; "ADA-USD"; "XRP-USD";
    "AAVE-USD"; "LINK-USD"; "UNI-USD"; "DOT-USD"; "MATIC-USD";
    "AVAX-USD"; "SOL-USD"; "ATOM-USD"; "ALGO-USD"; "XTZ-USD";
    "COMP-USD"; "MKR-USD"; "YFI-USD"; "SUSHI-USD"; "CRV-USD" ];
  specialMappings := None |}.

Definition krakenFormat : ExchangeSymbolFormat := {|
  exchangeId := "kraken"; nativeFormat := "BASE/QUOTE"; separator := "/";
  baseFirst := true;
  examples := [
    "XBT/USD"; "ETH/USD"; "LTC/USD"; "XRP/USD"; "ADA/USD";
    "DOT/USD"; "LINK/USD"; "UNI/USD"; "AAVE/USD"; "MATIC/USD";
    "AVAX/USD"; "SOL/USD"; "ATOM/USD"; "ALGO/USD"; "XTZ/USD";
    "COMP/USD"; "MKR/USD"; "YFI/USD"; "SUSHI/USD"; "CRV/USD" ];
  specialMappings := Some krakenSpecialMappings |}.

Definition bybitFormat : ExchangeSymbolFormat := {|
  exchangeId := "bybit"; nativeFormat := "BASEQOUTE"; separator := "";
  baseFirst := true;
  examples := [
    "BTCUSDT"; "ETHUSDT"; "XRPUSDT"; "DOTUSDT"; "XLMUSDT";
    "LTCUSDT"; "ADAUSDT"; "LINKUSDT"; "UNIUSDT"; "AAVEUSDT";
    "AVAXUSDT"; "SOLUSDT"; "ATOMUSDT"; "ALGOUSDT"; "XTZUSDT";
    "COMPUSDT"; "MKRUSDT"; "YFIUSDT"; "SUSHIUSDT"; "CRVUSDT" ];
  specialMappings := None |}.

Definition kucoinFormat : ExchangeSymbolFormat := {|
  exchangeId := "kucoin"; nativeFormat := "BASE-QUOTE"; separator := "-";
  baseFirst := true;
  examples := [
    "BTC-USDT"; "ETH-USDT"; "BNB-USDT"; "NEO-USDT"; "LTC-USDT";
    "QTUM-USDT"; "ADA-USDT"; "XRP-USDT"; "EOS-USDT"; "IOTA-USDT";
    "XLM-USDT"; "ONT-USDT"; "TRX-USDT"; "XTZ-USDT"; "ALGO-USDT";
    "LINK-USDT"; "UNI-USDT"; "AAVE-USDT"; "DOT-USDT"; "MATIC-USDT";
    "AVAX-USDT"; "SOL-USDT"; "ATOM-USDT"; "COMP-USDT"; "MKR-USDT" ];
  specialMappings := None |}.

Definition geminiFormat : ExchangeSymbolFormat := {|
  exchangeId := "gemini"; nativeFormat := "baseqoute"; separator := "";
  baseFirst := true;
  examples := [
    "btcusd"; "ethusd"; "ltcusd"; "linkusd";
    "uniusd"; "aaveusd"; "maticusd"; "dotusd";
    "avaxusd"; "solusd"; "atomusd"; "algousd";
    "xtzusd"; "compusd"; "mkrusd"; "yfiusd" ];
  specialMappings := None |}.

(** [initializeExchangeFormats]: the registry after construction. *)
Definition exchangeFormats : JsMap.t ExchangeSymbolFormat :=
  fold_left (fun m f => JsMap.set m (exchangeId f) f)
    [binanceFormat; coinbaseFormat; krakenFormat;
     bybitFormat; kucoinFormat; geminiFormat]
    JsMap.empty.

(** The six venue ids the registry knows. *)
Definition venues : list string :=
  ["binance"; "coinbase"; "kraken"; "bybit"; "kucoin"; "gemini"].

(** The loop shared by both parsers: the first quote asset of the list that
    ends the symbol and leaves a non-empty base. *)
Fixpoint splitQuote (quoteAssets : list string) (symbol : string)
  : option (string * string) :=
  match quoteAssets with
  | [] => None
  | quote :: rest =>
      if Str.endsWith symbol quote then
        let base := Str.dropLast (String.length quote) symbol in
        if (0 <? String.length base)%nat then Some (base, quote)
        else splitQuote rest symbol
      else splitQuote rest symbol
  end.

Definition parseNormalizedSymbol (symbol : string) : option (string * string) :=
  splitQuote ["USDT"; "USDC"; "USD"; "EUR"; "BTC"; "ETH"; "BNB"] symbol.

Definition parseExchangeSymbol (symbol : string) (format : ExchangeSymbolFormat)
  : option (string * string) :=
  if Str.truthy (separator format) then
    match Str.split (separator format) symbol with
    | [p0; p1] =>
        if Str.truthy p0 && Str.truthy p1 then
          Some (if baseFirst format then (p0, p1) else (p1, p0))
        else None
    | _ => None
    end
  else
    splitQuote ["USDT"; "USDC"; "USD"; "EUR"; "BTC"; "ETH"]
      (Str.toUpperCase symbol).

Definition normalizeQuoteAsset (quote : string) : string :=
  let normalized := Str.toUpperCase quote in
  if existsb (String.eqb normalized) ["USDT"; "USDC"; "BUSD"; "DAI"]
  then "USD" else normalized.

(** [format.specialMappings.get(base) || base]. *)
Definition applySpecial (format : ExchangeSymbolFormat) (base : string) : string :=
  match specialMappings format with
  | Some m =>
      match JsMap.get m base with
      | Some b => if Str.truthy b then b else base
      | None => base
      end
  | None => base
  end.

Definition usesUSDT (exchangeId : string) : bool :=
  String.eqb exchangeId "binance" || String.eqb exchangeId "kucoin"
  || String.eqb exchangeId "bybit".

Definition toExchangeSymbol (normalizedSymbol exchangeId : string) : option string :=
  match JsMap.get exchangeFormats exchangeId with
  | None => None
  | Some format =>
      match parseNormalizedSymbol normalizedSymbol with
      | None => None
      | Some (base, quote) =>
          let base := applySpecial format base in
          let quote :=
            if String.eqb quote "USD" && usesUSDT exchangeId then "USDT" else quote in
          let lower :=
            String.eqb (Str.toLowerCase (nativeFormat format)) (nativeFormat format) in
          let base := if lower then Str.toLowerCase base else Str.toUpperCase base in
          let quote := if lower then Str.toLowerCase quote else Str.toUpperCase quote in
          Some (if baseFirst format
                then base ++ separator format ++ quote
                else quote ++ separator format ++ base)
      end
  end.

Definition fromExchangeSymbol (exchangeSymbol exchangeId : string) : option string :=
  match JsMap.get exchangeFormats exchangeId with
  | None => None
  | Some format =>
      match parseExchangeSymbol exchangeSymbol format with
      | None => None
      | Some (base, quote) =>
          let base := applySpecial format base in
          let quote := normalizeQuoteAsset quote in
          Some (Str.toUpperCase base ++ Str.toUpperCase quote)
      end
  end.

Definition getSupportedSymbols (exchangeId : string) : list string :=
  match JsMap.get exchangeFormats exchangeId with
  | Some format => examples format
  | None => []
  end.

Definition getExchangeFormat (exchangeId : string) : option ExchangeSymbolFormat :=
  JsMap.get exchangeFormats exchangeId.

(** The inner loop of [findCommonSymbols]: the first example of the venue
    whose base asset, after the special mappings, is [base] (case apart). *)
Definition matchesBase (format : ExchangeSymbolFormat) (base example : string) : bool :=
  match parseExchangeSymbol example format with
  | Some (exampleBase, _) =>
      String.eqb (Str.toUpperCase (applySpecial format exampleBase))
                 (Str.toUpperCase base)
  | None => false
  end.

Definition findSymbol (format : ExchangeSymbolFormat) (base : string) : option string :=
  find (matchesBase format base) (examples format).

(** The [exchangeSymbols] map that [findCommonSymbols] builds for one base
    asset. *)
Definition exchangeSymbolsFor (exchangeIds : list string) (base : string)
  : JsMap.t string :=
  fold_left
    (fun exchangeSymbols exchangeId =>
       match JsMap.get exchangeFormats exchangeId with
       | None => exchangeSymbols
       | Some format =>
           match findSymbol format base with
           | Some foundSymbol =>
               if Str.truthy foundSymbol
               then JsMap.set exchangeSymbols exchangeId foundSymbol
               else exchangeSymbols
           | None => exchangeSymbols
           end
       end)
    exchangeIds JsMap.empty.

Definition findCommonSymbols (exchangeIds baseAssets : list string)
  : JsMap.t (JsMap.t string) :=
  fold_left
    (fun commonSymbols base =>
       let normalizedSymbol := base ++ "USD" in
       let exchangeSymbols := exchangeSymbolsFor exchangeIds base in
       if (JsMap.size exchangeSymbols =? List.length exchangeIds)%nat
       then JsMap.set commonSymbols normalizedSymbol exchangeSymbols
       else commonSymbols)
    baseAssets JsMap.empty.

End SymbolMapper.

(* ================================================================== *)
(** ** JavaScript numbers *)
(* ================================================================== *)

Module Num.

Local Open Scope float_scope.

(** A number is falsy when it is [0], [-0] or [NaN]: the left operand of
    [x || d] is kept only when it is truthy. *)
Definition falsy (x : float) : bool := (x =? 0) || negb (x =? x).

Definition orElse (x d : float) : float := if falsy x then d else x.

(** [a >= b] and [a > b] of the language ([false] as soon as one side is
    [NaN]). *)
Definition geb (a b : float) : bool := b <=? a.
Definition gtb (a b : float) : bool := b <? a.

Definition ofZ (z : Z) : float := PrimFloat.of_uint63 (Uint63.of_Z z).

(** A signed integer as a number (exact below 2^53). *)
Definition ofInt (z : Z) : float := if (z <? 0)%Z then - ofZ (- z) else ofZ z.

Definition digitOf (c : ascii) : option Z :=
  let n := Z.of_nat (nat_of_ascii c) in
  if ((48 <=? n) && (n <=? 57))%Z then Some (n - 48)%Z else None.

(** Leading decimal digits of [s]: the value read after [acc], how many
    digits were read, and the rest of the text. *)
Fixpoint readDigits (s : string) (acc : Z) (count : nat) : Z * nat * string :=
  match s with
  | EmptyString => (acc, count, s)
  | String c s' =>
      match digitOf c with
      | Some d => readDigits s' (10 * acc + d)%Z (S count)
      | None => (acc, count, s)
      end
  end.

(** [parseFloat] on a plain decimal numeral: an optional sign, digits, an
    optional fraction; reading stops at the first other character and a text
    without a digit gives [NaN].  The quotient of two exactly represented
    integers is correctly rounded, so the result is the language's for
    numerals of at most 15 significant digits (exponents, white space and
    [Infinity] are not read). *)
Definition parseFloatDecimal (s : string) : float :=
  let '(negative, body) :=
    match s with
    | String "-"%char r => (true, r)
    | String "+"%char r => (false, r)
    | _ => (false, s)
    end in
  let '(int, n1, rest) := readDigits body 0%Z 0 in
  let '(mant, n2) :=
    match rest with
    | String "."%char r => let '(m, k, _) := readDigits r int 0 in (m, k)
    | _ => (int, 0%nat)
    end in
  if (n1 + n2 =? 0)%nat then nan
  else
    let v := ofZ mant / ofZ (10 ^ Z.of_nat n2) in
    if negative then - v else v.

End Num.

(* ================================================================== *)
(** ** Shared types ([@arbot/shared]) *)
(* ================================================================== *)

Module Shared.

Record OrderBookEntry := { price : string; quantity : string }.

Record OrderBook := {
  symbol : string;
  exchange : string;
  bids : list OrderBookEntry;
  asks : list OrderBookEntry;
  timestamp : Z;
  lastUpdateId : option Z
}.

Record Fees := { buyFee : float; sellFee : float; totalFee : float }.

(** The numeric fields that the source stores through [toString()] are kept
    as the numbers themselves; the [id] (a time stamp and a random suffix)
    plays no part in detection and is left out. *)
Record ArbitrageOpportunity := {
  oppSymbol : string;
  buyExchange : string;
  sellExchange : string;
  buyPrice : float;
  sellPrice : float;
  spread : float;
  spreadPercent : float;
  estimatedProfit : float;
  oppTimestamp : Z;
  fees : Fees
}.

Definition withSides (ob : OrderBook) (b a : list OrderBookEntry)
  (ts : Z) (uid : option Z) : OrderBook :=
  {| symbol := symbol ob; exchange := exchange ob;
     bids := b; asks := a; timestamp := ts; lastUpdateId := uid |}.

End Shared.

(* ================================================================== *)
(** ** The opportunity detector: [OpportunityDetector] *)
(* ================================================================== *)

Module Detector.

Import Shared.
Local Open Scope float_scope.

Record ExchangeFee := { taker : float; maker : float }.

Definition exchangeFees : JsMap.t ExchangeFee := [
  ("binance"%string, {| taker := 0.001; maker := 0.0 |});
  ("coinbase"%string, {| taker := 0.006; maker := 0.004 |});
  ("kraken"%string, {| taker := 0.01; maker := 0.01 |});
  ("kucoin"%string, {| taker := 0.0008; maker := 0.0008 |});
  ("bybit"%string, {| taker := 0.001; maker := 0.001 |});
  ("gemini"%string, {| taker := 0.004; maker := 0.002 |}) ].

(** [this.fees[exchange]?.taker || 0.001]. *)
Definition takerFee (exchange : string) : float :=
  match JsMap.get exchangeFees exchange with
  | Some f => Num.orElse (taker f) 0.001
  | None => 0.001
  end.

Record OpportunityConfig := {
  minProfitPercent : float;
  slippageBuffer : float;
  maxSpreadAge : Z
}.

(** [Partial<OpportunityConfig>]. *)
Record PartialConfig := {
  newMinProfitPercent : option float;
  newSlippageBuffer : option float;
  newMaxSpreadAge : option Z
}.

Record t := {
  config : OpportunityConfig;
  tradeAmount : float;
  orderBooks : JsMap.t OrderBook;
  lastOpportunityCheck : Z
}.

(** The detector as its field initialisers leave it. *)
Definition initialConfig : OpportunityConfig :=
  {| minProfitPercent := -0.5; slippageBuffer := 0.0; maxSpreadAge := 5000 |}.

Definition create : t :=
  {| config := initialConfig; tradeAmount := 1000;
     orderBooks := JsMap.empty; lastOpportunityCheck := 0 |}.

(** The throttle of [updateOrderBook] ([> 1000]) and the bound of
    [cleanupOldOpportunities] ([> 1000], [skip: 999]) are literals of the
    source; they are named here. *)
Definition checkIntervalMs : Z := 1000.
Definition retentionCount : Z := 1000.

Definition normalizeSymbol (symbol : string) : string :=
  Str.replaceAll "USDT" "USD" (Str.replaceAll "-" "" symbol).

(** [Array.from(new Set(...))]: first occurrences, in order. *)
Fixpoint dedup (l : list string) : list string :=
  match l with
  | [] => []
  | x :: l' => x :: filter (fun y => negb (String.eqb x y)) (dedup l')
  end.

Definition getAvailableSymbols (d : t) : list string :=
  dedup (map (fun ob => normalizeSymbol (symbol ob)) (JsMap.values (orderBooks d))).

Definition isOrderBookFresh (d : t) (now : Z) (ob : OrderBook) : bool :=
  let age := (now - timestamp ob)%Z in
  (age <=? maxSpreadAge (config d))%Z.

Definition isProfitableOpportunity (d : t) (o : ArbitrageOpportunity) : bool :=
  let requiredProfit := minProfitPercent (config d) + slippageBuffer (config d) in
  Num.geb (spreadPercent o) requiredProfit.

Definition orderKey (ob : OrderBook) : string :=
  (exchange ob ++ ":" ++ symbol ob)%string.

Definition updateConfig (d : t) (c : PartialConfig) : t :=
  let old := config d in
  {| config :=
       {| minProfitPercent :=
            match newMinProfitPercent c with Some v => v | None => minProfitPercent old end;
          slippageBuffer :=
            match newSlippageBuffer c with Some v => v | None => slippageBuffer old end;
          maxSpreadAge :=
            match newMaxSpreadAge c with Some v => v | None => maxSpreadAge old end |};
     tradeAmount := tradeAmount d;
     orderBooks := orderBooks d;
     lastOpportunityCheck := lastOpportunityCheck d |}.

Definition updateTradeAmount (d : t) (amount : float) : t :=
  {| config := config d; tradeAmount := amount;
     orderBooks := orderBooks d;
     lastOpportunityCheck := lastOpportunityCheck d |}.

Definition getConfig (d : t) : OpportunityConfig := config d.

(** The pairs [(l[i], l[j])] with [i < j], in the order of the two nested
    loops. *)
Fixpoint pairs {A : Type} (l : list A) : list (A * A) :=
  match l with
  | [] => []
  | x :: l' => (map (fun y => (x, y)) l' ++ pairs l')%list
  end.

Definition optList {A : Type} (o : option A) : list A :=
  match o with Some x => [x] | None => [] end.

Section WithParseFloat.

Variable parseFloat : string -> float.

(** The profit of one direction, as [calculateOpportunity] computes it from
    the two top prices. *)
Definition profitPercentOf (d : t) (buyOrderBook sellOrderBook : OrderBook)
  (bestBid bestAsk : OrderBookEntry) : float :=
  let buyPrice := parseFloat (price bestAsk) in
  let sellPrice := parseFloat (price bestBid) in
  let assetQuantity := tradeAmount d / buyPrice in
  let buyValue := tradeAmount d in
  let sellValue := sellPrice * assetQuantity in
  let buyFee := buyValue * takerFee (exchange buyOrderBook) in
  let sellFee := sellValue * takerFee (exchange sellOrderBook) in
  let totalFees := buyFee + sellFee in
  let grossProfit := sellValue - buyValue in
  let netProfit := grossProfit - totalFees in
  (netProfit / buyValue) * 100.

Definition calculateOpportunity (d : t) (now : Z)
  (buyOrderBook sellOrderBook : OrderBook) (symbol : string)
  : option ArbitrageOpportunity :=
  match bids sellOrderBook, asks buyOrderBook with
  | bestBid :: _, bestAsk :: _ =>
      let buyPrice := parseFloat (price bestAsk) in
      let sellPrice := parseFloat (price bestBid) in
      let assetQuantity := tradeAmount d / buyPrice in
      let buyValue := tradeAmount d in
      let sellValue := sellPrice * assetQuantity in
      let buyFee := buyValue * takerFee (exchange buyOrderBook) in
      let sellFee := sellValue * takerFee (exchange sellOrderBook) in
      let totalFees := buyFee + sellFee in
      let grossProfit := sellValue - buyValue in
      let netProfit := grossProfit - totalFees in
      let profitPercent := (netProfit / buyValue) * 100 in
      if profitPercent <? minProfitPercent (config d) then None
      else
        Some {| oppSymbol := symbol;
                buyExchange := exchange buyOrderBook;
                sellExchange := exchange sellOrderBook;
                buyPrice := buyPrice;
                sellPrice := sellPrice;
                spread := grossProfit;
                spreadPercent := profitPercent;
                estimatedProfit := netProfit;
                oppTimestamp := now;
                fees := {| buyFee := buyFee; sellFee := sellFee;
                           totalFee := totalFees |} |}
  | _, _ => None
  end.

(** The [orderBooksByExchange] map of [findArbitrageOpportunities]: the fresh
    books whose normalised symbol is [symbol], keyed by venue. *)
Definition booksByExchange (d : t) (now : Z) (symbol : string)
  : JsMap.t OrderBook :=
  fold_left
    (fun m ob =>
       if String.eqb (normalizeSymbol (Shared.symbol ob)) symbol
          && isOrderBookFresh d now ob
       then JsMap.set m (exchange ob) ob else m)
    (JsMap.values (orderBooks d)) JsMap.empty.

Definition findArbitrageOpportunities (d : t) (now : Z) (symbol : string)
  : list ArbitrageOpportunity :=
  let orderBooksByExchange := booksByExchange d now symbol in
  if (JsMap.size orderBooksByExchange <? 2)%nat then []
  else
    flat_map
      (fun '(exchange1, exchange2) =>
         if Str.truthy exchange1 && Str.truthy exchange2 then
           match JsMap.get orderBooksByExchange exchange1,
                 JsMap.get orderBooksByExchange exchange2 with
           | Some orderBook1, Some orderBook2 =>
               (optList (calculateOpportunity d now orderBook1 orderBook2 symbol)
                ++ optList (calculateOpportunity d now orderBook2 orderBook1 symbol))%list
           | _, _ => []
           end
         else [])
      (pairs (JsMap.keys orderBooksByExchange)).

(** [detectOpportunities]: the opportunities handed to [handleOpportunity],
    in the order of the calls. *)
Definition detectOpportunities (d : t) (now : Z) : list ArbitrageOpportunity :=
  flat_map
    (fun symbol =>
       filter (isProfitableOpportunity d) (findArbitrageOpportunities d now symbol))
    (getAvailableSymbols d).

(** [updateOrderBook]: the new state and the opportunities detected by the
    scan it may trigger. *)
Definition updateOrderBook (d : t) (now : Z) (orderBook : OrderBook)
  : t * list ArbitrageOpportunity :=
  let d1 := {| config := config d; tradeAmount := tradeAmount d;
               orderBooks := JsMap.set (orderBooks d) (orderKey orderBook) orderBook;
               lastOpportunityCheck := lastOpportunityCheck d |} in
  if (checkIntervalMs <? now - lastOpportunityCheck d1)%Z then
    ({| config := config d1; tradeAmount := tradeAmount d1;
        orderBooks := orderBooks d1; lastOpportunityCheck := now |},
     detectOpportunities d1 now)
  else (d1, []).

End WithParseFloat.

End Detector.

(* ================================================================== *)
(** ** [Array.prototype.sort] with a comparator *)
(* ================================================================== *)

Module JsArray.

Local Open Scope float_scope.

Section Sort.
Context {A : Type}.
Variable compareFn : A -> A -> float.

(** [compareFn y x > 0]: [y] is to come after [x].  A result that is zero,
    negative or [NaN] leaves the two in their order. *)
Definition comesAfter (y x : A) : bool := 0 <? compareFn y x.

(** The sort of the language is stable; for a comparator that orders the
    elements consistently every stable sort gives the same array.  It is
    modelled by insertion: each element goes behind those that need not come
    after it. *)
Fixpoint insert (x : A) (l : list A) : list A :=
  match l with
  | [] => [x]
  | y :: l' => if comesAfter y x then x :: l else y :: insert x l'
  end.

Definition sort (l : list A) : list A :=
  fold_left (fun acc x => insert x acc) l [].

End Sort.

End JsArray.

(* ================================================================== *)
(** ** The reconnect back-off shared by the venue clients *)
(* ================================================================== *)

Module BaseExchange.

(** What one call of [handleReconnect] does besides updating the counter. *)
Inductive Effect :=
| EmitError (exchange message : string)
| SetTimeout (delayMs : Z).

Record t := {
  exchangeId : string;
  reconnectAttempts : Z;
  reconnectTimeout : option Z
}.

Definition maxReconnectAttempts : Z := 5.

Definition create (id : string) : t :=
  {| exchangeId := id; reconnectAttempts := 0; reconnectTimeout := None |}.

(** [handleReconnect] of [BaseExchange], which the Binance client
    inherits.  The clients of Bybit, Kraken, Coinbase and KuCoin do not
    extend the base class; each carries a copy of the method that differs in
    the venue name and in what it writes to the console, and [exchangeId]
    stands for that name.  The copy of the Gemini client is
    [Gemini.handleReconnect]. *)
Definition handleReconnect (c : t) : t * Effect :=
  if (maxReconnectAttempts <=? reconnectAttempts c)%Z then
    (c, EmitError (exchangeId c) "Max reconnection attempts reached")
  else
    let attempts := (reconnectAttempts c + 1)%Z in
    let delay := Z.min (1000 * 2 ^ attempts) 30000 in
    ({| exchangeId := exchangeId c; reconnectAttempts := attempts;
        reconnectTimeout := Some delay |},
     SetTimeout delay).


(** [cleanupReconnect] / [disconnect]: the pending timer is cleared. *)
Definition cleanupReconnect (c : t) : t :=
  {| exchangeId := exchangeId c; reconnectAttempts := reconnectAttempts c;
     reconnectTimeout := None |}.


(** A trading pair as [getExchangeInfo] reports it. *)
Record TradingPair := {
  symbol : string;
  baseAsset : string;
  quoteAsset : string;
  normalizedSymbol : string;
  active : bool;
  minOrderSize : option float;
  tickSize : option float
}.

(** [normalizeSymbol(baseAsset, quoteAsset)] of the base class. *)
Definition normalizeSymbol (baseAsset quoteAsset : string) : string :=
  let normalizedQuote := if String.eqb quoteAsset "USDT" then "USD" else quoteAsset in
  baseAsset ++ normalizedQuote.

End BaseExchange.

(* ================================================================== *)
(** ** The Binance client: [BinanceWebSocketClient] *)
(* ================================================================== *)

Module Binance.

Import Shared.
Local Open Scope float_scope.

Inductive Side := Bids | Asks.

Record DepthUpdate := {
  E : Z;
  s : string;
  U : Z;
  u : Z;
  b : list (string * string);
  a : list (string * string)
}.

Record OrderBookSnapshot := {
  snapLastUpdateId : Z;
  snapBids : list (string * string);
  snapAsks : list (string * string)
}.

(** The depth asked of the REST endpoint when priming ([limit=50]). *)
Definition depthLimit : nat := 50.

Definition toEntry (pq : string * string) : OrderBookEntry :=
  {| price := fst pq; quantity := snd pq |}.

(** The book that [initializeOrderBooks] stores for one symbol. *)
Definition snapshotBook (symbol : string) (snapshot : OrderBookSnapshot) (now : Z)
  : OrderBook :=
  {| symbol := symbol; exchange := "binance";
     bids := map toEntry (snapBids snapshot);
     asks := map toEntry (snapAsks snapshot);
     timestamp := now;
     lastUpdateId := Some (snapLastUpdateId snapshot) |}.

Section WithParseFloat.

Variable parseFloat : string -> float.

Definition compareFn (side : Side) (a b : OrderBookEntry) : float :=
  let priceA := parseFloat (price a) in
  let priceB := parseFloat (price b) in
  match side with
  | Bids => priceB - priceA
  | Asks => priceA - priceB
  end.

Definition applyUpdate (priceMap : JsMap.t string) (pq : string * string)
  : JsMap.t string :=
  let '(price, quantity) := pq in
  if parseFloat quantity =? 0 then JsMap.delete priceMap price
  else JsMap.set priceMap price quantity.

Definition updateOrderBookSide (existing : list OrderBookEntry)
  (updates : list (string * string)) (side : Side) : list OrderBookEntry :=
  let priceMap :=
    fold_left (fun m entry => JsMap.set m (price entry) (quantity entry))
      existing JsMap.empty in
  let priceMap := fold_left applyUpdate updates priceMap in
  JsArray.sort (compareFn side) (map toEntry priceMap).

(** [existingOrderBook.lastUpdateId && update.U <= existingOrderBook.lastUpdateId]:
    an absent or zero id is falsy. *)
Definition isOldUpdate (ob : OrderBook) (update : DepthUpdate) : bool :=
  match lastUpdateId ob with
  | Some id => negb (id =? 0)%Z && (U update <=? id)%Z
  | None => false
  end.

(** [handleDepthUpdate]: the books of the client after the message and the
    book emitted as an [orderbook] event, if any. *)
Definition handleDepthUpdate (orderBooks : JsMap.t OrderBook) (update : DepthUpdate)
  : JsMap.t OrderBook * option OrderBook :=
  let symbol := s update in
  match JsMap.get orderBooks symbol with
  | None => (orderBooks, None)
  | Some existingOrderBook =>
      if isOldUpdate existingOrderBook update then (orderBooks, None)
      else
        let updatedBids :=
          updateOrderBookSide (bids existingOrderBook) (b update) Bids in
        let updatedAsks :=
          updateOrderBookSide (asks existingOrderBook) (a update) Asks in
        let updatedOrderBook :=
          withSides existingOrderBook updatedBids updatedAsks
            (E update) (Some (u update)) in
        (JsMap.set orderBooks symbol updatedOrderBook, Some updatedOrderBook)
  end.

End WithParseFloat.

End Binance.

(* ================================================================== *)
(** ** The Bybit client: [BybitWebSocketClient] *)
(* ================================================================== *)

Module Bybit.

Import Shared.
Local Open Scope float_scope.

Record UpdateData := {
  s : string;
  b : list (string * string);
  a : list (string * string)
}.

Record OrderBookUpdate := {
  topic : string;
  type : string;
  data : UpdateData
}.

(** The depth kept when priming ([slice(0, 100)]). *)
Definition depthLimit : nat := 100.

(** The book that [initializeOrderBooks] stores for one symbol. *)
Definition snapshotBook (symbol : string) (result : UpdateData) (now : Z)
  : OrderBook :=
  {| symbol := symbol; exchange := "bybit";
     bids := map Binance.toEntry (firstn 100 (b result));
     asks := map Binance.toEntry (firstn 100 (a result));
     timestamp := now;
     lastUpdateId := None |}.

Section WithParseFloat.

Variable parseFloat : string -> float.

Definition updateOrderBookSide (existing : list OrderBookEntry)
  (price quantity : string) : list OrderBookEntry :=
  let result :=
    filter (fun entry => negb (String.eqb (Shared.price entry) price)) existing in
  if Num.gtb (parseFloat quantity) 0
  then (result ++ [{| Shared.price := price; Shared.quantity := quantity |}])%list
  else result.

Definition descending (a b : OrderBookEntry) : float :=
  parseFloat (price b) - parseFloat (price a).

Definition ascending (a b : OrderBookEntry) : float :=
  parseFloat (price a) - parseFloat (price b).

Definition applyDeltas (side : list OrderBookEntry)
  (updates : list (string * string)) : list OrderBookEntry :=
  fold_left (fun acc pq => updateOrderBookSide acc (fst pq) (snd pq)) updates side.

(** [handleOrderBookUpdate]: the books of the client after the message and
    the book emitted as an [orderbook] event, if any. *)
Definition handleOrderBookUpdate (orderBooks : JsMap.t OrderBook) (now : Z)
  (update : OrderBookUpdate) : JsMap.t OrderBook * option OrderBook :=
  let symbol := s (data update) in
  match JsMap.get orderBooks symbol with
  | None => (orderBooks, None)
  | Some existingOrderBook =>
      let '(updatedBids, updatedAsks) :=
        if String.eqb (type update) "snapshot" then
          (map Binance.toEntry (b (data update)),
           map Binance.toEntry (a (data update)))
        else
          (applyDeltas (bids existingOrderBook) (b (data update)),
           applyDeltas (asks existingOrderBook) (a (data update))) in
      let updatedOrderBook :=
        withSides existingOrderBook
          (JsArray.sort descending updatedBids)
          (JsArray.sort ascending updatedAsks)
          now (lastUpdateId existingOrderBook) in
      (JsMap.set orderBooks symbol updatedOrderBook, Some updatedOrderBook)
  end.

(** [handleMessage]: only order-book topics are processed. *)
Definition handleMessage (orderBooks : JsMap.t OrderBook) (now : Z)
  (message : OrderBookUpdate) : JsMap.t OrderBook * option OrderBook :=
  if Str.truthy (topic message) && prefix "orderbook" (topic message)
  then handleOrderBookUpdate orderBooks now message
  else (orderBooks, None).

End WithParseFloat.

End Bybit.

(* ================================================================== *)
(** ** The opportunity sink *)
(* ================================================================== *)

Module Sink.

Import Shared.

Record ExchangeRow := { name : string; wsUrl : string; restUrl : string }.

Record OpportunityRow := {
  rowId : Z;
  rowTimestamp : Z;
  rowOpportunity : ArbitrageOpportunity
}.

(** Modelled from the spec: the relational store behind the data mapper is
    not code of the repository.  It is a table of opportunities with the
    columns of section 6, a companion venue table keyed by name, and the
    operations the source calls on them (count, insert, ordered read,
    delete by id range, upsert).  Ids are handed out in insertion order; an
    insert whose buy or sell venue has no row fails with a foreign-key
    error; [faults] scripts any other failure of the store, one entry per
    call ([None]: the call runs). *)
Record t := {
  exchanges : list ExchangeRow;
  opportunities : list OpportunityRow;
  nextId : Z;
  faults : list (option string)
}.

Definition foreignKeyMessage : string :=
  "Foreign key constraint failed on the field".

Definition hasExchange (db : t) (n : string) : bool :=
  existsb (fun r => String.eqb (name r) n) (exchanges db).

(** The next scripted fault, if the call is to fail, and the store after
    the call was counted. *)
Definition nextFault (db : t) : option string * t :=
  match faults db with
  | [] => (None, db)
  | f :: rest =>
      (f, {| exchanges := exchanges db; opportunities := opportunities db;
             nextId := nextId db; faults := rest |})
  end.

Definition create (db : t) (o : ArbitrageOpportunity) : t * (unit + string) :=
  let '(f, db) := nextFault db in
  match f with
  | Some msg => (db, inr msg)
  | None =>
      if hasExchange db (buyExchange o) && hasExchange db (sellExchange o) then
        ({| exchanges := exchanges db;
            opportunities :=
              (opportunities db ++
                 [{| rowId := nextId db; rowTimestamp := oppTimestamp o;
                     rowOpportunity := o |}])%list;
            nextId := (nextId db + 1)%Z; faults := faults db |}, inl tt)
      else (db, inr foreignKeyMessage)
  end.

Definition count (db : t) : t * (Z + string) :=
  let '(f, db) := nextFault db in
  match f with
  | Some msg => (db, inr msg)
  | None => (db, inl (Z.of_nat (List.length (opportunities db))))
  end.

(** [orderBy: { timestamp: 'desc' }]: newest first; rows with one timestamp
    stay in insertion order. *)
Fixpoint insertDesc (r : OpportunityRow) (l : list OpportunityRow)
  : list OpportunityRow :=
  match l with
  | [] => [r]
  | y :: l' =>
      if (rowTimestamp y <? rowTimestamp r)%Z then r :: l else y :: insertDesc r l'
  end.

Definition newestFirst (l : list OpportunityRow) : list OpportunityRow :=
  fold_left (fun acc r => insertDesc r acc) l [].

(** [findMany({ select: { id }, orderBy: { timestamp: 'desc' }, take, skip })]. *)
Definition findManyIds (db : t) (take skip : nat) : t * (list Z + string) :=
  let '(f, db) := nextFault db in
  match f with
  | Some msg => (db, inr msg)
  | None =>
      (db, inl (map rowId (firstn take (skipn skip (newestFirst (opportunities db))))))
  end.

(** [deleteMany({ where: { id: { lt: cutoffId } } })]: the number of rows
    deleted. *)
Definition deleteManyLt (db : t) (cutoffId : Z) : t * (Z + string) :=
  let '(f, db) := nextFault db in
  match f with
  | Some msg => (db, inr msg)
  | None =>
      let kept := filter (fun r => negb (rowId r <? cutoffId)%Z) (opportunities db) in
      ({| exchanges := exchanges db; opportunities := kept;
          nextId := nextId db; faults := faults db |},
       inl (Z.of_nat (List.length (opportunities db) - List.length kept)))
  end.

(** [exchange.upsert({ where: { name }, update: {}, create })]. *)
Definition upsert (db : t) (row : ExchangeRow) : t * (unit + string) :=
  let '(f, db) := nextFault db in
  match f with
  | Some msg => (db, inr msg)
  | None =>
      if hasExchange db (name row) then (db, inl tt)
      else
        ({| exchanges := (exchanges db ++ [row])%list;
            opportunities := opportunities db;
            nextId := nextId db; faults := faults db |}, inl tt)
  end.

End Sink.

(* ================================================================== *)
(** ** The detector's persistence path *)
(* ================================================================== *)

Module Persistence.

Import Shared.

(** What the asynchronous part of the detector acts on: the store, the
    console, and the [opportunity_detected] events emitted so far. *)
Record World := {
  db : Sink.t;
  console : list string;
  emitted : list ArbitrageOpportunity
}.

Inductive Result (A : Type) :=
| Ok (a : A)
| Throw (message : string)
| Pending.
Arguments Ok {A} a.
Arguments Throw {A} message.
Arguments Pending {A}.

(** An [async] function: it runs on the world and returns or throws;
    [Pending] stands for a run that did not finish within the fuel given to
    the recursion (the promise is never settled). *)
Definition M (A : Type) : Type := World -> World * Result A.

Definition ret {A} (a : A) : M A := fun w => (w, Ok a).
Definition throw {A} (msg : string) : M A := fun w => (w, Throw msg).
Definition pending {A} : M A := fun w => (w, Pending).

Definition bind {A B} (m : M A) (k : A -> M B) : M B :=
  fun w =>
    match m w with
    | (w', Ok a) => k a w'
    | (w', Throw msg) => (w', Throw msg)
    | (w', Pending) => (w', Pending)
    end.

(** [try { m } catch (error) { handler(error) }]. *)
Definition tryCatch {A} (m : M A) (handler : string -> M A) : M A :=
  fun w =>
    match m w with
    | (w', Ok a) => (w', Ok a)
    | (w', Throw msg) => handler msg w'
    | (w', Pending) => (w', Pending)
    end.

Notation "x <- m ;; k" := (bind m (fun x => k))
  (at level 61, m at next level, right associativity).
Notation "m ;;; k" := (bind m (fun _ => k))
  (at level 61, right associativity).

(** A call of the store lifted to the world. *)
Definition call {A} (op : Sink.t -> Sink.t * (A + string)) : M A :=
  fun w =>
    let '(db', r) := op (db w) in
    let w' := {| db := db'; console := console w; emitted := emitted w |} in
    match r with
    | inl a => (w', Ok a)
    | inr msg => (w', Throw msg)
    end.

Definition log (line : string) : M unit :=
  fun w =>
    ({| db := db w; console := (console w ++ [line])%list;
        emitted := emitted w |}, Ok tt).

Definition emit (o : ArbitrageOpportunity) : M unit :=
  fun w =>
    ({| db := db w; console := console w;
        emitted := (emitted w ++ [o])%list |}, Ok tt).

Fixpoint forEach {A} (l : list A) (f : A -> M unit) : M unit :=
  match l with
  | [] => ret tt
  | x :: l' => f x ;;; forEach l' f
  end.

Definition ensureExchangesExist : M unit :=
  let exchanges := ["binance"; "coinbase"] in
  forEach exchanges (fun exchangeName =>
    call (fun d =>
      Sink.upsert d
        {| Sink.name := exchangeName;
           Sink.wsUrl :=
             if String.eqb exchangeName "binance"
             then "wss://stream.binance.com:9443/ws"
             else "wss://ws-feed.exchange.coinbase.com";
           Sink.restUrl :=
             if String.eqb exchangeName "binance"
             then "https://api.binance.com/api/v3"
             else "https://api.exchange.coinbase.com" |})).

Definition cleanupOldOpportunities : M unit :=
  tryCatch
    (totalCount <- call Sink.count ;;
     if (Detector.retentionCount <? totalCount)%Z then
       keepFromRecord <-
         call (fun d => Sink.findManyIds d 1 (Z.to_nat (Detector.retentionCount - 1))) ;;
       match keepFromRecord with
       | cutoffId :: _ =>
           deletedCount <- call (fun d => Sink.deleteManyLt d cutoffId) ;;
           if (0 <? deletedCount)%Z
           then log "Cleaned up old opportunities (keeping latest 1000)"
           else ret tt
       | [] => ret tt
       end
     else ret tt)
    (fun error => log "Error during cleanup").

(** [saveOpportunityToDatabase]; the retry is a call of the function itself,
    so the model recurses on [fuel]. *)
Fixpoint saveOpportunityToDatabase (fuel : nat) (opportunity : ArbitrageOpportunity)
  : M unit :=
  tryCatch
    (call (fun d => Sink.create d opportunity) ;;;
     cleanupOldOpportunities)
    (fun error =>
       if Str.includes error "Foreign key constraint" then
         ensureExchangesExist ;;;
         match fuel with
         | O => pending
         | S fuel' => saveOpportunityToDatabase fuel' opportunity
         end
       else log "Database error").

Definition handleOpportunity (fuel : nat) (opportunity : ArbitrageOpportunity)
  : M unit :=
  tryCatch
    (log "ARBITRAGE OPPORTUNITY DETECTED!" ;;;
     saveOpportunityToDatabase fuel opportunity ;;;
     emit opportunity)
    (fun error => log "Error handling opportunity").

End Persistence.

(* ================================================================== *)
(** ** The manager's order-book intake: [DynamicMarketDataManager] *)
(* ================================================================== *)

Module Manager.

Import Shared.

(** Modelled from the spec: the key/value store is an external
    collaborator.  An entry is the cached book with the time at which it
    expires; [failing] says whether the next write is refused (a closed or
    unreachable connection), in which case [setEx] throws. *)
Record Redis := {
  entries : JsMap.t (OrderBook * Z);
  failing : bool
}.

Definition setEx (r : Redis) (now : Z) (key : string) (ttlSeconds : Z)
  (value : OrderBook) : Redis + string :=
  if failing r then inr "The client is closed"
  else inl {| entries := JsMap.set (entries r) key (value, (now + 1000 * ttlSeconds)%Z);
              failing := failing r |}.

Inductive Event :=
| OrderbookUpdate (ob : OrderBook)
| ArbitrageOpportunityEvent (o : ArbitrageOpportunity).

Record t := {
  redisClient : Redis;
  opportunityDetector : Detector.t;
  (** opportunities the detector handed to its asynchronous handler *)
  detected : list ArbitrageOpportunity;
  events : list Event;
  console : list string
}.

Definition cacheKey (ob : OrderBook) : string :=
  "orderbook:" ++ exchange ob ++ ":" ++ symbol ob.

Section WithParseFloat.

Variable parseFloat : string -> float.

Definition handleOrderBookUpdate (m : t) (now : Z) (orderBook : OrderBook) : t :=
  match setEx (redisClient m) now (cacheKey orderBook) 10 orderBook with
  | inr error =>
      {| redisClient := redisClient m;
         opportunityDetector := opportunityDetector m;
         detected := detected m;
         events := events m;
         console := (console m ++ ["Error handling order book update"])%list |}
  | inl redis' =>
      let '(detector', opps) :=
        Detector.updateOrderBook parseFloat (opportunityDetector m) now orderBook in
      {| redisClient := redis';
         opportunityDetector := detector';
         detected := (detected m ++ opps)%list;
         events := (events m ++ [OrderbookUpdate orderBook])%list;
         console := console m |}
  end.

End WithParseFloat.

End Manager.

(* ================================================================== *)
(** ** The Kraken client: [KrakenWebSocketClient] *)
(* ================================================================== *)

Module Kraken.

Import Shared.
Local Open Scope float_scope.

(** The second element of a book message: a snapshot carries [bs] and
    [as], an update [b], [a] or both.  Of each level only the price and the
    volume are read. *)
Record BookData := {
  bs : option (list (string * string));
  as_ : option (list (string * string));
  b : option (list (string * string));
  a : option (list (string * string))
}.

(** A parsed message of the socket: a JSON object (heartbeat, status), an
    array that the guard of [handleMessage] lets through
    ([channelID, data, channelName, pair] with an object as [data]), or
    another array. *)
Inductive Message :=
| EventMessage
| BookMessage (channelID : Z) (data : BookData) (channelName pair : string)
| OtherArray.

(** The book that [initializeOrderBooks] stores for one symbol
    ([slice(0, 50)]). *)
Definition snapshotBook (symbol : string) (bids asks : list (string * string))
  (now : Z) : OrderBook :=
  {| Shared.symbol := symbol; exchange := "kraken";
     Shared.bids := map Binance.toEntry (firstn 50 bids);
     Shared.asks := map Binance.toEntry (firstn 50 asks);
     timestamp := now;
     lastUpdateId := None |}.

Section WithParseFloat.

Variable parseFloat : string -> float.

Definition updateOrderBookSide (existing : list OrderBookEntry)
  (price quantity : string) : list OrderBookEntry :=
  let result :=
    filter (fun entry => negb (String.eqb (Shared.price entry) price)) existing in
  if Num.gtb (parseFloat quantity) 0
  then (result ++ [{| Shared.price := price; Shared.quantity := quantity |}])%list
  else result.

Definition applyDeltas (side : list OrderBookEntry)
  (updates : option (list (string * string))) : list OrderBookEntry :=
  match updates with
  | Some l => fold_left (fun acc pq => updateOrderBookSide acc (fst pq) (snd pq)) l side
  | None => side
  end.

Definition descending (x y : OrderBookEntry) : float :=
  parseFloat (price y) - parseFloat (price x).

Definition ascending (x y : OrderBookEntry) : float :=
  parseFloat (price x) - parseFloat (price y).

(** [handleOrderBookUpdate]: the books of the client after the message and
    the book emitted as an [orderbook] event, if any. *)
Definition handleOrderBookUpdate (orderBooks : JsMap.t OrderBook) (now : Z)
  (data : BookData) (channelName pair : string)
  : JsMap.t OrderBook * option OrderBook :=
  if negb (String.eqb channelName "book-100") then (orderBooks, None)
  else
    let symbol := Str.replaceFirst "XBT" "BTC" pair in
    match JsMap.get orderBooks symbol with
    | None => (orderBooks, None)
    | Some existingOrderBook =>
        let '(updatedBids, updatedAsks) :=
          match bs data, as_ data with
          | Some snapshotBids, Some snapshotAsks =>
              (map Binance.toEntry snapshotBids, map Binance.toEntry snapshotAsks)
          | _, _ =>
              (applyDeltas (bids existingOrderBook) (b data),
               applyDeltas (asks existingOrderBook) (a data))
          end in
        let updatedOrderBook :=
          withSides existingOrderBook
            (JsArray.sort descending updatedBids)
            (JsArray.sort ascending updatedAsks)
            now (lastUpdateId existingOrderBook) in
        (JsMap.set orderBooks symbol updatedOrderBook, Some updatedOrderBook)
    end.

Definition handleMessage (orderBooks : JsMap.t OrderBook) (now : Z)
  (message : Message) : JsMap.t OrderBook * option OrderBook :=
  match message with
  | BookMessage _ data channelName pairName =>
      handleOrderBookUpdate orderBooks now data channelName pairName
  | EventMessage | OtherArray => (orderBooks, None)
  end.

End WithParseFloat.

End Kraken.

(* ================================================================== *)
(** ** The Coinbase client: [CoinbaseWebSocketClient] *)
(* ================================================================== *)

Module Coinbase.

Import Shared.
Local Open Scope float_scope.

Inductive Message :=
| Snapshot (product_id : string) (bids asks : list (string * string))
           (time : option string)
| L2Update (product_id time : string) (changes : list (string * string * string))
| Ticker (product_id time best_bid best_ask price : string)
| Subscriptions
| Unknown.

(** The book that [initializeOrderBooks] stores for one symbol
    ([slice(0, 50)]). *)
Definition snapshotBook (symbol : string) (bids asks : list (string * string))
  (now : Z) : OrderBook :=
  {| Shared.symbol := symbol; exchange := "coinbase";
     Shared.bids := map Binance.toEntry (firstn 50 bids);
     Shared.asks := map Binance.toEntry (firstn 50 asks);
     timestamp := now;
     lastUpdateId := None |}.

(** [side[0].price = p] when the side has a first level. *)
Definition setTopPrice (side : list OrderBookEntry) (p : string)
  : list OrderBookEntry :=
  match side with
  | [] => []
  | top :: rest => {| price := p; quantity := quantity top |} :: rest
  end.

Section WithBuiltins.

Variable parseFloat : string -> float.

(** [new Date(text).getTime()] for the time stamps of the feed. *)
Variable dateToMs : string -> Z.

Definition handleSnapshot (orderBooks : JsMap.t OrderBook) (now : Z)
  (product_id : string) (snapshotBids snapshotAsks : list (string * string))
  (time : option string) : JsMap.t OrderBook * option OrderBook :=
  let orderBook :=
    {| symbol := product_id; exchange := "coinbase";
       bids := map Binance.toEntry snapshotBids;
       asks := map Binance.toEntry snapshotAsks;
       timestamp :=
         match time with
         | Some text => if Str.truthy text then dateToMs text else now
         | None => now
         end;
       lastUpdateId := None |} in
  (JsMap.set orderBooks product_id orderBook, Some orderBook).

(** [handleTicker] writes into the stored book itself: the object under
    the key is the one that changes and the one that is emitted. *)
Definition handleTicker (orderBooks : JsMap.t OrderBook)
  (product_id time best_bid best_ask : string)
  : JsMap.t OrderBook * option OrderBook :=
  match JsMap.get orderBooks product_id with
  | None => (orderBooks, None)
  | Some existingOrderBook =>
      let existingOrderBook :=
        withSides existingOrderBook
          (setTopPrice (bids existingOrderBook) best_bid)
          (setTopPrice (asks existingOrderBook) best_ask)
          (dateToMs time) (lastUpdateId existingOrderBook) in
      (JsMap.set orderBooks product_id existingOrderBook, Some existingOrderBook)
  end.

Definition updateOrderBookSide (existing : list OrderBookEntry)
  (price quantity : string) : list OrderBookEntry :=
  let result :=
    filter (fun entry => negb (String.eqb (Shared.price entry) price)) existing in
  if Num.gtb (parseFloat quantity) 0
  then (result ++ [{| Shared.price := price; Shared.quantity := quantity |}])%list
  else result.

Definition applyChange (sides : list OrderBookEntry * list OrderBookEntry)
  (change : string * string * string)
  : list OrderBookEntry * list OrderBookEntry :=
  let '(side, price, size) := change in
  let '(updatedBids, updatedAsks) := sides in
  if String.eqb side "buy"
  then (updateOrderBookSide updatedBids price size, updatedAsks)
  else if String.eqb side "sell"
  then (updatedBids, updateOrderBookSide updatedAsks price size)
  else (updatedBids, updatedAsks).

Definition descending (x y : OrderBookEntry) : float :=
  parseFloat (price y) - parseFloat (price x).

Definition ascending (x y : OrderBookEntry) : float :=
  parseFloat (price x) - parseFloat (price y).

Definition handleL2Update (orderBooks : JsMap.t OrderBook)
  (product_id time : string) (changes : list (string * string * string))
  : JsMap.t OrderBook * option OrderBook :=
  match JsMap.get orderBooks product_id with
  | None => (orderBooks, None)
  | Some existingOrderBook =>
      let '(updatedBids, updatedAsks) :=
        fold_left applyChange changes
          (bids existingOrderBook, asks existingOrderBook) in
      let updatedOrderBook :=
        withSides existingOrderBook
          (JsArray.sort descending updatedBids)
          (JsArray.sort ascending updatedAsks)
          (dateToMs time) (lastUpdateId existingOrderBook) in
      (JsMap.set orderBooks product_id updatedOrderBook, Some updatedOrderBook)
  end.

Definition handleMessage (orderBooks : JsMap.t OrderBook) (now : Z)
  (message : Message) : JsMap.t OrderBook * option OrderBook :=
  match message with
  | Snapshot product_id snapshotBids snapshotAsks time =>
      handleSnapshot orderBooks now product_id snapshotBids snapshotAsks time
  | L2Update product_id time changes =>
      handleL2Update orderBooks product_id time changes
  | Ticker product_id time best_bid best_ask _ =>
      handleTicker orderBooks product_id time best_bid best_ask
  | Subscriptions | Unknown => (orderBooks, None)
  end.

End WithBuiltins.

End Coinbase.

(* ================================================================== *)
(** ** The Gemini client: [GeminiWebSocketClient] *)
(* ================================================================== *)

Module Gemini.

Import Shared.
Local Open Scope float_scope.

Record ChangeEvent := {
  eventType : string;
  side : string;
  price : string;
  remaining : string
}.

Record Update := {
  type : string;
  events : list ChangeEvent;
  timestampms : Z
}.

(** The key and the symbol of a stored book: the configured symbol in
    upper case. *)
Definition bookSymbol (symbol : string) : string := Str.toUpperCase symbol.

(** The book that [initializeOrderBooks] stores for one symbol
    ([slice(0, 50)]). *)
Definition snapshotBook (symbol : string) (bids asks : list (string * string))
  (now : Z) : OrderBook :=
  {| Shared.symbol := bookSymbol symbol; exchange := "gemini";
     Shared.bids := map Binance.toEntry (firstn 50 bids);
     Shared.asks := map Binance.toEntry (firstn 50 asks);
     timestamp := now;
     lastUpdateId := None |}.

Section WithParseFloat.

Variable parseFloat : string -> float.

Definition updateOrderBookSide (existing : list OrderBookEntry)
  (price quantity : string) : list OrderBookEntry :=
  let result :=
    filter (fun entry => negb (String.eqb (Shared.price entry) price)) existing in
  if Num.gtb (parseFloat quantity) 0
  then (result ++ [{| Shared.price := price; Shared.quantity := quantity |}])%list
  else result.

Definition applyEvent (sides : list OrderBookEntry * list OrderBookEntry)
  (event : ChangeEvent) : list OrderBookEntry * list OrderBookEntry :=
  let '(updatedBids, updatedAsks) := sides in
  if String.eqb (eventType event) "change" then
    if String.eqb (side event) "bid"
    then (updateOrderBookSide updatedBids (price event) (remaining event), updatedAsks)
    else if String.eqb (side event) "ask"
    then (updatedBids, updateOrderBookSide updatedAsks (price event) (remaining event))
    else (updatedBids, updatedAsks)
  else (updatedBids, updatedAsks).

Definition descending (x y : OrderBookEntry) : float :=
  parseFloat (Shared.price y) - parseFloat (Shared.price x).

Definition ascending (x y : OrderBookEntry) : float :=
  parseFloat (Shared.price x) - parseFloat (Shared.price y).

Definition handleOrderBookUpdate (orderBooks : JsMap.t OrderBook)
  (update : Update) (symbol : string) : JsMap.t OrderBook * option OrderBook :=
  let upperSymbol := Str.toUpperCase symbol in
  match JsMap.get orderBooks upperSymbol with
  | None => (orderBooks, None)
  | Some existingOrderBook =>
      let '(updatedBids, updatedAsks) :=
        fold_left applyEvent (events update)
          (bids existingOrderBook, asks existingOrderBook) in
      let updatedOrderBook :=
        withSides existingOrderBook
          (JsArray.sort descending updatedBids)
          (JsArray.sort ascending updatedAsks)
          (timestampms update) (lastUpdateId existingOrderBook) in
      (JsMap.set orderBooks upperSymbol updatedOrderBook, Some updatedOrderBook)
  end.

(** [handleMessage] of the socket opened for [symbol]. *)
Definition handleMessage (orderBooks : JsMap.t OrderBook)
  (message : Update) (symbol : string) : JsMap.t OrderBook * option OrderBook :=
  if String.eqb (type message) "update"
  then handleOrderBookUpdate orderBooks message symbol
  else (orderBooks, None).

End WithParseFloat.

(** *** Connecting and reconnecting *)

Inductive Effect :=
| OpenSocket (symbol : string)
| EmitConnected
| EmitError (message : string)
| SetTimeout (delayMs : Z)
| ConsoleError (line : string).

Record Client := {
  symbols : list string;
  reconnectAttempts : Z;
  reconnectTimeout : option Z;
  (** the symbol of the socket kept for [disconnect] *)
  ws : option string
}.

Definition maxReconnectAttempts : Z := 5.

Definition create (symbols : list string) : Client :=
  {| symbols := symbols; reconnectAttempts := 0; reconnectTimeout := None;
     ws := None |}.

Definition handleReconnect (c : Client) : Client * list Effect :=
  if (maxReconnectAttempts <=? reconnectAttempts c)%Z then
    (c, [ConsoleError "[Gemini] Max reconnection attempts reached";
         EmitError "Max reconnection attempts reached"])
  else
    let attempts := (reconnectAttempts c + 1)%Z in
    let delay := Z.min (1000 * 2 ^ attempts) 30000 in
    ({| symbols := symbols c; reconnectAttempts := attempts;
        reconnectTimeout := Some delay; ws := ws c |},
     [SetTimeout delay]).

(** [connect].  The snapshots are fetched inside a [try] of their own, and
    a socket reports its failures through events, so what can throw here is
    the construction of a socket; [socketThrows] says whether it does.
    The counter is reset as soon as the sockets are created, before any of
    them has opened. *)
Definition connect (c : Client) (socketThrows : bool) : Client * list Effect :=
  if socketThrows then
    let '(c', effects) := handleReconnect c in
    (c', (ConsoleError "[Gemini] Connection failed" :: effects)%list)
  else
    ({| symbols := symbols c; reconnectAttempts := 0;
        reconnectTimeout := reconnectTimeout c;
        ws := match ws c with
              | Some first => Some first
              | None => hd_error (symbols c)
              end |},
     (map OpenSocket (symbols c) ++ [EmitConnected])%list).

(** A socket closes: the [close] handler. *)
Definition onClose (c : Client) : Client * list Effect := handleReconnect c.

(** [n] times in a row: a socket closes, the timer fires and [connect]
    runs without throwing. *)
Fixpoint closeAndReconnect (n : nat) (c : Client) : Client * list (list Effect) :=
  match n with
  | O => (c, [])
  | S n' =>
      let '(c1, e1) := onClose c in
      let '(c2, e2) := connect c1 false in
      let '(c3, rest) := closeAndReconnect n' c2 in
      (c3, (e1 ++ e2)%list :: rest)
  end.

End Gemini.

(* ================================================================== *)
(** ** The KuCoin client: [KuCoinWebSocketClient] *)
(* ================================================================== *)

Module KuCoin.

Import Shared.
Local Open Scope float_scope.

(** The client as the TypeScript source has it.  (The compiled file of the
    repository is an older build: it reads the levels from [data.bids] and
    [data.asks] and applies them with the same [updateOrderBookSide].)

    [changes]: each entry is [[price, size, sequence]]; a side may be
    missing. *)
Record Changes := {
  asks : option (list (string * string * string));
  bids : option (list (string * string * string))
}.

Record UpdateData := {
  symbol : string;
  sequenceStart : Z;
  sequenceEnd : Z;
  time : Z;
  changes : Changes
}.

Record Message := {
  type : string;
  topic : string;
  data : UpdateData
}.

(** The book that [initializeOrderBooks] stores for one symbol
    ([slice(0, 50)]). *)
Definition snapshotBook (symbol : string) (bids asks : list (string * string))
  (now : Z) : OrderBook :=
  {| Shared.symbol := symbol; exchange := "kucoin";
     Shared.bids := map Binance.toEntry (firstn 50 bids);
     Shared.asks := map Binance.toEntry (firstn 50 asks);
     timestamp := now;
     lastUpdateId := None |}.

Section WithParseFloat.

Variable parseFloat : string -> float.

Definition updateOrderBookSide (existing : list OrderBookEntry)
  (price quantity : string) : list OrderBookEntry :=
  let result :=
    filter (fun entry => negb (String.eqb (Shared.price entry) price)) existing in
  if Num.gtb (parseFloat quantity) 0
  then (result ++ [{| Shared.price := price; Shared.quantity := quantity |}])%list
  else result.

(** [changes.forEach(([price, quantity]) => ...)] on a side that is
    there. *)
Definition applyChanges (side : list OrderBookEntry)
  (changes : option (list (string * string * string))) : list OrderBookEntry :=
  match changes with
  | Some l =>
      fold_left
        (fun acc change => updateOrderBookSide acc (fst (fst change)) (snd (fst change)))
        l side
  | None => side
  end.

Definition descending (x y : OrderBookEntry) : float :=
  parseFloat (price y) - parseFloat (price x).

Definition ascending (x y : OrderBookEntry) : float :=
  parseFloat (price x) - parseFloat (price y).

(** [handleOrderBookUpdate]; the time stamp is [update.data.time || Date.now()]. *)
Definition handleOrderBookUpdate (orderBooks : JsMap.t OrderBook) (now : Z)
  (update : Message) : JsMap.t OrderBook * option OrderBook :=
  let symbol := symbol (data update) in
  match JsMap.get orderBooks symbol with
  | None => (orderBooks, None)
  | Some existingOrderBook =>
      let updatedBids :=
        applyChanges (Shared.bids existingOrderBook) (bids (changes (data update))) in
      let updatedAsks :=
        applyChanges (Shared.asks existingOrderBook) (asks (changes (data update))) in
      let updatedOrderBook :=
        withSides existingOrderBook
          (JsArray.sort descending updatedBids)
          (JsArray.sort ascending updatedAsks)
          (if (time (data update) =? 0)%Z then now else time (data update))
          (lastUpdateId existingOrderBook) in
      (JsMap.set orderBooks symbol updatedOrderBook, Some updatedOrderBook)
  end.

(** [handleMessage]: only the messages of a level-2 topic change a book;
    [pong], [welcome] and [ack] do not. *)
Definition handleMessage (orderBooks : JsMap.t OrderBook) (now : Z)
  (message : Message) : JsMap.t OrderBook * option OrderBook :=
  if String.eqb (type message) "message"
     && Str.truthy (topic message)
     && Str.startsWith (topic message) "/market/level2:"
  then handleOrderBookUpdate orderBooks now message
  else (orderBooks, None).

End WithParseFloat.

End KuCoin.

(* ================================================================== *)
(** ** The registry of discovered pairs: [SymbolNormalizer] *)
(* ================================================================== *)

Module SymbolNormalizer.

Import BaseExchange.
Local Open Scope float_scope.

Record NormalizedPair := {
  pairBaseAsset : string;
  pairQuoteAsset : string;
  pairNormalizedSymbol : string;
  exchangeSymbols : JsMap.t string
}.

(** [normalizedPairs]. *)
Definition t := JsMap.t NormalizedPair.

Definition assetMappings : JsMap.t string :=
  [("XBT", "BTC"); ("USDT", "USD"); ("USDC", "USD")].

Definition quoteAssetPriority : JsMap.t float :=
  [("USD", 10); ("USDT", 9); ("USDC", 8); ("EUR", 7); ("BTC", 6); ("ETH", 5)].

Definition normalizeAsset (asset : string) : string :=
  match JsMap.get assetMappings (Str.toUpperCase asset) with
  | Some mapped => if Str.truthy mapped then mapped else Str.toUpperCase asset
  | None => Str.toUpperCase asset
  end.

Definition withExchangeSymbol (p : NormalizedPair) (exchangeId symbol : string)
  : NormalizedPair :=
  {| pairBaseAsset := pairBaseAsset p; pairQuoteAsset := pairQuoteAsset p;
     pairNormalizedSymbol := pairNormalizedSymbol p;
     exchangeSymbols := JsMap.set (exchangeSymbols p) exchangeId symbol |}.

(** One turn of the loop of [addTradingPairs].  The pair object found or
    created under the normalised symbol is the one whose [exchangeSymbols]
    is written, so the entry keeps its place in the map. *)
Definition addTradingPair (exchangeId : string) (normalizedPairs : t)
  (tradingPair : TradingPair) : t :=
  if negb (active tradingPair) then normalizedPairs
  else
    let normalizedBase := normalizeAsset (baseAsset tradingPair) in
    let normalizedQuote := normalizeAsset (quoteAsset tradingPair) in
    let normalizedSymbol := normalizedBase ++ normalizedQuote in
    let normalizedPair :=
      match JsMap.get normalizedPairs normalizedSymbol with
      | Some found => found
      | None =>
          {| pairBaseAsset := normalizedBase; pairQuoteAsset := normalizedQuote;
             pairNormalizedSymbol := normalizedSymbol;
             exchangeSymbols := JsMap.empty |}
      end in
    JsMap.set normalizedPairs normalizedSymbol
      (withExchangeSymbol normalizedPair exchangeId (symbol tradingPair)).

Definition addTradingPairs (normalizedPairs : t) (exchangeId : string)
  (tradingPairs : list TradingPair) : t :=
  fold_left (addTradingPair exchangeId) tradingPairs normalizedPairs.

Definition extractQuoteAsset (normalizedSymbol : string) : string :=
  match find (Str.endsWith normalizedSymbol)
             ["USD"; "USDT"; "USDC"; "EUR"; "BTC"; "ETH"] with
  | Some quote => quote
  | None => "UNKNOWN"
  end.

Definition priorityOf (quote : string) : float :=
  match JsMap.get quoteAssetPriority quote with
  | Some priority => Num.orElse priority 0
  | None => 0
  end.

Section WithLocaleCompare.

(** [a.localeCompare(b)], a builtin whose order depends on the locale. *)
Variable localeCompare : string -> string -> float.

Definition compareSymbols (a b : string) : float :=
  let aPriority := priorityOf (extractQuoteAsset a) in
  let bPriority := priorityOf (extractQuoteAsset b) in
  if negb (aPriority =? bPriority) then bPriority - aPriority
  else localeCompare a b.

Definition getAvailableSymbols (normalizedPairs : t) (minExchanges : Z)
  : list string :=
  JsArray.sort compareSymbols
    (map pairNormalizedSymbol
       (filter
          (fun normalizedPair =>
             (minExchanges <=? Z.of_nat (JsMap.size (exchangeSymbols normalizedPair)))%Z)
          (JsMap.values normalizedPairs))).

End WithLocaleCompare.

(** [pair?.exchangeSymbols.get(exchangeId) || null]. *)
Definition getExchangeSymbol (normalizedPairs : t)
  (normalizedSymbol exchangeId : string) : option string :=
  match JsMap.get normalizedPairs normalizedSymbol with
  | Some normalizedPair =>
      match JsMap.get (exchangeSymbols normalizedPair) exchangeId with
      | Some symbol => if Str.truthy symbol then Some symbol else None
      | None => None
      end
  | None => None
  end.

Definition getExchangesForSymbol (normalizedPairs : t) (normalizedSymbol : string)
  : list string :=
  match JsMap.get normalizedPairs normalizedSymbol with
  | Some normalizedPair => JsMap.keys (exchangeSymbols normalizedPair)
  | None => []
  end.

Definition getNormalizedSymbol (normalizedPairs : t)
  (exchangeId exchangeSymbol : string) : option string :=
  option_map fst
    (find
       (fun entry =>
          match JsMap.get (exchangeSymbols (snd entry)) exchangeId with
          | Some symbol => String.eqb symbol exchangeSymbol
          | None => false
          end)
       normalizedPairs).

Definition getAssetGroups (normalizedPairs : t) : JsMap.t (list string) :=
  fold_left
    (fun groups normalizedPair =>
       if (2 <=? JsMap.size (exchangeSymbols normalizedPair))%nat then
         let existing :=
           match JsMap.get groups (pairBaseAsset normalizedPair) with
           | Some l => l
           | None => []
           end in
         JsMap.set groups (pairBaseAsset normalizedPair)
           (existing ++ [pairNormalizedSymbol normalizedPair])%list
       else groups)
    (JsMap.values normalizedPairs) JsMap.empty.

Record Stats := {
  totalNormalizedPairs : nat;
  multiExchangePairs : nat;
  exchangeCoverage : JsMap.t nat
}.

Definition countVenue (coverage : JsMap.t nat) (exchangeId : string) : JsMap.t nat :=
  JsMap.set coverage exchangeId
    (match JsMap.get coverage exchangeId with Some n => n | None => 0%nat end + 1)%nat.

Definition getStats (normalizedPairs : t) : Stats :=
  let '(multi, coverage) :=
    fold_left
      (fun acc normalizedPair =>
         let '(multi, coverage) := acc in
         (if (2 <=? JsMap.size (exchangeSymbols normalizedPair))%nat then S multi else multi,
          fold_left countVenue (JsMap.keys (exchangeSymbols normalizedPair)) coverage))
      (JsMap.values normalizedPairs) (0%nat, JsMap.empty) in
  {| totalNormalizedPairs := JsMap.size normalizedPairs;
     multiExchangePairs := multi;
     exchangeCoverage := coverage |}.

Definition clear (normalizedPairs : t) : t := JsMap.empty.

End SymbolNormalizer.

(* ================================================================== *)
(** ** Discovery of trading pairs: [SymbolDiscoveryService] *)
(* ================================================================== *)

Module SymbolDiscovery.

Import BaseExchange.
Local Open Scope float_scope.

Record DiscoveryConfig := {
  enabledExchanges : list string;
  minExchangesPerSymbol : Z;
  maxSymbolsPerExchange : Z;
  preferredQuoteAssets : list string;
  preferredBaseAssets : list string
}.

Definition quotePreferred (config : DiscoveryConfig) (tradingPair : TradingPair) : bool :=
  existsb
    (fun quote =>
       String.eqb (quoteAsset tradingPair) quote
       || (String.eqb quote "USD"
           && existsb (String.eqb (quoteAsset tradingPair)) ["USDT"; "USDC"]))
    (preferredQuoteAssets config).

Definition basePreferred (config : DiscoveryConfig) (tradingPair : TradingPair) : bool :=
  existsb (String.eqb (baseAsset tradingPair)) (preferredBaseAssets config).

Definition filterTradingPairs (config : DiscoveryConfig) (pairs : list TradingPair)
  : list TradingPair :=
  let filtered := filter active pairs in
  let filtered :=
    if (0 <? List.length (preferredQuoteAssets config))%nat
    then filter (quotePreferred config) filtered else filtered in
  let filtered :=
    if (0 <? List.length (preferredBaseAssets config))%nat
    then filter (basePreferred config) filtered else filtered in
  if (0 <? maxSymbolsPerExchange config)%Z
  then firstn (Z.to_nat (maxSymbolsPerExchange config)) filtered
  else filtered.

Record Scored := { scoredSymbol : string; score : Z; exchangeCount : nat }.

Definition scoreOf (normalizer : SymbolNormalizer.t) (symbol : string) : Scored :=
  let exchanges := SymbolNormalizer.getExchangesForSymbol normalizer symbol in
  let score := (Z.of_nat (List.length exchanges) * 10)%Z in
  let score :=
    if Str.endsWith symbol "USD" || Str.endsWith symbol "USDT"
    then (score + 20)%Z else score in
  let score :=
    if Str.startsWith symbol "BTC" || Str.startsWith symbol "ETH"
    then (score + 15)%Z
    else if existsb (Str.startsWith symbol) ["SOL"; "ADA"; "MATIC"; "AVAX"]
    then (score + 10)%Z else score in
  {| scoredSymbol := symbol; score := score;
     exchangeCount := List.length exchanges |}.

Definition byScore (a b : Scored) : float := Num.ofInt (score b - score a).

Definition generateRecommendations (normalizer : SymbolNormalizer.t)
  (availableSymbols : list string) : list string :=
  map scoredSymbol
    (firstn 20 (JsArray.sort byScore (map (scoreOf normalizer) availableSymbols))).

Section WithLocaleCompare.

Variable localeCompare : string -> string -> float.

(** [slice(0, maxSymbols)]: a negative end counts from the end of the
    array. *)
Definition slice0 {A : Type} (l : list A) (n : Z) : list A :=
  if (n <? 0)%Z then firstn (List.length l - Z.to_nat (- n)) l
  else firstn (Z.to_nat n) l.

Definition getArbitrageSymbols (normalizer : SymbolNormalizer.t) (maxSymbols : Z)
  : list string :=
  let availableSymbols :=
    SymbolNormalizer.getAvailableSymbols localeCompare normalizer 2 in
  let recommendations := generateRecommendations normalizer availableSymbols in
  let filtered :=
    filter
      (fun symbol =>
         (2 <=? List.length
                  (SymbolNormalizer.getExchangesForSymbol normalizer symbol))%nat)
      recommendations in
  slice0 filtered maxSymbols.

End WithLocaleCompare.

End SymbolDiscovery.

(* ================================================================== *)
(** ** Configuration of the manager: [DynamicMarketDataManager] *)
(* ================================================================== *)

Module Configuration.

Local Open Scope float_scope.

Record BotConfig := {
  exchanges : list string;
  symbols : list string;
  minProfitPercent : float;
  tradeAmount : float;
  isActive : bool
}.

Definition defaultConfig : BotConfig :=
  {| exchanges := ["binance"; "coinbase"; "kraken"];
     symbols := ["BTCUSD"; "ETHUSD"];
     minProfitPercent := 0.1; tradeAmount := 0.01; isActive := true |}.

(** What the manager holds of a venue client: the class it instantiated and
    the native symbols it passed to the constructor. *)
Record Client := { venue : string; clientSymbols : list string }.

Record t := {
  currentConfig : BotConfig;
  opportunityDetector : Detector.t;
  exchangeClients : JsMap.t Client;
  (** the venues whose client was told to disconnect, in order *)
  disconnected : list string;
  (** the lines written to the console, without their leading pictograph *)
  console : list string
}.

Definition create : t :=
  {| currentConfig := defaultConfig; opportunityDetector := Detector.create;
     exchangeClients := JsMap.empty; disconnected := []; console := [] |}.

Definition getSymbolsForExchange (config : BotConfig) (exchangeId : string)
  : list string :=
  flat_map
    (fun configuredSymbol =>
       match SymbolMapper.toExchangeSymbol configuredSymbol exchangeId with
       | Some exchangeSymbol =>
           if Str.truthy exchangeSymbol then [exchangeSymbol] else []
       | None => []
       end)
    (symbols config).

(** The [switch] of [createExchangeClient]. *)
Definition createExchangeClient (config : BotConfig) (exchangeId : string)
  : option Client :=
  let symbols := getSymbolsForExchange config exchangeId in
  if existsb (String.eqb exchangeId)
       ["binance"; "coinbase"; "kraken"; "bybit"; "kucoin"; "gemini"]
  then Some {| venue := exchangeId; clientSymbols := symbols |}
  else None.

(** [startExchangeConnections], up to the calls of [connect], which reach
    the network. *)
Definition startExchangeConnections (m : t) : t :=
  fold_left
    (fun m exchangeId =>
       if negb (isActive (currentConfig m)) then m
       else
         match createExchangeClient (currentConfig m) exchangeId with
         | Some client =>
             {| currentConfig := currentConfig m;
                opportunityDetector := opportunityDetector m;
                exchangeClients := JsMap.set (exchangeClients m) exchangeId client;
                disconnected := disconnected m;
                console := console m |}
         | None =>
             {| currentConfig := currentConfig m;
                opportunityDetector := opportunityDetector m;
                exchangeClients := exchangeClients m;
                disconnected := disconnected m;
                console := (console m ++ [("Unknown exchange: " ++ exchangeId)%string])%list |}
         end)
    (exchanges (currentConfig m)) m.

Definition restartExchangeConnections (m : t) : t :=
  startExchangeConnections
    {| currentConfig := currentConfig m;
       opportunityDetector := opportunityDetector m;
       exchangeClients := JsMap.empty;
       disconnected := (disconnected m ++ JsMap.keys (exchangeClients m))%list;
       console := console m |}.

(** [JSON.stringify(old.sort()) !== JSON.stringify(new.sort())]. *)
Definition listChanged (old new : list string) : bool :=
  negb (Str.sameList (Str.sort old) (Str.sort new)).

(** The configuration read from the cache, if there is one, replaces the
    current one; the detector receives its threshold and its trade
    amount. *)
Definition loadConfiguration (m : t) (stored : option BotConfig) : t :=
  let config := match stored with Some c => c | None => currentConfig m end in
  {| currentConfig := config;
     opportunityDetector :=
       Detector.updateTradeAmount
         (Detector.updateConfig (opportunityDetector m)
            {| Detector.newMinProfitPercent := Some (minProfitPercent config);
               Detector.newSlippageBuffer := None;
               Detector.newMaxSpreadAge := None |})
         (tradeAmount config);
     exchangeClients := exchangeClients m;
     disconnected := disconnected m;
     console := console m |}.

(** [updateConfiguration].  The new configuration object becomes the
    current one before its two lists are sorted for the comparison, and
    [sort] works in place: the lists of the current configuration are the
    sorted ones afterwards. *)
Definition updateConfiguration (m : t) (newConfig : BotConfig) : t :=
  let oldConfig := currentConfig m in
  let detector :=
    Detector.updateTradeAmount
      (Detector.updateConfig (opportunityDetector m)
         {| Detector.newMinProfitPercent := Some (minProfitPercent newConfig);
            Detector.newSlippageBuffer := None;
            Detector.newMaxSpreadAge := None |})
      (tradeAmount newConfig) in
  let exchangesChanged := listChanged (exchanges oldConfig) (exchanges newConfig) in
  let symbolsChanged := listChanged (symbols oldConfig) (symbols newConfig) in
  let m1 :=
    {| currentConfig :=
         {| exchanges := Str.sort (exchanges newConfig);
            symbols := Str.sort (symbols newConfig);
            minProfitPercent := minProfitPercent newConfig;
            tradeAmount := tradeAmount newConfig;
            isActive := isActive newConfig |};
       opportunityDetector := detector;
       exchangeClients := exchangeClients m;
       disconnected := disconnected m;
       console := console m |} in
  if exchangesChanged || symbolsChanged then
    restartExchangeConnections
      {| currentConfig := currentConfig m1;
         opportunityDetector := opportunityDetector m1;
         exchangeClients := exchangeClients m1;
         disconnected := disconnected m1;
         console :=
           (console m1 ++ ["Configuration changed, restarting connections..."])%list |}
  else m1.

End Configuration.

(* ================================================================== *)
(** * Properties *)
(* ================================================================== *)

(** Books used by the concrete evaluations. *)
Definition level (p q : string) : Shared.OrderBookEntry :=
  {| Shared.price := p; Shared.quantity := q |}.

Definition book (venue sym : string) (bid ask : string) (ts : Z) : Shared.OrderBook :=
  {| Shared.symbol := sym; Shared.exchange := venue;
     Shared.bids := [level bid "1"]; Shared.asks := [level ask "1"];
     Shared.timestamp := ts; Shared.lastUpdateId := None |}.

Definition withBooks (d : Detector.t) (l : list Shared.OrderBook) : Detector.t :=
  fold_left
    (fun d ob =>
       {| Detector.config := Detector.config d;
          Detector.tradeAmount := Detector.tradeAmount d;
          Detector.orderBooks :=
            JsMap.set (Detector.orderBooks d) (Detector.orderKey ob) ob;
          Detector.lastOpportunityCheck := Detector.lastOpportunityCheck d |})
    l d.

(* ------------------------------------------------------------------ *)
(** ** Defaults of the detector (C4) *)
(* ------------------------------------------------------------------ *)

Section DetectorDefaults.

Import Detector.
Local Open Scope float_scope.

Lemma float_neq_by (f : float -> bool) (x y : float) :
  f x <> f y -> x <> y.
Proof. intros H E. apply H. now rewrite E. Qed.

(** C4, as stated, fails: a detector constructed without configuration does
    not have [min_profit_percent = 0.1] and [slippage_buffer = 0.1]. *)
Lemma defaults_not_as_specified :
  ~ (minProfitPercent (getConfig create) = 0.1
     /\ slippageBuffer (getConfig create) = 0.1
     /\ maxSpreadAge (getConfig create) = 5000%Z
     /\ checkIntervalMs = 1000%Z
     /\ tradeAmount create = 1000
     /\ retentionCount = 1000%Z).
Proof.
  intros [Hmin _]. revert Hmin.
  apply (float_neq_by (fun x => x <? 0)). vm_compute. discriminate.
Qed.

(** C4, amended: the detector starts with [min_profit_percent = -0.5],
    [slippage_buffer = 0], [max_spread_age_ms = 5000] and
    [trade_amount_usd = 1000]; the tick interval (1000 ms) and the retention
    count (1000) are fixed. *)
Theorem detector_defaults :
  minProfitPercent (getConfig create) = -0.5
  /\ slippageBuffer (getConfig create) = 0
  /\ maxSpreadAge (getConfig create) = 5000%Z
  /\ checkIntervalMs = 1000%Z
  /\ tradeAmount create = 1000
  /\ retentionCount = 1000%Z
  /\ orderBooks create = JsMap.empty
  /\ lastOpportunityCheck create = 0%Z.
Proof. repeat split. Qed.

End DetectorDefaults.

(* ------------------------------------------------------------------ *)
(** ** Reconnect back-off (C5) *)
(* ------------------------------------------------------------------ *)

Section GeminiRounds.

Import Gemini.

(** What one round of "a socket closes, the timer fires, [connect] runs"
    does when the counter stood at zero. *)
Definition oneRound (c : Client) : list Effect :=
  ([SetTimeout 2000] ++ map OpenSocket (symbols c) ++ [EmitConnected])%list.

Lemma closeAndReconnect_step (c : Client) :
  reconnectAttempts c = 0%Z ->
  exists c',
    (let '(c1, e1) := onClose c in
     let '(c2, e2) := connect c1 false in
     (c2, (e1 ++ e2)%list)) = (c', oneRound c)
    /\ reconnectAttempts c' = 0%Z /\ symbols c' = symbols c.
Proof.
  intros H. unfold onClose, handleReconnect, maxReconnectAttempts. rewrite H.
  cbn. eexists. split; [reflexivity|]. cbn. auto.
Qed.


End GeminiRounds.

Section Reconnect.

Import BaseExchange.








End Reconnect.

(* ------------------------------------------------------------------ *)
(** ** Symbol round trip (C7) and symbol grouping in the detector (C2) *)
(* ------------------------------------------------------------------ *)

Section Symbols.

Import SymbolMapper.

(** C7 at the failing input: the canonical symbol [ETHBNB] is parsed by the
    registry ([BNB] is a quote asset of [parseNormalizedSymbol]) and gets a
    native spelling on every venue, but on the venues without a separator
    (Binance, Bybit, Gemini) the way back finds no quote asset, because
    [parseExchangeSymbol] tries a list without [BNB]; on the venues with a
    separator the round trip succeeds. *)
Theorem roundtrip_fails_for_BNB_quote :
  parseNormalizedSymbol "ETHBNB" = Some ("ETH", "BNB")
  /\ map (toExchangeSymbol "ETHBNB") venues =
     [Some "ETHBNB"; Some "ETH-BNB"; Some "ETH/BNB";
      Some "ETHBNB"; Some "ETH-BNB"; Some "ethbnb"]
  /\ fromExchangeSymbol "ETHBNB" "binance" = None
  /\ fromExchangeSymbol "ETHBNB" "bybit" = None
  /\ fromExchangeSymbol "ethbnb" "gemini" = None
  /\ fromExchangeSymbol "ETH-BNB" "coinbase" = Some "ETHBNB"
  /\ fromExchangeSymbol "ETH/BNB" "kraken" = Some "ETHBNB"
  /\ fromExchangeSymbol "ETH-BNB" "kucoin" = Some "ETHBNB".
Proof. vm_compute. repeat split. Qed.

Definition krakenBTC : Shared.OrderBook := book "kraken" "XBT/USD" "10200" "10201" 1000.
Definition binanceBTC : Shared.OrderBook := book "binance" "BTCUSDT" "9999" "10000" 1000.
Definition geminiBTC : Shared.OrderBook := book "gemini" "btcusd" "10200" "10201" 1000.

(** C2 at the failing input: the detector holds a Binance book for
    [BTCUSDT] and a Kraken book for [XBT/USD] (the native spelling the
    registry gives the manager for [BTCUSD]).  The registry maps both to
    [BTCUSD]; the detector's own [normalizeSymbol] only removes dashes and
    rewrites [USDT], so the Kraken book (and a Gemini book, in lower case)
    is grouped under its native spelling and the scan sees no pair, although
    the same prices under a Coinbase-style symbol are detected. *)
Theorem kraken_and_binance_books_not_grouped :
  toExchangeSymbol "BTCUSD" "kraken" = Some "XBT/USD"
  /\ fromExchangeSymbol "XBT/USD" "kraken" = Some "BTCUSD"
  /\ fromExchangeSymbol "BTCUSDT" "binance" = Some "BTCUSD"
  /\ Detector.normalizeSymbol "BTCUSDT" = "BTCUSD"
  /\ Detector.normalizeSymbol "XBT/USD" = "XBT/USD"
  /\ Detector.normalizeSymbol "btcusd" = "btcusd"
  /\ Detector.getAvailableSymbols
       (withBooks Detector.create [binanceBTC; krakenBTC; geminiBTC])
     = ["BTCUSD"; "XBT/USD"; "btcusd"]
  /\ Detector.detectOpportunities Num.parseFloatDecimal
       (withBooks Detector.create [binanceBTC; krakenBTC; geminiBTC]) 1000 = []
  /\ map (fun o => (Shared.oppSymbol o, Shared.buyExchange o, Shared.sellExchange o))
       (Detector.detectOpportunities Num.parseFloatDecimal
          (withBooks Detector.create
             [binanceBTC; book "kraken" "BTC-USD" "10200" "10201" 1000]) 1000)
     = [("BTCUSD", "binance", "kraken")].
Proof. vm_compute. repeat split. Qed.

End Symbols.

(* ------------------------------------------------------------------ *)
(** ** Facts about [JsMap] *)
(* ------------------------------------------------------------------ *)

Section JsMapFacts.

Context {V : Type}.
Implicit Types (m : JsMap.t V) (k : string) (v : V).

Lemma get_set m k v k' :
  JsMap.get (JsMap.set m k v) k' =
  if String.eqb k k' then Some v else JsMap.get m k'.
Proof.
  induction m as [|[k0 v0] m IH]; simpl.
  - reflexivity.
  - destruct (String.eqb_spec k0 k) as [->|Hne]; simpl.
    + destruct (String.eqb k k'); reflexivity.
    + rewrite IH. destruct (String.eqb_spec k0 k') as [->|Hne'].
      * destruct (String.eqb_spec k k') as [->|_]; [contradiction | reflexivity].
      * reflexivity.
Qed.

Lemma keys_set m k v k' :
  In k' (JsMap.keys (JsMap.set m k v)) <-> k' = k \/ In k' (JsMap.keys m).
Proof.
  unfold JsMap.keys. induction m as [|[k0 v0] m IH]; simpl.
  - intuition.
  - destruct (String.eqb_spec k0 k) as [->|Hne]; simpl.
    + intuition.
    + rewrite IH. intuition.
Qed.

Lemma NoDup_keys_set m k v :
  NoDup (JsMap.keys m) -> NoDup (JsMap.keys (JsMap.set m k v)).
Proof.
  unfold JsMap.keys. induction m as [|[k0 v0] m IH]; simpl; intros H.
  - constructor; [intros [] | constructor].
  - inversion H as [|? ? Hnotin Hnd]; subst.
    destruct (String.eqb_spec k0 k) as [->|Hne]; simpl.
    + constructor; assumption.
    + constructor; [|auto].
      intros Hin. apply (keys_set m k v k0) in Hin. destruct Hin; [congruence | contradiction].
Qed.

Lemma get_Some_keys m k : (exists v, JsMap.get m k = Some v) <-> In k (JsMap.keys m).
Proof.
  unfold JsMap.keys. induction m as [|[k0 v0] m IH]; simpl.
  - split; [intros [v Hv]; discriminate | intros []].
  - destruct (String.eqb_spec k0 k) as [->|Hne].
    + split; [auto | intros _; eauto].
    + rewrite IH. intuition congruence.
Qed.

Lemma get_Some_In m k v : JsMap.get m k = Some v -> In (k, v) m.
Proof.
  induction m as [|[k0 v0] m IH]; simpl; [discriminate|].
  destruct (String.eqb_spec k0 k) as [->|Hne].
  - intros [= ->]. now left.
  - intros H. right. auto.
Qed.

Lemma values_set_In m k v x :
  In x (JsMap.values (JsMap.set m k v)) -> x = v \/ In x (JsMap.values m).
Proof.
  unfold JsMap.values. induction m as [|[k0 v0] m IH]; simpl.
  - intuition.
  - destruct (String.eqb k0 k); simpl; intuition.
Qed.

End JsMapFacts.

(* ------------------------------------------------------------------ *)
(** ** Facts about the list helpers of the detector *)
(* ------------------------------------------------------------------ *)

Lemma in_dedup (x : string) (l : list string) : In x (Detector.dedup l) <-> In x l.
Proof.
  induction l as [|y l IH]; simpl; [tauto|].
  rewrite filter_In, IH.
  destruct (String.eqb_spec y x) as [->|Hne]; simpl; intuition congruence.
Qed.

Lemma in_pairs_either {A : Type} (l : list A) (x y : A) :
  In x l -> In y l -> x <> y -> In (x, y) (Detector.pairs l) \/ In (y, x) (Detector.pairs l).
Proof.
  induction l as [|a l IH]; simpl; [tauto|].
  intros [->|Hx] [->|Hy] Hne; try congruence.
  - left. apply in_or_app. left. now apply in_map.
  - right. apply in_or_app. left. now apply in_map.
  - destruct (IH Hx Hy Hne); [left | right]; apply in_or_app; now right.
Qed.

Lemma two_distinct_length {A : Type} (l : list A) (x y : A) :
  In x l -> In y l -> x <> y -> (2 <= List.length l)%nat.
Proof.
  destruct l as [|a [|b l]]; simpl; try lia; intuition congruence.
Qed.

Lemma truthy_iff (x : string) : Str.truthy x = true <-> x <> EmptyString.
Proof.
  unfold Str.truthy. destruct (String.eqb_spec x EmptyString); simpl;
    intuition congruence.
Qed.

(* ------------------------------------------------------------------ *)
(** ** The two gates of the detector (C1) *)
(* ------------------------------------------------------------------ *)

Section DetectorGates.

Import Shared Detector.
Local Open Scope float_scope.

Variable parseFloat : string -> float.

Local Notation "'calc'" := (calculateOpportunity parseFloat).
Local Notation "'profitOf'" := (profitPercentOf parseFloat).

Lemma calculate_None_below d now buy sell s bid ask :
  hd_error (bids sell) = Some bid -> hd_error (asks buy) = Some ask ->
  (profitOf d buy sell bid ask <? minProfitPercent (config d)) = true ->
  calc d now buy sell s = None.
Proof.
  unfold calculateOpportunity, profitPercentOf.
  destruct (bids sell) as [|b0 ?]; [discriminate|].
  destruct (asks buy) as [|a0 ?]; [discriminate|].
  simpl. intros [= ->] [= ->] H. rewrite H. reflexivity.
Qed.

Lemma calculate_Some_above d now buy sell s bid ask :
  hd_error (bids sell) = Some bid -> hd_error (asks buy) = Some ask ->
  (profitOf d buy sell bid ask <? minProfitPercent (config d)) = false ->
  exists o, calc d now buy sell s = Some o
    /\ oppSymbol o = s
    /\ buyExchange o = exchange buy
    /\ sellExchange o = exchange sell
    /\ spreadPercent o = profitOf d buy sell bid ask.
Proof.
  unfold calculateOpportunity, profitPercentOf.
  destruct (bids sell) as [|b0 ?]; [discriminate|].
  destruct (asks buy) as [|a0 ?]; [discriminate|].
  simpl. intros [= ->] [= ->] H. rewrite H.
  eexists. split; [reflexivity|]. repeat split.
Qed.

Lemma calculate_Some_inv d now buy sell s o :
  calc d now buy sell s = Some o ->
  oppSymbol o = s /\ buyExchange o = exchange buy /\ sellExchange o = exchange sell
  /\ exists bid ask,
       hd_error (bids sell) = Some bid /\ hd_error (asks buy) = Some ask
       /\ spreadPercent o = profitOf d buy sell bid ask
       /\ (profitOf d buy sell bid ask <? minProfitPercent (config d)) = false.
Proof.
  unfold calculateOpportunity, profitPercentOf.
  destruct (bids sell) as [|b0 ?]; [discriminate|].
  destruct (asks buy) as [|a0 ?]; [discriminate|].
  match goal with |- context [if ?c then _ else _] => destruct c eqn:Hc end;
    [discriminate|].
  intros [= <-]. simpl. repeat split. exists b0, a0. repeat split. exact Hc.
Qed.

(** The condition under which the scan of [s] takes a book. *)
Definition taken (d : t) (now : Z) (s : string) (ob : OrderBook) : bool :=
  String.eqb (normalizeSymbol (symbol ob)) s && isOrderBookFresh d now ob.

Definition collect (d : t) (now : Z) (s : string)
  (l : list OrderBook) (m0 : JsMap.t OrderBook) : JsMap.t OrderBook :=
  fold_left
    (fun m ob => if taken d now s ob then JsMap.set m (exchange ob) ob else m)
    l m0.

Lemma booksByExchange_collect d now s :
  booksByExchange d now s = collect d now s (JsMap.values (orderBooks d)) JsMap.empty.
Proof. reflexivity. Qed.

Lemma collect_get_unique d now s l : forall m0 ex A,
  (forall ob, In ob l -> taken d now s ob = true -> exchange ob = ex -> ob = A) ->
  (In A l /\ taken d now s A = true /\ exchange A = ex) \/ JsMap.get m0 ex = Some A ->
  JsMap.get (collect d now s l m0) ex = Some A.
Proof.
  induction l as [|ob l IH]; intros m0 ex A Huniq Hin; simpl.
  - destruct Hin as [[[] _] | H]; exact H.
  - apply IH.
    + intros ob' Hob'. apply Huniq. now right.
    + destruct Hin as [[[<- | HA] [Ht He]] | Hget].
      * right. rewrite Ht, get_set, He, String.eqb_refl. reflexivity.
      * left. auto.
      * right. destruct (taken d now s ob) eqn:Ht; [|exact Hget].
        rewrite get_set. destruct (String.eqb_spec (exchange ob) ex) as [He|_];
          [|exact Hget].
        f_equal. apply Huniq; auto. now left.
Qed.

Lemma collect_get_inv d now s l : forall m0 k ob,
  JsMap.get (collect d now s l m0) k = Some ob ->
  (In ob l /\ taken d now s ob = true /\ exchange ob = k) \/ JsMap.get m0 k = Some ob.
Proof.
  induction l as [|ob0 l IH]; intros m0 k ob H; simpl in H.
  - now right.
  - apply IH in H. destruct H as [[Hin Hrest] | H].
    + left. split; [now right | exact Hrest].
    + destruct (taken d now s ob0) eqn:Ht; [|now right].
      rewrite get_set in H.
      destruct (String.eqb_spec (exchange ob0) k) as [He|_]; [|now right].
      injection H as <-. left. repeat split; auto. now left.
Qed.

Lemma findArbitrage_symbol d now s o :
  In o (findArbitrageOpportunities parseFloat d now s) -> oppSymbol o = s.
Proof.
  unfold findArbitrageOpportunities.
  destruct (_ <? 2)%nat; [intros []|].
  rewrite in_flat_map. intros [[x y] [_ Hin]].
  destruct (Str.truthy x && Str.truthy y); [|destruct Hin].
  destruct (JsMap.get _ x); [|destruct Hin].
  destruct (JsMap.get _ y); [|destruct Hin].
  apply in_app_or in Hin.
  destruct Hin as [Hin | Hin];
    match type of Hin with In _ (optList ?c) => destruct c eqn:Hc end;
    simpl in Hin; try tauto; destruct Hin as [<- | []];
    now apply calculate_Some_inv in Hc.
Qed.

Lemma collected_book d now s k ob :
  JsMap.get (booksByExchange d now s) k = Some ob ->
  In ob (JsMap.values (orderBooks d)) /\ taken d now s ob = true /\ exchange ob = k.
Proof.
  rewrite booksByExchange_collect. intros H.
  apply collect_get_inv in H. destruct H as [H | H]; [exact H | discriminate].
Qed.

Lemma held_book d now s A :
  In A (JsMap.values (orderBooks d)) -> taken d now s A = true ->
  (forall ob, In ob (JsMap.values (orderBooks d)) -> taken d now s ob = true ->
              exchange ob = exchange A -> ob = A) ->
  JsMap.get (booksByExchange d now s) (exchange A) = Some A.
Proof.
  intros HA Ht Huniq. rewrite booksByExchange_collect.
  apply collect_get_unique; [exact Huniq | left; auto].
Qed.

End DetectorGates.

(* ------------------------------------------------------------------ *)
(** ** The event of the handler *)
(* ------------------------------------------------------------------ *)

Section HandlerEvent.

Import Shared Persistence.

Lemma save_unfold (fuel : nat) (o : ArbitrageOpportunity) :
  saveOpportunityToDatabase fuel o =
  tryCatch
    (call (fun d => Sink.create d o) ;;; cleanupOldOpportunities)
    (fun error =>
       if Str.includes error "Foreign key constraint" then
         ensureExchangesExist ;;;
         match fuel with
         | O => pending
         | S fuel' => saveOpportunityToDatabase fuel' o
         end
       else log "Database error").
Proof. destruct fuel; reflexivity. Qed.

(** A computation that emits no event. *)
Definition quiet {A : Type} (m : M A) : Prop :=
  forall w, emitted (fst (m w)) = emitted w.

Lemma quiet_ret {A} (a : A) : quiet (ret a).
Proof. intros w. reflexivity. Qed.

Lemma quiet_pending {A} : quiet (@pending A).
Proof. intros w. reflexivity. Qed.

Lemma quiet_log line : quiet (log line).
Proof. intros w. reflexivity. Qed.

Lemma quiet_call {A} (op : Sink.t -> Sink.t * (A + string)) : quiet (call op).
Proof.
  intros w. unfold call. destruct (op (db w)) as [db' [a|msg]]; reflexivity.
Qed.

Lemma quiet_bind {A B} (m : M A) (k : A -> M B) :
  quiet m -> (forall a, quiet (k a)) -> quiet (bind m k).
Proof.
  intros Hm Hk w. unfold bind. specialize (Hm w).
  destruct (m w) as [w' [a|msg|]]; cbn [fst] in *; [|exact Hm|exact Hm].
  rewrite (Hk a w'). exact Hm.
Qed.

Lemma quiet_tryCatch {A} (m : M A) (h : string -> M A) :
  quiet m -> (forall msg, quiet (h msg)) -> quiet (tryCatch m h).
Proof.
  intros Hm Hh w. unfold tryCatch. specialize (Hm w).
  destruct (m w) as [w' [a|msg|]]; cbn [fst] in *; [exact Hm| |exact Hm].
  rewrite (Hh msg w'). exact Hm.
Qed.

Lemma quiet_forEach {A} (l : list A) (f : A -> M unit) :
  (forall x, quiet (f x)) -> quiet (forEach l f).
Proof.
  intros Hf. induction l as [|x l IH]; cbn [forEach]; [apply quiet_ret|].
  apply quiet_bind; auto.
Qed.

Lemma quiet_cleanup : quiet cleanupOldOpportunities.
Proof.
  unfold cleanupOldOpportunities.
  apply quiet_tryCatch; [|intros; apply quiet_log].
  apply quiet_bind; [apply quiet_call|]. intros totalCount.
  destruct (_ <? _)%Z; [|apply quiet_ret].
  apply quiet_bind; [apply quiet_call|]. intros [|cutoffId rest]; [apply quiet_ret|].
  apply quiet_bind; [apply quiet_call|]. intros deletedCount.
  destruct (_ <? _)%Z; [apply quiet_log | apply quiet_ret].
Qed.

Lemma quiet_ensure : quiet ensureExchangesExist.
Proof.
  unfold ensureExchangesExist. apply quiet_forEach. intros x. apply quiet_call.
Qed.

(** [saveOpportunityToDatabase] emits nothing, however it ends. *)
Lemma quiet_save (fuel : nat) (o : ArbitrageOpportunity) :
  quiet (saveOpportunityToDatabase fuel o).
Proof.
  induction fuel as [|fuel IH]; cbn [saveOpportunityToDatabase];
    (apply quiet_tryCatch;
     [apply quiet_bind; [apply quiet_call | intros; apply quiet_cleanup]|]);
    intros msg; (destruct (Str.includes msg _); [|apply quiet_log]);
    (apply quiet_bind; [apply quiet_ensure|]); intros _.
  - apply quiet_pending.
  - exact IH.
Qed.

(** The world in which [handleOpportunity] calls the save. *)
Definition announced (w : World) : World :=
  fst (log "ARBITRAGE OPPORTUNITY DETECTED!" w).

(** [handleOpportunity] emits [opportunity_detected] for its opportunity,
    once, when the save it awaits returns, and nothing when the save throws
    or does not settle. *)
Lemma handler_emits_when_saved (fuel : nat) (o : ArbitrageOpportunity) (w : World) :
  emitted (fst (handleOpportunity fuel o w))
  = match snd (saveOpportunityToDatabase fuel o (announced w)) with
    | Ok _ => (emitted w ++ [o])%list
    | Throw _ | Pending => emitted w
    end.
Proof.
  unfold handleOpportunity, tryCatch, bind, announced.
  cbn [log fst snd].
  pose proof (quiet_save fuel o
                {| db := db w;
                   console := (console w ++ ["ARBITRAGE OPPORTUNITY DETECTED!"])%list;
                   emitted := emitted w |}) as Q.
  destruct (saveOpportunityToDatabase fuel o _) as [w2 [[]|msg|]];
    cbn [fst snd emit log emitted] in *; now rewrite Q.
Qed.

(** The clean-up catches what it throws: it always returns. *)
Lemma cleanup_returns (w : World) : snd (cleanupOldOpportunities w) = Ok tt.
Proof.
  unfold cleanupOldOpportunities, tryCatch, bind, call, log, ret.
  destruct (Sink.count (db w)) as [d1 [n|msg]]; [|reflexivity].
  destruct (_ <? _)%Z; [|reflexivity].
  destruct (Sink.findManyIds _ _ _) as [d2 [[|cutoffId rest]|msg]];
    try reflexivity.
  cbn [db]. destruct (Sink.deleteManyLt _ _) as [d3 [n3|msg]]; [|reflexivity].
  destruct (_ <? _)%Z; reflexivity.
Qed.

(** When the store answers and holds the rows of both venues, the save
    returns. *)
Lemma save_returns (fuel : nat) (o : ArbitrageOpportunity) (w : World) :
  Sink.faults (db w) = [] ->
  Sink.hasExchange (db w) (buyExchange o) = true ->
  Sink.hasExchange (db w) (sellExchange o) = true ->
  snd (saveOpportunityToDatabase fuel o w) = Ok tt.
Proof.
  intros Hf Hb Hs. rewrite save_unfold.
  unfold tryCatch at 1. unfold bind at 1. unfold call at 1.
  unfold Sink.create, Sink.nextFault. rewrite Hf.
  cbn [Sink.exchanges Sink.opportunities Sink.nextId Sink.faults].
  rewrite Hb, Hs. cbn [andb].
  match goal with |- context [cleanupOldOpportunities ?w1] =>
    pose proof (cleanup_returns w1) as C;
    destruct (cleanupOldOpportunities w1) as [w2 r]
  end.
  cbn [snd] in C. rewrite C. reflexivity.
Qed.

End HandlerEvent.

Section DetectorScan.

Import Shared Detector.
Local Open Scope float_scope.

Variable parseFloat : string -> float.

(** [A] and [B] are the books that the scan of the normalised symbol [s]
    compares for their two venues: both are stored, fresh and spelled [s]
    after normalisation, their venues differ and are named, and no other
    fresh book of the same symbol belongs to either venue. *)
Definition scannedPair (d : t) (now : Z) (s : string) (A B : OrderBook) : Prop :=
  In A (JsMap.values (orderBooks d))
  /\ In B (JsMap.values (orderBooks d))
  /\ normalizeSymbol (symbol A) = s /\ normalizeSymbol (symbol B) = s
  /\ isOrderBookFresh d now A = true /\ isOrderBookFresh d now B = true
  /\ exchange A <> exchange B
  /\ exchange A <> EmptyString /\ exchange B <> EmptyString
  /\ (forall ob, In ob (JsMap.values (orderBooks d)) ->
        normalizeSymbol (symbol ob) = s -> isOrderBookFresh d now ob = true ->
        (exchange ob = exchange A -> ob = A) /\ (exchange ob = exchange B -> ob = B)).

(** The direction "buy on [A], sell on [B]" is among the opportunities of
    the scan. *)
Definition emits (d : t) (now : Z) (s : string) (A B : OrderBook) : Prop :=
  exists o, In o (detectOpportunities parseFloat d now)
            /\ oppSymbol o = s
            /\ buyExchange o = exchange A /\ sellExchange o = exchange B.

Lemma taken_iff d now s ob :
  taken d now s ob = true
  <-> normalizeSymbol (symbol ob) = s /\ isOrderBookFresh d now ob = true.
Proof.
  unfold taken. rewrite andb_true_iff, String.eqb_eq. reflexivity.
Qed.

Lemma scannedPair_books d now s A B :
  scannedPair d now s A B ->
  JsMap.get (booksByExchange d now s) (exchange A) = Some A
  /\ JsMap.get (booksByExchange d now s) (exchange B) = Some B
  /\ (forall k ob, JsMap.get (booksByExchange d now s) k = Some ob ->
        (exchange ob = exchange A -> ob = A) /\ (exchange ob = exchange B -> ob = B)).
Proof.
  intros (HA & HB & HsA & HsB & HfA & HfB & _ & _ & _ & Huniq).
  split; [|split].
  - apply held_book; auto; [now apply taken_iff|].
    intros ob Hin Ht He. apply taken_iff in Ht. destruct Ht as [H1 H2].
    now apply (Huniq ob Hin H1 H2).
  - apply held_book; auto; [now apply taken_iff|].
    intros ob Hin Ht He. apply taken_iff in Ht. destruct Ht as [H1 H2].
    now apply (Huniq ob Hin H1 H2).
  - intros k ob H. apply collected_book in H. destruct H as (Hin & Ht & _).
    apply taken_iff in Ht. destruct Ht as [H1 H2]. now apply Huniq.
Qed.

(** An emitted direction has passed both gates. *)
Lemma emitted_passes_gates d now s A B ask bid :
  scannedPair d now s A B ->
  hd_error (asks A) = Some ask -> hd_error (bids B) = Some bid ->
  emits d now s A B ->
  (profitPercentOf parseFloat d A B bid ask <? minProfitPercent (config d)) = false
  /\ Num.geb (profitPercentOf parseFloat d A B bid ask)
       (minProfitPercent (config d) + slippageBuffer (config d)) = true.
Proof.
  intros Hpair Hask Hbid (o & Hin & Hs & Hbuy & Hsell).
  destruct (scannedPair_books d now s A B Hpair) as (_ & _ & Hback).
  unfold detectOpportunities in Hin. apply in_flat_map in Hin.
  destruct Hin as (s' & _ & Hin). apply filter_In in Hin.
  destruct Hin as [Hin Hprof].
  pose proof (findArbitrage_symbol parseFloat d now s' o Hin) as Hs'.
  assert (Es : s' = s) by congruence. rewrite Es in Hin. clear Es Hs' s'.
  unfold findArbitrageOpportunities in Hin.
  destruct (_ <? 2)%nat; [destruct Hin|].
  apply in_flat_map in Hin. destruct Hin as ([x y] & _ & Hin).
  destruct (Str.truthy x && Str.truthy y); [|destruct Hin].
  destruct (JsMap.get _ x) as [ob1|] eqn:H1; [|destruct Hin].
  destruct (JsMap.get _ y) as [ob2|] eqn:H2; [|destruct Hin].
  apply Hback in H1, H2.
  assert (Hgoal : forall buy sell,
            calculateOpportunity parseFloat d now buy sell s = Some o ->
            (exchange buy = exchange A -> buy = A) ->
            (exchange sell = exchange B -> sell = B) ->
            (profitPercentOf parseFloat d A B bid ask <? minProfitPercent (config d))
              = false
            /\ Num.geb (profitPercentOf parseFloat d A B bid ask)
                 (minProfitPercent (config d) + slippageBuffer (config d)) = true).
  { intros buy sell Hc Hb1 Hs1.
    apply calculate_Some_inv in Hc.
    destruct Hc as (_ & Eb & Es & bid' & ask' & Hbid' & Hask' & Hsp & Hgate).
    assert (buy = A) by (apply Hb1; congruence).
    assert (sell = B) by (apply Hs1; congruence). subst buy sell.
    assert (bid' = bid) by congruence. assert (ask' = ask) by congruence.
    subst bid' ask'. split; [exact Hgate|].
    unfold isProfitableOpportunity in Hprof. rewrite Hsp in Hprof. exact Hprof. }
  apply in_app_or in Hin.
  destruct Hin as [Hin | Hin];
    match type of Hin with In _ (optList ?c) => destruct c eqn:Hc end;
    simpl in Hin; try tauto; destruct Hin as [<- | []].
  - apply (Hgoal _ _ Hc); tauto.
  - apply (Hgoal _ _ Hc); tauto.
Qed.

(** A direction that passes both gates is emitted. *)
Lemma gates_passed_emitted d now s A B ask bid :
  scannedPair d now s A B ->
  hd_error (asks A) = Some ask -> hd_error (bids B) = Some bid ->
  (profitPercentOf parseFloat d A B bid ask <? minProfitPercent (config d)) = false ->
  Num.geb (profitPercentOf parseFloat d A B bid ask)
    (minProfitPercent (config d) + slippageBuffer (config d)) = true ->
  emits d now s A B.
Proof.
  intros Hpair Hask Hbid Hgate1 Hgate2.
  destruct (scannedPair_books d now s A B Hpair) as (HgA & HgB & _).
  destruct Hpair as (HA & _ & HsA & _ & _ & _ & Hne & HneA & HneB & _).
  destruct (calculate_Some_above parseFloat d now A B s bid ask Hbid Hask Hgate1)
    as (o & Hc & Hs & Hbuy & Hsell & Hsp).
  exists o. repeat split; auto.
  unfold detectOpportunities. apply in_flat_map. exists s. split.
  { unfold getAvailableSymbols. apply in_dedup. rewrite <- HsA.
    apply (in_map (fun ob => normalizeSymbol (symbol ob))). exact HA. }
  apply filter_In. split.
  2:{ unfold isProfitableOpportunity. rewrite Hsp. exact Hgate2. }
  unfold findArbitrageOpportunities.
  assert (HkA : In (exchange A) (JsMap.keys (booksByExchange d now s))).
  { apply get_Some_keys. eauto. }
  assert (HkB : In (exchange B) (JsMap.keys (booksByExchange d now s))).
  { apply get_Some_keys. eauto. }
  assert (Hsize : (JsMap.size (booksByExchange d now s) <? 2)%nat = false).
  { apply Nat.ltb_ge. unfold JsMap.size.
    rewrite <- (length_map fst). exact (two_distinct_length _ _ _ HkA HkB Hne). }
  rewrite Hsize. apply in_flat_map.
  apply truthy_iff in HneA, HneB.
  destruct (in_pairs_either _ _ _ HkA HkB Hne) as [Hp | Hp].
  - exists (exchange A, exchange B). split; [exact Hp|].
    rewrite HneA, HneB, HgA, HgB. simpl. apply in_or_app. left.
    rewrite Hc. now left.
  - exists (exchange B, exchange A). split; [exact Hp|].
    rewrite HneA, HneB, HgA, HgB. simpl. apply in_or_app. right.
    rewrite Hc. now left.
Qed.

(** C1, amended: let [A] and [B] be the fresh books that the scan of the
    normalised symbol [s] holds for two different venues, each with a top
    level, no other fresh book of either venue normalising to [s].  The
    scan hands the direction "buy on A, sell on B" to [handleOpportunity]
    if and only if the profit percentage of the formula passes both gates
    of the code: it is not below [min_profit_percent]
    ([calculateOpportunity]) and it is at least
    [min_profit_percent + slippage_buffer] ([isProfitableOpportunity]); a
    profit equal to the threshold passes the second gate.  The handler
    emits [opportunity_detected] for the opportunity it was handed, once,
    when the save it awaits returns, and not when the save throws or does
    not settle; the save returns whenever the store answers and holds the
    rows of both venues. *)
Theorem opportunity_emitted_iff_both_gates
  (d : t) (now : Z) (A B : OrderBook) (s : string) (ask bid : OrderBookEntry) :
  In A (JsMap.values (orderBooks d)) ->
  In B (JsMap.values (orderBooks d)) ->
  normalizeSymbol (symbol A) = s -> normalizeSymbol (symbol B) = s ->
  isOrderBookFresh d now A = true -> isOrderBookFresh d now B = true ->
  exchange A <> exchange B ->
  exchange A <> EmptyString -> exchange B <> EmptyString ->
  (forall ob, In ob (JsMap.values (orderBooks d)) ->
     normalizeSymbol (symbol ob) = s -> isOrderBookFresh d now ob = true ->
     (exchange ob = exchange A -> ob = A) /\ (exchange ob = exchange B -> ob = B)) ->
  hd_error (asks A) = Some ask -> hd_error (bids B) = Some bid ->
  let profit_percent := profitPercentOf parseFloat d A B bid ask in
  ((exists o, In o (detectOpportunities parseFloat d now)
              /\ oppSymbol o = s
              /\ buyExchange o = exchange A /\ sellExchange o = exchange B)
   <->
   ((profit_percent <? minProfitPercent (config d)) = false
    /\ Num.geb profit_percent
         (minProfitPercent (config d) + slippageBuffer (config d)) = true))
  /\ (forall o fuel w,
        Persistence.emitted (fst (Persistence.handleOpportunity fuel o w))
        = match snd (Persistence.saveOpportunityToDatabase fuel o (announced w)) with
          | Persistence.Ok _ => (Persistence.emitted w ++ [o])%list
          | Persistence.Throw _ | Persistence.Pending => Persistence.emitted w
          end)
  /\ (forall o fuel w,
        Sink.faults (Persistence.db w) = [] ->
        Sink.hasExchange (Persistence.db w) (buyExchange o) = true ->
        Sink.hasExchange (Persistence.db w) (sellExchange o) = true ->
        Persistence.emitted (fst (Persistence.handleOpportunity fuel o w))
        = (Persistence.emitted w ++ [o])%list).
Proof.
  intros HA HB HsA HsB HfA HfB Hne HneA HneB Huniq Hask Hbid p.
  assert (Hpair : scannedPair d now s A B).
  { unfold scannedPair. repeat (split; [assumption|]). exact Huniq. }
  split; [split|split].
  - intros Hemit. now apply (emitted_passes_gates d now s A B ask bid).
  - intros [Hgate1 Hgate2].
    now apply (gates_passed_emitted d now s A B ask bid).
  - intros o fuel w. apply handler_emits_when_saved.
  - intros o fuel w Hf Hb Hs. rewrite handler_emits_when_saved.
    now rewrite (save_returns fuel o (announced w)).
Qed.

End DetectorScan.

Section DetectorGateExamples.

Import Shared Detector.
Local Open Scope float_scope.

Definition binanceAsk10000 : OrderBook := book "binance" "BTCUSDT" "9999" "10000" 1000.
Definition coinbaseBid10200 : OrderBook := book "coinbase" "BTC-USD" "10200" "10201" 1000.

(** The profit of Binance -> Coinbase on these books under the initial fees
    and trade amount: about 1.288 %. *)
Definition profitOfExample : float :=
  Eval vm_compute in
    profitPercentOf Num.parseFloatDecimal create binanceAsk10000 coinbaseBid10200
      (level "10200" "1") (level "10000" "1").

(** A detector whose threshold is exactly that profit (no slippage buffer). *)
Definition detectorAtThreshold : t :=
  withBooks
    (updateConfig create
       {| newMinProfitPercent := Some profitOfExample; newSlippageBuffer := None;
          newMaxSpreadAge := None |})
    [binanceAsk10000; coinbaseBid10200].

(** The theorem at a concrete scan: the profit equals the threshold, both
    gates pass, and the opportunity Binance -> Coinbase is handed on. *)
Lemma opportunity_emitted_at_threshold :
  profitOfExample =
    (minProfitPercent (config detectorAtThreshold)
     + slippageBuffer (config detectorAtThreshold))
  /\ exists o, In o (detectOpportunities Num.parseFloatDecimal detectorAtThreshold 1000)
       /\ oppSymbol o = "BTCUSD"%string
       /\ buyExchange o = exchange binanceAsk10000
       /\ sellExchange o = exchange coinbaseBid10200.
Proof.
  split; [vm_compute; reflexivity|].
  destruct (opportunity_emitted_iff_both_gates Num.parseFloatDecimal
              detectorAtThreshold 1000 binanceAsk10000 coinbaseBid10200
              "BTCUSD"%string (level "10000" "1") (level "10200" "1"))
    as [Hiff _].
  - simpl. auto.
  - simpl. auto.
  - reflexivity.
  - reflexivity.
  - reflexivity.
  - reflexivity.
  - discriminate.
  - discriminate.
  - discriminate.
  - intros ob [<- | [<- | []]] _ _; split; intros H;
      first [reflexivity | discriminate H].
  - reflexivity.
  - reflexivity.
  - apply Hiff. split; vm_compute; reflexivity.
Defined.

End DetectorGateExamples.

(* ------------------------------------------------------------------ *)
(** ** The book map of the detector only grows (C10) *)
(* ------------------------------------------------------------------ *)

Section DetectorBookMap.

Import Shared Detector.

Variable parseFloat : string -> float.

(** The public operations of the detector. *)
Inductive Op :=
| OpUpdateOrderBook (now : Z) (orderBook : OrderBook)
| OpUpdateConfig (newConfig : PartialConfig)
| OpUpdateTradeAmount (amount : float)
| OpGetConfig.

Definition step (d : t) (op : Op) : t :=
  match op with
  | OpUpdateOrderBook now ob => fst (updateOrderBook parseFloat d now ob)
  | OpUpdateConfig c => updateConfig d c
  | OpUpdateTradeAmount a => updateTradeAmount d a
  | OpGetConfig => d
  end.

Definition run (d : t) (ops : list Op) : t := fold_left step ops d.


Lemma updateOrderBook_books d now ob :
  orderBooks (fst (updateOrderBook parseFloat d now ob))
  = JsMap.set (orderBooks d) (orderKey ob) ob.
Proof.
  unfold updateOrderBook. cbn [lastOpportunityCheck].
  destruct (checkIntervalMs <? _)%Z; reflexivity.
Qed.




Lemma collect_cons d now s ob l m0 :
  collect d now s (ob :: l) m0
  = collect d now s l (if taken d now s ob then JsMap.set m0 (exchange ob) ob else m0).
Proof. reflexivity. Qed.









End DetectorBookMap.

Section ShadowedBook.

Import Shared Detector.
Local Open Scope float_scope.

(** Coinbase lists Bitcoin against the dollar and against Tether; the two
    books normalise to one symbol.  The dollar book bids 10200, the Tether
    book, whose key entered the map later, bids 9000; Binance asks 10000. *)
Definition coinbaseDollar : OrderBook := book "coinbase" "BTC-USD" "10200" "10201" 1000.
Definition coinbaseTether : OrderBook := book "coinbase" "BTC-USDT" "9000" "10500" 1000.
Definition binanceTether : OrderBook := book "binance" "BTCUSDT" "9999" "10000" 1000.

Definition twoCoinbaseBooks : t :=
  withBooks create [coinbaseDollar; coinbaseTether; binanceTether].

End ShadowedBook.

Section ShadowedBookExample.

Import Shared Detector.
Local Open Scope float_scope.


End ShadowedBookExample.

(* ------------------------------------------------------------------ *)
(** ** Order-book intake of the manager (C9) *)
(* ------------------------------------------------------------------ *)

Section ManagerIntake.

Import Shared Manager.

Variable parseFloat : string -> float.

(** C9: the intake writes the cache, hands the book to the detector and
    re-emits it, in this order, inside one [try].  When the cache write
    throws, nothing else happens: the detector and its pending
    opportunities, the cache and the emitted events are unchanged and one
    line goes to the console.  When the write succeeds, the cache holds the
    book for 10 s, the detector has processed it and the [orderbook_update]
    event follows.  (In the model the cache write is the only step that can
    throw.) *)
Theorem intake_aborts_on_cache_failure (m : t) (now : Z) (orderBook : OrderBook) :
  let m' := handleOrderBookUpdate parseFloat m now orderBook in
  (failing (redisClient m) = true ->
     redisClient m' = redisClient m
     /\ opportunityDetector m' = opportunityDetector m
     /\ detected m' = detected m
     /\ events m' = events m
     /\ console m' = (console m ++ ["Error handling order book update"])%list)
  /\ (failing (redisClient m) = false ->
        JsMap.get (entries (redisClient m')) (cacheKey orderBook)
          = Some (orderBook, (now + 10000)%Z)
        /\ opportunityDetector m'
           = fst (Detector.updateOrderBook parseFloat (opportunityDetector m) now orderBook)
        /\ detected m'
           = (detected m
              ++ snd (Detector.updateOrderBook parseFloat (opportunityDetector m) now orderBook))%list
        /\ events m' = (events m ++ [OrderbookUpdate orderBook])%list
        /\ console m' = console m).
Proof.
  unfold handleOrderBookUpdate, setEx. split; intros Hf; rewrite Hf.
  - repeat split.
  - destruct (Detector.updateOrderBook parseFloat (opportunityDetector m) now orderBook)
      as [d' opps].
    cbn [redisClient opportunityDetector detected events console entries fst snd].
    repeat split. rewrite get_set, String.eqb_refl. reflexivity.
Qed.

End ManagerIntake.

(* ------------------------------------------------------------------ *)
(** ** The persistence path (C8, C6) *)
(* ------------------------------------------------------------------ *)

Section PersistencePath.

Import Shared Persistence.
Local Open Scope float_scope.

Definition opportunity (buy sell : string) (ts : Z) : ArbitrageOpportunity :=
  {| oppSymbol := "BTCUSD"; buyExchange := buy; sellExchange := sell;
     buyPrice := 10000; sellPrice := 10200; spread := 20; spreadPercent := 1.288;
     estimatedProfit := 12.88; oppTimestamp := ts;
     fees := {| buyFee := 1; sellFee := 6.12; totalFee := 7.12 |} |}.

Definition sinkWith (venues : list string) (rows : list Sink.OpportunityRow)
  (next : Z) (faults : list (option string)) : Sink.t :=
  {| Sink.exchanges :=
       map (fun n => {| Sink.name := n; Sink.wsUrl := ""; Sink.restUrl := "" |}) venues;
     Sink.opportunities := rows; Sink.nextId := next; Sink.faults := faults |}.

Definition worldOf (s : Sink.t) : World :=
  {| db := s; console := []; emitted := [] |}.

(** The world once [ensureExchangesExist] has run on an empty venue table. *)
Definition afterUpsert : World :=
  Eval vm_compute in
    fst (handleOpportunity 0 (opportunity "kraken" "coinbase" 5)
           (worldOf (sinkWith [] [] 1 []))).

Lemma retry_without_kraken_row (fuel : nat) :
  saveOpportunityToDatabase fuel (opportunity "kraken" "coinbase" 5) afterUpsert
  = (afterUpsert, Pending).
Proof.
  induction fuel as [|fuel IH].
  - vm_compute. reflexivity.
  - cbn. exact IH.
Qed.

(** C8 at the failing input: an opportunity that buys on Kraken while the
    venue table has no Kraken row.  The insert fails with the foreign-key
    error; [ensureExchangesExist] upserts [binance] and [coinbase], whatever
    the opportunity refers to; the retry is a call of
    [saveOpportunityToDatabase] itself, fails in the same way and retries
    again, without end: for every fuel the handler is still pending, no row
    is stored and no [opportunity_detected] event is emitted.  Second, when
    the upsert itself fails the error leaves [saveOpportunityToDatabase],
    is logged by [handleOpportunity], and no event is emitted either. *)
Theorem missing_venue_row_retries_forever :
  (forall fuel,
     let run := handleOpportunity fuel (opportunity "kraken" "coinbase" 5)
                  (worldOf (sinkWith [] [] 1 [])) in
     snd run = Pending
     /\ emitted (fst run) = []
     /\ Sink.opportunities (db (fst run)) = []
     /\ map Sink.name (Sink.exchanges (db (fst run))) = ["binance"; "coinbase"]%string)
  /\ (let run := handleOpportunity 1 (opportunity "binance" "coinbase" 5)
                   (worldOf (sinkWith [] [] 1 [None; Some "connection lost"%string])) in
      snd run = Ok tt
      /\ emitted (fst run) = []
      /\ console (fst run) =
         ["ARBITRAGE OPPORTUNITY DETECTED!"; "Error handling opportunity"]%string).
Proof.
  split.
  - intros [|fuel]; [vm_compute; repeat split|].
    cbv zeta.
    assert (E : handleOpportunity (S fuel) (opportunity "kraken" "coinbase" 5)
                  (worldOf (sinkWith [] [] 1 [])) = (afterUpsert, Pending)).
    { unfold handleOpportunity, tryCatch, bind. cbn.
      match goal with
      | |- context [saveOpportunityToDatabase fuel _ ?w] =>
          change w with afterUpsert
      end.
      rewrite (retry_without_kraken_row fuel). reflexivity. }
    rewrite E. vm_compute. repeat split.
  - vm_compute. repeat split.
Qed.

(** Appending one opportunity per detection time, in the given order, to
    the sink, through [handleOpportunity]. *)
Definition appendAll (timestamps : list Z) (w : World) : World :=
  fold_left
    (fun w ts => fst (handleOpportunity 1 (opportunity "binance" "coinbase" ts) w))
    timestamps w.

Definition emptySinkWithVenues : World :=
  worldOf (sinkWith ["binance"; "coinbase"]%string [] 1 []).

Definition storedTimestamps (w : World) : list Z :=
  map Sink.rowTimestamp (Sink.opportunities (db w)).

(** C6 at the failing input.  The clean-up reads the id of the 1000th
    newest row by timestamp and deletes the rows with a smaller id.  When
    the two oldest rows were stored against the order of their timestamps
    (ids 1 and 2 with timestamps 2 and 1), the 1000th newest of 1001 rows is
    the row with id 1, no id is smaller, nothing is deleted and the sink
    holds 1001 rows after the append; the same happens when the two oldest
    rows carry one timestamp and the store lists the one with the smaller id
    first.  When ids and timestamps agree, 1000 rows remain. *)
Theorem cleanup_compares_ids_not_timestamps :
  let swapped := appendAll ([2; 1]%Z ++ map Z.of_nat (seq 3 999))%list emptySinkWithVenues in
  let tied := appendAll ([1; 1]%Z ++ map Z.of_nat (seq 3 999))%list emptySinkWithVenues in
  let aligned := appendAll (map Z.of_nat (seq 1 1001)) emptySinkWithVenues in
  (List.length (storedTimestamps swapped) = 1001%nat
   /\ firstn 2 (storedTimestamps swapped) = [2; 1]%Z)
  /\ List.length (storedTimestamps tied) = 1001%nat
  /\ (List.length (storedTimestamps aligned) = 1000%nat
      /\ firstn 2 (storedTimestamps aligned) = [2; 3]%Z).
Proof. vm_compute. repeat split. Qed.

End PersistencePath.

Section MissingVenueRow.

Import Shared Persistence.

(** With the rows of Binance and Coinbase in the venue table and the row of
    another venue of the opportunity missing, the save never settles: the
    insert fails on the foreign key, the upserts change nothing and the
    retry starts over. *)
Lemma save_pending_without_row (fuel : nat) (o : ArbitrageOpportunity) (w : World) :
  Sink.faults (db w) = [] ->
  Sink.hasExchange (db w) "binance" = true ->
  Sink.hasExchange (db w) "coinbase" = true ->
  Sink.hasExchange (db w) (buyExchange o) && Sink.hasExchange (db w) (sellExchange o)
    = false ->
  saveOpportunityToDatabase fuel o w = (w, Pending).
Proof.
  destruct w as [[ex rows nid fl] c e]. cbn [db Sink.faults].
  intros -> Hb Hc Hmiss.
  induction fuel as [|fuel IH]; rewrite save_unfold;
    unfold tryCatch at 1; unfold bind at 1; unfold call at 1;
    unfold Sink.create, Sink.nextFault;
    cbn [db console emitted Sink.faults Sink.exchanges Sink.opportunities Sink.nextId];
    rewrite Hmiss;
    change (Str.includes Sink.foreignKeyMessage "Foreign key constraint") with true;
    cbv iota; unfold bind at 1;
    unfold ensureExchangesExist; cbn [forEach]; unfold bind, call, Sink.upsert,
      Sink.nextFault, ret;
    cbn [db console emitted Sink.faults Sink.exchanges Sink.opportunities Sink.nextId
         Sink.name];
    cbn [db] in Hb, Hc; rewrite Hb;
    cbn [db console emitted Sink.faults Sink.exchanges Sink.opportunities Sink.nextId
         Sink.name];
    rewrite Hc;
    cbn [db console emitted Sink.faults Sink.exchanges Sink.opportunities Sink.nextId
         Sink.name].
  - reflexivity.
  - exact IH.
Qed.

End MissingVenueRow.

Section DetectorGateCounterexample.

Import Shared Detector.
Local Open Scope float_scope.

Definition kucoinBid10200 : OrderBook := book "kucoin" "BTC-USDT" "10200" "10201" 1000.

(** The opportunity that a scan of the Binance and KuCoin books hands to
    the handler. *)
Definition binanceToKucoin : ArbitrageOpportunity :=
  Eval vm_compute in
    hd (opportunity "binance" "kucoin" 1000)
       (detectOpportunities Num.parseFloatDecimal
          (withBooks create [binanceAsk10000; kucoinBid10200]) 1000).

(** C1, as stated, fails, in three ways.  With a negative slippage buffer
    (set through [updateConfig]) a direction whose profit reaches
    [min_profit_percent + slippage_buffer] but stays below
    [min_profit_percent] is dropped by the first gate: both venues quote
    100, the fees leave a profit of about -0.7 %, the threshold is
    -0.5 + -1 = -1.5 %, and nothing is detected.  Two fresh books of
    different venues with one symbol need not be compared: the dollar book
    of Coinbase stands behind the Tether book of Coinbase, and the
    direction Binance -> Coinbase, whose profit on the dollar book passes
    both gates, is not detected.  And a direction that passes both gates
    and is handed to the handler need not be emitted: for Binance ->
    KuCoin the save never settles, the venue table having no row for
    KuCoin, and no event is emitted. *)
Lemma threshold_reached_but_not_emitted :
  (let d := withBooks
              (updateConfig create
                 {| newMinProfitPercent := None; newSlippageBuffer := Some (-1);
                    newMaxSpreadAge := None |})
              [book "binance" "BTCUSDT" "100" "100" 1000;
               book "coinbase" "BTC-USD" "100" "100" 1000] in
   let p := profitPercentOf Num.parseFloatDecimal d
              (book "binance" "BTCUSDT" "100" "100" 1000)
              (book "coinbase" "BTC-USD" "100" "100" 1000)
              (level "100" "1") (level "100" "1") in
   Num.geb p (minProfitPercent (config d) + slippageBuffer (config d)) = true
   /\ detectOpportunities Num.parseFloatDecimal d 1000 = [])
  /\ (let d := twoCoinbaseBooks in
      let p := profitPercentOf Num.parseFloatDecimal d binanceTether coinbaseDollar
                 (level "10200" "1") (level "10000" "1") in
      In binanceTether (JsMap.values (orderBooks d))
      /\ In coinbaseDollar (JsMap.values (orderBooks d))
      /\ isOrderBookFresh d 1000 binanceTether = true
      /\ isOrderBookFresh d 1000 coinbaseDollar = true
      /\ normalizeSymbol (symbol binanceTether) = normalizeSymbol (symbol coinbaseDollar)
      /\ (p <? minProfitPercent (config d)) = false
      /\ Num.geb p (minProfitPercent (config d) + slippageBuffer (config d)) = true
      /\ detectOpportunities Num.parseFloatDecimal d 1000 = [])
  /\ (detectOpportunities Num.parseFloatDecimal
        (withBooks create [binanceAsk10000; kucoinBid10200]) 1000 = [binanceToKucoin]
      /\ forall fuel,
           let run := Persistence.handleOpportunity fuel binanceToKucoin
                        emptySinkWithVenues in
           snd run = Persistence.Pending /\ Persistence.emitted (fst run) = []).
Proof.
  split; [|split].
  - vm_compute. split; reflexivity.
  - vm_compute. repeat split; auto.
  - split; [vm_compute; reflexivity|].
    intros fuel run.
    assert (E : Persistence.saveOpportunityToDatabase fuel binanceToKucoin
                  (announced emptySinkWithVenues)
                = (announced emptySinkWithVenues, Persistence.Pending))
      by (apply save_pending_without_row; reflexivity).
    split.
    + unfold run, Persistence.handleOpportunity, Persistence.tryCatch,
        Persistence.bind.
      change (Persistence.log "ARBITRAGE OPPORTUNITY DETECTED!" emptySinkWithVenues)
        with (announced emptySinkWithVenues, Persistence.Ok tt).
      cbv iota. rewrite E. reflexivity.
    + unfold run. rewrite handler_emits_when_saved, E. reflexivity.
Qed.

End DetectorGateCounterexample.

(* ------------------------------------------------------------------ *)
(** ** The order of binary64 numbers *)
(* ------------------------------------------------------------------ *)

Section FloatOrder.

Local Open Scope float_scope.

(** The comparison of two numbers, read off their IEEE 754 descriptions. *)
Definition cmpF (x y : float) : option comparison :=
  SFcompare (Prim2SF x) (Prim2SF y).

Lemma ltb_cmp x y : (x <? y) = match cmpF x y with Some Lt => true | _ => false end.
Proof. apply FloatAxioms.ltb_spec. Qed.

Lemma leb_cmp x y :
  (x <=? y) = match cmpF x y with Some (Lt | Eq) => true | _ => false end.
Proof. apply FloatAxioms.leb_spec. Qed.

Lemma eqb_cmp x y : (x =? y) = match cmpF x y with Some Eq => true | _ => false end.
Proof. apply FloatAxioms.eqb_spec. Qed.

Ltac order_facts :=
  repeat match goal with
  | H : (_ ?= _)%Z = Eq |- _ => apply Z.compare_eq_iff in H
  | H : (?a ?= ?b)%Z = Lt |- _ => change (a < b)%Z in H
  | H : (?a ?= ?b)%Z = Gt |- _ => change (a > b)%Z in H
  | H : (_ ?= _)%positive = Eq |- _ => apply Pos.compare_eq_iff in H
  | H : (?a ?= ?b)%positive = Lt |- _ => change (a < b)%positive in H
  | H : (?a ?= ?b)%positive = Gt |- _ => change (a > b)%positive in H
  end.

Lemma SFcompare_antisym (a b : spec_float) :
  SFcompare b a = option_map CompOpp (SFcompare a b).
Proof.
  destruct a as [sa|sa| |sa ma ea], b as [sb|sb| |sb mb eb]; simpl;
    try reflexivity;
    try (destruct sa; reflexivity); try (destruct sb; reflexivity);
    try (destruct sa, sb; reflexivity).
  destruct sa, sb; try reflexivity;
    rewrite (Z.compare_antisym ea eb);
    destruct (ea ?= eb)%Z; simpl; try reflexivity;
    change (Pos.compare_cont Eq ?p ?q) with (Pos.compare p q);
    rewrite (Pos.compare_antisym ma mb);
    destruct (ma ?= mb)%positive; reflexivity.
Qed.

Lemma SFcompare_trans_le (a b c : spec_float) :
  match SFcompare a b with Some (Lt | Eq) => True | _ => False end ->
  match SFcompare b c with Some (Lt | Eq) => True | _ => False end ->
  match SFcompare a c with Some (Lt | Eq) => True | _ => False end.
Proof.
  destruct a as [sa|sa| |sa ma ea], b as [sb|sb| |sb mb eb],
           c as [sc|sc| |sc mc ec]; simpl;
    try tauto;
    try (destruct sa; simpl; tauto);
    try (destruct sb; simpl; tauto);
    try (destruct sc; simpl; tauto);
    try (destruct sa, sb; simpl; tauto);
    try (destruct sa, sc; simpl; tauto);
    try (destruct sb, sc; simpl; tauto);
    try (destruct sa, sb, sc; simpl; tauto).
  change (Pos.compare_cont Eq) with Pos.compare.
  destruct sa, sb, sc; simpl; try tauto;
    destruct (ea ?= eb)%Z eqn:E1; simpl; try tauto;
    destruct (eb ?= ec)%Z eqn:E2; simpl; try tauto;
    destruct (ea ?= ec)%Z eqn:E3; simpl; try tauto;
    order_facts; try lia;
    destruct (ma ?= mb)%positive eqn:M1; simpl; try tauto;
    destruct (mb ?= mc)%positive eqn:M2; simpl; try tauto;
    destruct (ma ?= mc)%positive eqn:M3; simpl; try tauto;
    order_facts; subst; order_facts; try lia; try tauto.
Qed.

Lemma ltb_leb x y : (x <? y) = true -> (x <=? y) = true.
Proof. rewrite ltb_cmp, leb_cmp. destruct (cmpF x y) as [[]|]; auto. Qed.

Lemma not_ltb_leb x y :
  (x =? x) = true -> (y =? y) = true -> (x <? y) = false -> (y <=? x) = true.
Proof.
  rewrite !eqb_cmp, ltb_cmp, leb_cmp. unfold cmpF.
  rewrite (SFcompare_antisym (Prim2SF x) (Prim2SF y)).
  destruct (Prim2SF x) as [sa|sa| |sa ma ea], (Prim2SF y) as [sb|sb| |sb mb eb];
    simpl; try discriminate; try reflexivity;
    try (destruct sa; simpl; congruence); try (destruct sb; simpl; congruence);
    try (destruct sa, sb; simpl; congruence).
  intros _ _. destruct sa, sb; simpl; try congruence;
    destruct (ea ?= eb)%Z; simpl; try congruence;
    destruct (Pos.compare_cont Eq ma mb); simpl; congruence.
Qed.

Lemma leb_trans x y z : (x <=? y) = true -> (y <=? z) = true -> (x <=? z) = true.
Proof.
  rewrite !leb_cmp. unfold cmpF. intros H1 H2.
  pose proof (SFcompare_trans_le (Prim2SF x) (Prim2SF y) (Prim2SF z)) as T.
  destruct (SFcompare (Prim2SF x) (Prim2SF y)) as [[]|]; try discriminate;
  destruct (SFcompare (Prim2SF y) (Prim2SF z)) as [[]|]; try discriminate;
  destruct (SFcompare (Prim2SF x) (Prim2SF z)) as [[]|]; simpl in T; tauto.
Qed.

Lemma leb_neq_ltb x y : (x <=? y) = true -> (x =? y) = false -> (x <? y) = true.
Proof. rewrite leb_cmp, eqb_cmp, ltb_cmp. destruct (cmpF x y) as [[]|]; auto. Qed.

Lemma eqb_sym_false x y : (x =? y) = false -> (y =? x) = false.
Proof.
  rewrite !eqb_cmp. unfold cmpF.
  rewrite (SFcompare_antisym (Prim2SF x) (Prim2SF y)).
  destruct (SFcompare (Prim2SF x) (Prim2SF y)) as [[]|]; simpl; auto.
Qed.

Lemma gtb_zero_nonzero x : (0 <? x) = true -> (x =? 0) = false.
Proof.
  rewrite ltb_cmp, eqb_cmp. unfold cmpF.
  rewrite (SFcompare_antisym (Prim2SF 0) (Prim2SF x)).
  destruct (SFcompare (Prim2SF 0) (Prim2SF x)) as [[]|]; simpl; auto; discriminate.
Qed.

End FloatOrder.

(* ------------------------------------------------------------------ *)
(** ** Sorting with a comparator *)
(* ------------------------------------------------------------------ *)

Section SortFacts.

Context {A : Type}.
Variable compareFn : A -> A -> float.

Lemma insert_perm (x : A) (l : list A) :
  Permutation (JsArray.insert compareFn x l) (x :: l).
Proof.
  induction l as [|y l IH]; simpl; [apply Permutation_refl|].
  destruct (JsArray.comesAfter compareFn y x); [apply Permutation_refl|].
  eapply perm_trans; [apply perm_skip, IH | apply perm_swap].
Qed.

Lemma sort_from_perm (l : list A) : forall acc,
  Permutation (fold_left (fun acc x => JsArray.insert compareFn x acc) l acc)
              (l ++ acc)%list.
Proof.
  induction l as [|x l IH]; intros acc; simpl; [apply Permutation_refl|].
  eapply perm_trans; [apply IH|].
  eapply perm_trans; [apply Permutation_app_head, insert_perm|].
  apply Permutation_sym, Permutation_middle.
Qed.

Lemma sort_perm (l : list A) : Permutation (JsArray.sort compareFn l) l.
Proof.
  unfold JsArray.sort. eapply perm_trans; [apply sort_from_perm|].
  rewrite app_nil_r. apply Permutation_refl.
Qed.

(** The comparator orders the elements that satisfy [D] as the relation
    [R] does. *)
Variable D : A -> Prop.
Variable R : A -> A -> Prop.
Hypothesis after_R :
  forall x y, D x -> D y -> JsArray.comesAfter compareFn y x = true -> R x y.
Hypothesis not_after_R :
  forall x y, D x -> D y -> JsArray.comesAfter compareFn y x = false -> R y x.
Hypothesis R_trans :
  forall a b c, D a -> D b -> D c -> R a b -> R b c -> R a c.

Lemma insert_sorted (x : A) (l : list A) :
  D x -> Forall D l -> StronglySorted R l ->
  StronglySorted R (JsArray.insert compareFn x l).
Proof.
  intros Dx. induction l as [|y l IH]; intros Dl Sl; simpl.
  - constructor; constructor.
  - inversion Dl as [|? ? Dy Dl']; subst.
    inversion Sl as [|? ? Sl' Hy]; subst.
    destruct (JsArray.comesAfter compareFn y x) eqn:E.
    + constructor; [exact Sl|].
      constructor; [now apply after_R|].
      rewrite Forall_forall in *. intros z Hz.
      apply (R_trans x y z); auto.
    + constructor; [now apply IH|].
      apply (Permutation_Forall (Permutation_sym (insert_perm x l))).
      constructor; [now apply not_after_R | exact Hy].
Qed.

Lemma sort_sorted (l : list A) :
  Forall D l -> StronglySorted R (JsArray.sort compareFn l).
Proof.
  unfold JsArray.sort.
  assert (G : forall acc, Forall D acc -> StronglySorted R acc -> Forall D l ->
            StronglySorted R
              (fold_left (fun acc x => JsArray.insert compareFn x acc) l acc)).
  { induction l as [|x l IH]; intros acc Dacc Sacc Dl; simpl; [exact Sacc|].
    inversion Dl; subst. apply IH; auto.
    - apply (Permutation_Forall (Permutation_sym (insert_perm x acc))).
      now constructor.
    - now apply insert_sorted. }
  intros Dl. apply G; auto; constructor.
Qed.

End SortFacts.

(* ------------------------------------------------------------------ *)
(** ** More facts about [JsMap] *)
(* ------------------------------------------------------------------ *)

Section JsMapEntries.

Context {V : Type}.
Implicit Types (m : JsMap.t V) (k : string) (v : V).

Lemma In_set_inv m k v k' v' :
  In (k', v') (JsMap.set m k v) -> (k' = k /\ v' = v) \/ In (k', v') m.
Proof.
  induction m as [|[k0 v0] m IH]; simpl.
  - intros [[= <- <-] | []]. now left.
  - destruct (String.eqb_spec k0 k) as [->|Hne]; simpl.
    + intros [[= <- <-] | H]; [now left | right; now right].
    + intros [H | H]; [right; now left|].
      destruct (IH H); [now left | right; now right].
Qed.

Lemma In_delete_inv m k x : In x (JsMap.delete m k) -> In x m.
Proof.
  induction m as [|[k0 v0] m IH]; simpl; [tauto|].
  destruct (String.eqb k0 k); simpl; [now right | intuition].
Qed.

Lemma NoDup_keys_delete m k :
  NoDup (JsMap.keys m) -> NoDup (JsMap.keys (JsMap.delete m k)).
Proof.
  unfold JsMap.keys. induction m as [|[k0 v0] m IH]; simpl; intros H; [exact H|].
  inversion H as [|? ? Hnotin Hnd]; subst.
  destruct (String.eqb k0 k); simpl; [exact Hnd|].
  constructor; [|auto].
  intros Hin. apply Hnotin. apply in_map_iff in Hin.
  destruct Hin as ([k1 v1] & E & Hin). simpl in E. subst k1.
  apply In_delete_inv in Hin. now apply (in_map fst) in Hin.
Qed.

Lemma length_set m k v : (List.length (JsMap.set m k v) <= S (List.length m))%nat.
Proof.
  induction m as [|[k0 v0] m IH]; simpl; [lia|].
  destruct (String.eqb k0 k); simpl; lia.
Qed.

Lemma length_delete m k : (List.length (JsMap.delete m k) <= List.length m)%nat.
Proof.
  induction m as [|[k0 v0] m IH]; simpl; [lia|].
  destruct (String.eqb k0 k); simpl; lia.
Qed.

End JsMapEntries.

(* ------------------------------------------------------------------ *)
(** ** The sides of an emitted order book after one update *)
(* ------------------------------------------------------------------ *)

Section OrderBookSides.

Import Shared.
Local Open Scope float_scope.

Variable parseFloat : string -> float.

(** The price texts [ps] denote numbers that the comparator of the clients
    can order: none parses to [NaN], the sign of a difference of two of them
    is the order of the two (a fact of binary64 subtraction, checked here on
    the prices at hand), and different texts denote different numbers (the
    venue writes a price in one way). *)
Definition wellFormedPrices (ps : list string) : bool :=
  forallb
    (fun p =>
       (parseFloat p =? parseFloat p)
       && forallb
            (fun q =>
               Bool.eqb (0 <? parseFloat q - parseFloat p)
                        (parseFloat p <? parseFloat q)
               && (String.eqb p q || negb (parseFloat p =? parseFloat q)))
            ps)
    ps.

Lemma wellFormed_number ps p :
  wellFormedPrices ps = true -> In p ps -> (parseFloat p =? parseFloat p) = true.
Proof.
  unfold wellFormedPrices. rewrite forallb_forall. intros H Hp.
  apply H in Hp. now apply andb_prop in Hp.
Qed.

Lemma wellFormed_sign ps p q :
  wellFormedPrices ps = true -> In p ps -> In q ps ->
  (0 <? parseFloat q - parseFloat p) = (parseFloat p <? parseFloat q).
Proof.
  unfold wellFormedPrices. rewrite forallb_forall. intros H Hp Hq.
  apply H in Hp. apply andb_prop in Hp. destruct Hp as [_ Hp].
  rewrite forallb_forall in Hp. apply Hp in Hq.
  apply andb_prop in Hq. destruct Hq as [Hq _]. now apply Bool.eqb_prop in Hq.
Qed.

Lemma wellFormed_distinct ps p q :
  wellFormedPrices ps = true -> In p ps -> In q ps -> p <> q ->
  (parseFloat p =? parseFloat q) = false.
Proof.
  unfold wellFormedPrices. rewrite forallb_forall. intros H Hp Hq Hne.
  apply H in Hp. apply andb_prop in Hp. destruct Hp as [_ Hp].
  rewrite forallb_forall in Hp. apply Hp in Hq.
  apply andb_prop in Hq. destruct Hq as [_ Hq].
  apply orb_prop in Hq. destruct Hq as [Hq | Hq].
  - apply String.eqb_eq in Hq. contradiction.
  - now apply negb_true_iff in Hq.
Qed.

(** [u] may stand before [v] on the side; strictly so in [before]. *)
Definition notAfter (side : Binance.Side) (u v : OrderBookEntry) : Prop :=
  match side with
  | Binance.Bids => parseFloat (price v) <=? parseFloat (price u)
  | Binance.Asks => parseFloat (price u) <=? parseFloat (price v)
  end = true.

Definition before (side : Binance.Side) (u v : OrderBookEntry) : Prop :=
  match side with
  | Binance.Bids => parseFloat (price v) <? parseFloat (price u)
  | Binance.Asks => parseFloat (price u) <? parseFloat (price v)
  end = true.

(** Bids strictly descending by price, asks strictly ascending. *)
Definition strictlyOrdered (side : Binance.Side) (l : list OrderBookEntry) : Prop :=
  StronglySorted (before side) l.

Definition nonZero (e : OrderBookEntry) : Prop :=
  (parseFloat (quantity e) =? 0) = false.

Lemma sorted_side (side : Binance.Side) (ps : list string) (l : list OrderBookEntry) :
  wellFormedPrices ps = true -> incl (map price l) ps ->
  StronglySorted (notAfter side)
    (JsArray.sort (Binance.compareFn parseFloat side) l).
Proof.
  intros Hwf Hincl.
  apply (sort_sorted (Binance.compareFn parseFloat side)
           (fun e => In (price e) ps) (notAfter side)).
  - intros x y Dx Dy. unfold JsArray.comesAfter, Binance.compareFn, notAfter.
    destruct side.
    + rewrite (wellFormed_sign ps (price y) (price x)) by assumption. apply ltb_leb.
    + rewrite (wellFormed_sign ps (price x) (price y)) by assumption. apply ltb_leb.
  - intros x y Dx Dy. unfold JsArray.comesAfter, Binance.compareFn, notAfter.
    pose proof (wellFormed_number ps _ Hwf Dx).
    pose proof (wellFormed_number ps _ Hwf Dy).
    destruct side.
    + rewrite (wellFormed_sign ps (price y) (price x)) by assumption.
      now apply not_ltb_leb.
    + rewrite (wellFormed_sign ps (price x) (price y)) by assumption.
      now apply not_ltb_leb.
  - intros a b c _ _ _. unfold notAfter. destruct side; intros H1 H2.
    + exact (leb_trans _ _ _ H2 H1).
    + exact (leb_trans _ _ _ H1 H2).
  - apply Forall_forall. intros e He. apply Hincl. now apply in_map.
Qed.

Lemma strict_side (side : Binance.Side) (ps : list string) (l : list OrderBookEntry) :
  wellFormedPrices ps = true -> incl (map price l) ps -> NoDup (map price l) ->
  StronglySorted (notAfter side) l -> strictlyOrdered side l.
Proof.
  intros Hwf. unfold strictlyOrdered.
  induction l as [|u l IH]; intros Hincl Hnd Hs; [constructor|].
  simpl in Hincl, Hnd. apply incl_cons_inv in Hincl. destruct Hincl as [Hu Hl].
  inversion Hnd as [|? ? Hnotin Hnd']; subst.
  inversion Hs as [|? ? Hs' Hall]; subst.
  constructor; [now apply IH|].
  rewrite Forall_forall in *. intros v Hv.
  assert (Hne : price u <> price v).
  { intros E. apply Hnotin. rewrite E. now apply in_map. }
  assert (Hpv : In (price v) ps) by (apply Hl; now apply in_map).
  specialize (Hall v Hv). unfold notAfter in Hall. unfold before.
  destruct side.
  - apply leb_neq_ltb; [exact Hall|].
    apply (wellFormed_distinct ps); auto.
  - apply leb_neq_ltb; [exact Hall|].
    apply (wellFormed_distinct ps); auto.
Qed.

End OrderBookSides.

Section EmittedBooks.

Import Shared.
Local Open Scope float_scope.

Variable parseFloat : string -> float.

Local Notation "'wellFormed'" := (wellFormedPrices parseFloat).

(** What holds of a side [r] emitted after [updates] were applied to the
    stored side [existing]. *)
Definition sideOK (side : Binance.Side) (existing : list OrderBookEntry)
  (updates : list (string * string)) (r : list OrderBookEntry) : Prop :=
  NoDup (map price r)
  /\ strictlyOrdered parseFloat side r
  /\ (Forall (nonZero parseFloat) existing -> Forall (nonZero parseFloat) r)
  /\ (List.length r <= List.length existing + List.length updates)%nat.

(** *** Binance: the price map of [updateOrderBookSide] *)

Definition priceMapOf (existing : list OrderBookEntry)
  (updates : list (string * string)) : JsMap.t string :=
  fold_left (Binance.applyUpdate parseFloat) updates
    (fold_left (fun m entry => JsMap.set m (price entry) (quantity entry))
       existing JsMap.empty).

(** An entry of the map comes from a stored level or from an update with a
    non-zero quantity. *)
Definition fromBook (existing : list OrderBookEntry) (kv : string * string) : Prop :=
  exists e, In e existing /\ price e = fst kv /\ quantity e = snd kv.

Definition fromUpdate (updates : list (string * string)) (kv : string * string)
  : Prop :=
  In kv updates /\ (parseFloat (snd kv) =? 0) = false.

Lemma existing_map_inv (existing : list OrderBookEntry) : forall m0,
  let m := fold_left (fun m entry => JsMap.set m (price entry) (quantity entry))
             existing m0 in
  (NoDup (JsMap.keys m0) -> NoDup (JsMap.keys m))
  /\ (forall kv, In kv m -> In kv m0 \/ fromBook existing kv)
  /\ (List.length m <= List.length m0 + List.length existing)%nat.
Proof.
  induction existing as [|e l IH]; intros m0; simpl.
  - repeat split; auto. lia.
  - destruct (IH (JsMap.set m0 (price e) (quantity e))) as (H1 & H2 & H3).
    repeat split.
    + intros Hnd. apply H1. now apply NoDup_keys_set.
    + intros [k v] Hin. apply H2 in Hin. destruct Hin as [Hin | (e' & He' & Hp)].
      * apply In_set_inv in Hin. destruct Hin as [[-> ->] | Hin]; [|now left].
        right. exists e. simpl. auto.
      * right. exists e'. simpl. auto.
    + pose proof (length_set m0 (price e) (quantity e)). lia.
Qed.

Lemma update_map_inv (updates : list (string * string)) : forall m0,
  let m := fold_left (Binance.applyUpdate parseFloat) updates m0 in
  (NoDup (JsMap.keys m0) -> NoDup (JsMap.keys m))
  /\ (forall kv, In kv m -> In kv m0 \/ fromUpdate updates kv)
  /\ (List.length m <= List.length m0 + List.length updates)%nat.
Proof.
  induction updates as [|[p q] l IH]; intros m0; simpl.
  - repeat split; auto. lia.
  - destruct (IH (Binance.applyUpdate parseFloat m0 (p, q))) as (H1 & H2 & H3).
    unfold Binance.applyUpdate in *.
    destruct (parseFloat q =? 0) eqn:Hq.
    + repeat split.
      * intros Hnd. apply H1. now apply NoDup_keys_delete.
      * intros kv Hin. apply H2 in Hin. destruct Hin as [Hin | [Hin Hz]].
        -- left. now apply In_delete_inv in Hin.
        -- right. split; [now right | exact Hz].
      * pose proof (length_delete m0 p). lia.
    + repeat split.
      * intros Hnd. apply H1. now apply NoDup_keys_set.
      * intros [k v] Hin. apply H2 in Hin. destruct Hin as [Hin | [Hin Hz]].
        -- apply In_set_inv in Hin. destruct Hin as [[-> ->] | Hin]; [|now left].
           right. split; [now left | exact Hq].
        -- right. split; [now right | exact Hz].
      * pose proof (length_set m0 p q). lia.
Qed.

Lemma priceMap_inv existing updates :
  NoDup (JsMap.keys (priceMapOf existing updates))
  /\ (forall kv, In kv (priceMapOf existing updates) ->
        fromBook existing kv \/ fromUpdate updates kv)
  /\ (List.length (priceMapOf existing updates)
      <= List.length existing + List.length updates)%nat.
Proof.
  unfold priceMapOf.
  destruct (existing_map_inv existing JsMap.empty) as (A1 & A2 & A3).
  destruct (update_map_inv updates
              (fold_left (fun m entry => JsMap.set m (price entry) (quantity entry))
                 existing JsMap.empty)) as (B1 & B2 & B3).
  repeat split.
  - apply B1, A1. constructor.
  - intros kv Hin. apply B2 in Hin. destruct Hin as [Hin | Hin]; [|now right].
    apply A2 in Hin. destruct Hin as [[] | Hin]. now left.
  - simpl in A3. lia.
Qed.

Lemma prices_of_entries (m : JsMap.t string) :
  map price (map Binance.toEntry m) = JsMap.keys m.
Proof. unfold JsMap.keys. rewrite map_map. reflexivity. Qed.

Lemma binance_side (existing : list OrderBookEntry)
  (updates : list (string * string)) (side : Binance.Side) :
  wellFormed (map price existing ++ map fst updates)%list = true ->
  sideOK side existing updates
    (Binance.updateOrderBookSide parseFloat existing updates side).
Proof.
  intros Hwf.
  change (Binance.updateOrderBookSide parseFloat existing updates side)
    with (JsArray.sort (Binance.compareFn parseFloat side)
            (map Binance.toEntry (priceMapOf existing updates))).
  destruct (priceMap_inv existing updates) as (Hnd & Horigin & Hlen).
  set (entries := map Binance.toEntry (priceMapOf existing updates)) in *.
  pose proof (sort_perm (Binance.compareFn parseFloat side) entries) as Hperm.
  assert (Hincl : incl (map price entries)
                    (map price existing ++ map fst updates)%list).
  { intros p Hp. unfold entries in Hp. rewrite prices_of_entries in Hp.
    unfold JsMap.keys in Hp. apply in_map_iff in Hp.
    destruct Hp as (kv & <- & Hin). apply in_or_app.
    destruct (Horigin kv Hin) as [(e & He & Hpe & _) | [Hu _]].
    - left. rewrite <- Hpe. now apply in_map.
    - right. now apply in_map. }
  assert (HnoDup : NoDup (map price
            (JsArray.sort (Binance.compareFn parseFloat side) entries))).
  { apply (Permutation_NoDup (l := map price entries)).
    - apply Permutation_map, Permutation_sym, Hperm.
    - unfold entries. now rewrite prices_of_entries. }
  assert (Hincl' : incl (map price
            (JsArray.sort (Binance.compareFn parseFloat side) entries))
            (map price existing ++ map fst updates)%list).
  { intros p Hp. apply Hincl.
    apply (Permutation_in p (Permutation_map price Hperm)). exact Hp. }
  repeat split.
  - exact HnoDup.
  - apply (strict_side parseFloat side _ _ Hwf Hincl' HnoDup).
    now apply (sorted_side parseFloat side _ _ Hwf).
  - intros Hnz.
    apply (Permutation_Forall (Permutation_sym Hperm)).
    apply Forall_forall. intros e He. unfold entries in He.
    apply in_map_iff in He. destruct He as (kv & <- & Hin).
    rewrite Forall_forall in Hnz. unfold nonZero. simpl.
    destruct (Horigin kv Hin) as [(e & He & _ & Hqe) | [_ Hz]].
    + rewrite <- Hqe. now apply Hnz.
    + exact Hz.
  - rewrite (Permutation_length Hperm). unfold entries. rewrite length_map. exact Hlen.
Qed.

(** *** Bybit: the deltas of [handleOrderBookUpdate] *)

Lemma NoDup_map_filter {A B : Type} (f : A -> B) (g : A -> bool) (l : list A) :
  NoDup (map f l) -> NoDup (map f (filter g l)).
Proof.
  induction l as [|x l IH]; simpl; intros H; [constructor|].
  inversion H as [|? ? Hnotin Hnd]; subst.
  destruct (g x); simpl; [|auto].
  constructor; [|auto].
  intros Hin. apply Hnotin. apply in_map_iff in Hin.
  destruct Hin as (y & E & Hy). apply filter_In in Hy.
  rewrite <- E. apply in_map. tauto.
Qed.

Lemma NoDup_snoc {A : Type} (l : list A) (x : A) :
  NoDup l -> ~ In x l -> NoDup (l ++ [x])%list.
Proof.
  intros Hnd Hx. apply (Permutation_NoDup (l := x :: l)).
  - apply Permutation_cons_append.
  - now constructor.
Qed.

Lemma bybit_update_inv (existing : list OrderBookEntry) (p q : string) :
  let r := Bybit.updateOrderBookSide parseFloat existing p q in
  (NoDup (map price existing) -> NoDup (map price r))
  /\ (Forall (nonZero parseFloat) existing -> Forall (nonZero parseFloat) r)
  /\ incl (map price r) (p :: map price existing)
  /\ (List.length r <= S (List.length existing))%nat.
Proof.
  unfold Bybit.updateOrderBookSide, Num.gtb.
  set (kept := filter (fun entry => negb (String.eqb (price entry) p)) existing).
  assert (Hkept : incl kept existing).
  { intros e He. unfold kept in He. apply filter_In in He. tauto. }
  assert (Hnotin : ~ In p (map price kept)).
  { intros Hin. apply in_map_iff in Hin. destruct Hin as (e & E & He).
    unfold kept in He. apply filter_In in He. destruct He as [_ He].
    rewrite E, String.eqb_refl in He. discriminate. }
  assert (Hlen : (List.length kept <= List.length existing)%nat).
  { unfold kept. apply filter_length_le. }
  destruct (0 <? parseFloat q) eqn:Hq; repeat split.
  - intros Hnd. rewrite map_app. simpl. apply NoDup_snoc; [|exact Hnotin].
    unfold kept. now apply NoDup_map_filter.
  - intros Hnz. apply Forall_app. split.
    + rewrite Forall_forall in *. auto.
    + constructor; [|constructor]. unfold nonZero. simpl.
      now apply gtb_zero_nonzero.
  - rewrite map_app. simpl. intros x Hx. apply in_app_or in Hx.
    destruct Hx as [Hx | [<- | []]]; [right | now left].
    apply in_map_iff in Hx. destruct Hx as (e & <- & He). apply in_map. auto.
  - rewrite length_app. simpl. lia.
  - intros Hnd. unfold kept. now apply NoDup_map_filter.
  - intros Hnz. rewrite Forall_forall in *. auto.
  - intros x Hx. right. apply in_map_iff in Hx. destruct Hx as (e & <- & He).
    apply in_map. auto.
  - lia.
Qed.

Lemma bybit_deltas_inv (updates : list (string * string)) : forall existing,
  let r := Bybit.applyDeltas parseFloat existing updates in
  (NoDup (map price existing) -> NoDup (map price r))
  /\ (Forall (nonZero parseFloat) existing -> Forall (nonZero parseFloat) r)
  /\ incl (map price r) (map price existing ++ map fst updates)%list
  /\ (List.length r <= List.length existing + List.length updates)%nat.
Proof.
  unfold Bybit.applyDeltas.
  induction updates as [|[p q] l IH]; intros existing; simpl.
  - repeat split; auto. rewrite app_nil_r. apply incl_refl. lia.
  - destruct (bybit_update_inv existing p q) as (A1 & A2 & A3 & A4).
    destruct (IH (Bybit.updateOrderBookSide parseFloat existing p q))
      as (B1 & B2 & B3 & B4).
    repeat split; auto.
    + intros x Hx. apply B3 in Hx. apply in_app_or in Hx. apply in_or_app.
      destruct Hx as [Hx | Hx]; [|right; now right].
      apply A3 in Hx. destruct Hx as [<- | Hx]; [right; now left | now left].
    + lia.
Qed.

Lemma bybit_side (existing : list OrderBookEntry)
  (updates : list (string * string)) (side : Binance.Side) :
  wellFormed (map price existing ++ map fst updates)%list = true ->
  NoDup (map price existing) ->
  sideOK side existing updates
    (JsArray.sort (Binance.compareFn parseFloat side)
       (Bybit.applyDeltas parseFloat existing updates)).
Proof.
  intros Hwf Hnd0.
  destruct (bybit_deltas_inv updates existing) as (Hnd & Hnz & Hincl & Hlen).
  set (l := Bybit.applyDeltas parseFloat existing updates) in *.
  pose proof (sort_perm (Binance.compareFn parseFloat side) l) as Hperm.
  assert (HnoDup : NoDup (map price
            (JsArray.sort (Binance.compareFn parseFloat side) l))).
  { apply (Permutation_NoDup (l := map price l)); auto.
    apply Permutation_map, Permutation_sym, Hperm. }
  assert (Hincl' : incl (map price
            (JsArray.sort (Binance.compareFn parseFloat side) l))
            (map price existing ++ map fst updates)%list).
  { intros p Hp. apply Hincl.
    apply (Permutation_in p (Permutation_map price Hperm)). exact Hp. }
  repeat split.
  - exact HnoDup.
  - apply (strict_side parseFloat side _ _ Hwf Hincl' HnoDup).
    now apply (sorted_side parseFloat side _ _ Hwf).
  - intros H. apply (Permutation_Forall (Permutation_sym Hperm)). auto.
  - rewrite (Permutation_length Hperm). exact Hlen.
Qed.

(** One update.  An order book emitted by the Binance client, or by the
    Bybit client after a delta message, has on each side one level per price
    text, bids strictly descending and asks strictly ascending by parsed
    price, and no zero-quantity level when the stored side had none,
    provided the prices of the stored side and of the update are well formed
    (and, for Bybit, the stored side had one level per price).  A side is
    not cut to the depth limit K: it holds at most the stored levels plus
    the entries of the update. *)
Theorem sides_after_one_update :
  (forall books update books' emittedBook,
     Binance.handleDepthUpdate parseFloat books update = (books', Some emittedBook) ->
     exists existing,
       JsMap.get books (Binance.s update) = Some existing
       /\ (wellFormed (map price (bids existing) ++ map fst (Binance.b update))%list
             = true ->
           sideOK Binance.Bids (bids existing) (Binance.b update) (bids emittedBook))
       /\ (wellFormed (map price (asks existing) ++ map fst (Binance.a update))%list
             = true ->
           sideOK Binance.Asks (asks existing) (Binance.a update) (asks emittedBook)))
  /\ (forall books now update books' emittedBook,
        Bybit.handleOrderBookUpdate parseFloat books now update
          = (books', Some emittedBook) ->
        Bybit.type update <> "snapshot"%string ->
        exists existing,
          JsMap.get books (Bybit.s (Bybit.data update)) = Some existing
          /\ (wellFormed
                (map price (bids existing) ++ map fst (Bybit.b (Bybit.data update)))%list
                = true ->
              NoDup (map price (bids existing)) ->
              sideOK Binance.Bids (bids existing) (Bybit.b (Bybit.data update))
                (bids emittedBook))
          /\ (wellFormed
                (map price (asks existing) ++ map fst (Bybit.a (Bybit.data update)))%list
                = true ->
              NoDup (map price (asks existing)) ->
              sideOK Binance.Asks (asks existing) (Bybit.a (Bybit.data update))
                (asks emittedBook))).
Proof.
  split.
  - intros books update books' ob H. unfold Binance.handleDepthUpdate in H.
    destruct (JsMap.get books (Binance.s update)) as [existing|]; [|discriminate].
    destruct (Binance.isOldUpdate existing update); [discriminate|].
    injection H as _ <-. exists existing. split; [reflexivity|].
    split; intros Hwf; simpl; now apply binance_side.
  - intros books now update books' ob H Htype.
    unfold Bybit.handleOrderBookUpdate in H.
    destruct (JsMap.get books (Bybit.s (Bybit.data update))) as [existing|];
      [|discriminate].
    apply String.eqb_neq in Htype. rewrite Htype in H.
    injection H as _ <-. exists existing. split; [reflexivity|].
    split; intros Hwf Hnd; simpl.
    + change (Bybit.descending parseFloat)
        with (Binance.compareFn parseFloat Binance.Bids).
      now apply bybit_side.
    + change (Bybit.ascending parseFloat)
        with (Binance.compareFn parseFloat Binance.Asks).
      now apply bybit_side.
Qed.

End EmittedBooks.

Section EmittedBookExamples.

Import Shared.

(** The decimal numeral of a natural number, as a venue would send it. *)
Definition numeral (n : nat) : string := NilEmpty.string_of_uint (Nat.to_uint n).

(** [count] levels of quantity 1 at the prices [first], [first + 1], ... *)
Definition levelsFrom (first count : nat) : list (string * string) :=
  map (fun n => (numeral n, "1")) (seq first count).

(** A Binance book primed with 50 levels a side (bids 1049 down to 1000,
    asks 1050 up to 1099), and an update that adds the bid 999 and the ask
    1100. *)
Definition primedBinance : JsMap.t OrderBook :=
  JsMap.set JsMap.empty "BTCUSDT"
    (Binance.snapshotBook "BTCUSDT"
       {| Binance.snapLastUpdateId := 10;
          Binance.snapBids := rev (levelsFrom 1000 50);
          Binance.snapAsks := levelsFrom 1050 50 |} 0).

Definition addOneLevel : Binance.DepthUpdate :=
  {| Binance.E := 1; Binance.s := "BTCUSDT"; Binance.U := 11; Binance.u := 12;
     Binance.b := [("999", "2")]; Binance.a := [("1100", "2")] |}.

(** The same for Bybit, primed with 100 levels a side. *)
Definition primedBybit : JsMap.t OrderBook :=
  JsMap.set JsMap.empty "BTCUSDT"
    (Bybit.snapshotBook "BTCUSDT"
       {| Bybit.s := "BTCUSDT";
          Bybit.b := rev (levelsFrom 1000 100);
          Bybit.a := levelsFrom 1100 100 |} 0).

Definition addOneDelta : Bybit.OrderBookUpdate :=
  {| Bybit.topic := "orderbook.50.BTCUSDT"; Bybit.type := "delta";
     Bybit.data := {| Bybit.s := "BTCUSDT"; Bybit.b := [("999", "2")];
                      Bybit.a := [("1200", "2")] |} |}.

Definition sideLengths (ob : option OrderBook) : option (nat * nat) :=
  option_map (fun ob => (List.length (bids ob), List.length (asks ob))) ob.

(** The stored bids 100, 99, 98.5 receive an update that removes 99, adds
    101 and 98.7 and changes the quantity at 100. *)
Definition smallBook : JsMap.t OrderBook :=
  JsMap.set JsMap.empty "BTCUSDT"
    {| symbol := "BTCUSDT"; exchange := "binance";
       bids := [level "100" "1"; level "99" "2"; level "98.5" "1"];
       asks := [level "100.5" "1"];
       timestamp := 0; lastUpdateId := Some 10%Z |}.

Definition smallUpdate : Binance.DepthUpdate :=
  {| Binance.E := 1; Binance.s := "BTCUSDT"; Binance.U := 11; Binance.u := 12;
     Binance.b := [("99", "0.000"); ("101", "3"); ("98.7", "1"); ("100", "5")];
     Binance.a := [] |}.

(** The theorem at this update: the emitted bids are 101, 100, 98.7, 98.5. *)
Lemma emitted_bids_example :
  sideOK Num.parseFloatDecimal Binance.Bids
    [level "100" "1"; level "99" "2"; level "98.5" "1"]
    (Binance.b smallUpdate)
    [level "101" "3"; level "100" "5"; level "98.7" "1"; level "98.5" "1"].
Proof.
  destruct (proj1 (sides_after_one_update Num.parseFloatDecimal)
              smallBook smallUpdate
              (fst (Binance.handleDepthUpdate Num.parseFloatDecimal smallBook smallUpdate))
              {| symbol := "BTCUSDT"; exchange := "binance";
                 bids := [level "101" "3"; level "100" "5";
                          level "98.7" "1"; level "98.5" "1"];
                 asks := [level "100.5" "1"];
                 timestamp := 1; lastUpdateId := Some 12%Z |}
              eq_refl)
    as (existing & Hget & Hbids & _).
  injection Hget as <-.
  apply Hbids. reflexivity.
Defined.

End EmittedBookExamples.

(* ------------------------------------------------------------------ *)
(** ** The detector without a slippage buffer *)
(* ------------------------------------------------------------------ *)

Section NoSlippage.

Import Shared Detector.
Local Open Scope float_scope.

Lemma SFcompare_add_zero (x y : spec_float) :
  SFcompare (SF64add x (S754_zero false)) y = SFcompare x y.
Proof.
  destruct x as [s|s| |s m e]; try reflexivity.
  destruct s; reflexivity.
Qed.

(** Adding [0] changes no comparison, and a number that is at least [m] is
    not below [m]: with a zero buffer the first gate follows from the
    second. *)
Lemma threshold_implies_first_gate (p m : float) :
  Num.geb p (m + 0) = true -> (p <? m) = false.
Proof.
  unfold Num.geb. rewrite leb_cmp, ltb_cmp. unfold cmpF.
  rewrite FloatAxioms.add_spec.
  change (Prim2SF 0) with (S754_zero false).
  rewrite SFcompare_add_zero.
  rewrite (SFcompare_antisym (Prim2SF m) (Prim2SF p)).
  destruct (SFcompare (Prim2SF m) (Prim2SF p)) as [[]|]; simpl; congruence.
Qed.

Variable parseFloat : string -> float.

(** X1.  While the slippage buffer keeps its initial value [0]: let [A] and
    [B] be the fresh books that the scan of the normalised symbol [s] holds
    for two different venues, each with a top level, no other fresh book of
    either venue normalising to [s].  The scan hands the direction "buy on
    A, sell on B" to [handleOpportunity] exactly when its profit percentage
    is at least [min_profit_percent + slippage_buffer]: the first gate
    follows from the second. *)
Theorem opportunity_emitted_iff_threshold_without_slippage
  (d : t) (now : Z) (A B : OrderBook) (s : string) (ask bid : OrderBookEntry) :
  slippageBuffer (config d) = 0 ->
  In A (JsMap.values (orderBooks d)) ->
  In B (JsMap.values (orderBooks d)) ->
  normalizeSymbol (symbol A) = s -> normalizeSymbol (symbol B) = s ->
  isOrderBookFresh d now A = true -> isOrderBookFresh d now B = true ->
  exchange A <> exchange B ->
  exchange A <> EmptyString -> exchange B <> EmptyString ->
  (forall ob, In ob (JsMap.values (orderBooks d)) ->
     normalizeSymbol (symbol ob) = s -> isOrderBookFresh d now ob = true ->
     (exchange ob = exchange A -> ob = A) /\ (exchange ob = exchange B -> ob = B)) ->
  hd_error (asks A) = Some ask -> hd_error (bids B) = Some bid ->
  let profit_percent := profitPercentOf parseFloat d A B bid ask in
  (exists o, In o (detectOpportunities parseFloat d now)
             /\ oppSymbol o = s
             /\ buyExchange o = exchange A /\ sellExchange o = exchange B)
  <->
  Num.geb profit_percent
    (minProfitPercent (config d) + slippageBuffer (config d)) = true.
Proof.
  intros Hs HA HB HsA HsB HfA HfB Hne HneA HneB Huniq Hask Hbid p.
  assert (Hpair : scannedPair d now s A B).
  { unfold scannedPair. repeat (split; [assumption|]). exact Huniq. }
  split.
  - intros Hemit.
    now apply (emitted_passes_gates parseFloat d now s A B ask bid Hpair Hask Hbid).
  - intros H. rewrite Hs in H.
    apply (gates_passed_emitted parseFloat d now s A B ask bid); auto.
    + now apply threshold_implies_first_gate.
    + rewrite Hs. exact H.
Qed.

End NoSlippage.

Section NoSlippageExample.

Import Shared Detector.

(** The theorem at the scan of [detectorAtThreshold]. *)
Lemma opportunity_emitted_without_slippage_example :
  exists o, In o (detectOpportunities Num.parseFloatDecimal detectorAtThreshold 1000)
    /\ oppSymbol o = "BTCUSD"
    /\ buyExchange o = exchange binanceAsk10000
    /\ sellExchange o = exchange coinbaseBid10200.
Proof.
  apply (opportunity_emitted_iff_threshold_without_slippage Num.parseFloatDecimal
           detectorAtThreshold 1000 binanceAsk10000 coinbaseBid10200
           "BTCUSD" (level "10000" "1") (level "10200" "1")).
  - reflexivity.
  - simpl. auto.
  - simpl. auto.
  - reflexivity.
  - reflexivity.
  - reflexivity.
  - reflexivity.
  - discriminate.
  - discriminate.
  - discriminate.
  - intros ob [<- | [<- | []]] _ _; split; intros H;
      first [reflexivity | discriminate H].
  - reflexivity.
  - reflexivity.
  - vm_compute. reflexivity.
Defined.

End NoSlippageExample.

(* ------------------------------------------------------------------ *)
(** ** The symbol round trip where it holds *)
(* ------------------------------------------------------------------ *)

Section StringFacts.

Lemma prefix_nil (s : string) : prefix "" s = true.
Proof. destruct s; reflexivity. Qed.

Lemma append_nil_r (s : string) : s ++ "" = s.
Proof. induction s as [|c s IH]; simpl; [reflexivity | now rewrite IH]. Qed.

Lemma append_assoc (a b c : string) : (a ++ b) ++ c = a ++ (b ++ c).
Proof. induction a as [|x a IH]; simpl; [reflexivity | now rewrite IH]. Qed.

Lemma rev_app (a b : string) : Str.rev (a ++ b) = Str.rev b ++ Str.rev a.
Proof.
  induction a as [|x a IH]; simpl.
  - now rewrite append_nil_r.
  - now rewrite IH, append_assoc.
Qed.

Lemma rev_involutive (s : string) : Str.rev (Str.rev s) = s.
Proof.
  induction s as [|c s IH]; simpl; [reflexivity|].
  rewrite rev_app, IH. reflexivity.
Qed.

Lemma map_chars_app (f : ascii -> ascii) (a b : string) :
  Str.map_chars f (a ++ b) = Str.map_chars f a ++ Str.map_chars f b.
Proof. induction a as [|x a IH]; simpl; [reflexivity | now rewrite IH]. Qed.

(** Upper-case letters and digits: the characters of a canonical base
    asset. *)
Definition isBaseChar (c : ascii) : bool :=
  Str.is_upper c
  || ((48 <=? nat_of_ascii c)%nat && (nat_of_ascii c <=? 57)%nat).

Fixpoint isBase (s : string) : bool :=
  match s with
  | EmptyString => true
  | String c s' => isBaseChar c && isBase s'
  end.

Lemma baseChar_facts (c : ascii) :
  isBaseChar c = true ->
  Str.upper_char c = c
  /\ Str.upper_char (Str.lower_char c) = c
  /\ c <> "-"%char /\ c <> "/"%char.
Proof.
  destruct c as [[] [] [] [] [] [] [] []]; vm_compute; intros H;
    try discriminate H; repeat split; discriminate.
Qed.

Lemma upper_base (s : string) : isBase s = true -> Str.toUpperCase s = s.
Proof.
  unfold Str.toUpperCase. induction s as [|c s IH]; simpl; [reflexivity|].
  intros H. apply andb_prop in H. destruct H as [Hc Hs].
  destruct (baseChar_facts c Hc) as (E & _). now rewrite E, IH.
Qed.

Lemma upper_lower_base (s : string) :
  isBase s = true -> Str.toUpperCase (Str.toLowerCase s) = s.
Proof.
  unfold Str.toUpperCase, Str.toLowerCase.
  induction s as [|c s IH]; simpl; [reflexivity|].
  intros H. apply andb_prop in H. destruct H as [Hc Hs].
  destruct (baseChar_facts c Hc) as (_ & E & _). now rewrite E, IH.
Qed.

(** Splitting [base ++ sep ++ rest] at a one-character separator that does
    not occur in [base]. *)
Lemma split_go_base (sep : ascii) (base rest cur : string) :
  (forall c, isBaseChar c = true -> c <> sep) ->
  isBase base = true ->
  Str.split_go (String sep "") (base ++ String sep rest) 0 cur
  = (cur ++ base) :: Str.split_go (String sep "") rest 0 "".
Proof.
  intros Hsep. revert cur. induction base as [|c base IH]; intros cur Hb; simpl.
  - destruct (ascii_dec sep sep) as [_|N]; [|contradiction].
    now rewrite prefix_nil, append_nil_r.
  - simpl in Hb. apply andb_prop in Hb. destruct Hb as [Hc Hb].
    destruct (ascii_dec sep c) as [E|_]; [symmetry in E; now apply Hsep in E|].
    rewrite IH by assumption. now rewrite append_assoc.
Qed.

Lemma truthy_base (s : string) : s <> "" -> Str.truthy s = true.
Proof. intros H. now apply truthy_iff. Qed.

End StringFacts.

Section RoundTrip.

Import SymbolMapper.

(** The spelling swap of Kraken. *)
Definition krakenSwap (base : string) : string :=
  if String.eqb "BTC" base then "XBT"
  else if String.eqb "XBT" base then "BTC" else base.

Lemma applySpecial_kraken (base : string) :
  applySpecial krakenFormat base = krakenSwap base.
Proof.
  unfold applySpecial, krakenSwap.
  change (specialMappings krakenFormat)
    with (Some [("BTC", "XBT"); ("XBT", "BTC")]).
  cbn [JsMap.get].
  destruct (String.eqb "BTC" base); [reflexivity|].
  destruct (String.eqb "XBT" base); reflexivity.
Qed.

Lemma krakenSwap_involutive (base : string) : krakenSwap (krakenSwap base) = base.
Proof.
  unfold krakenSwap.
  destruct (String.eqb_spec "BTC" base) as [<-|H1]; [reflexivity|].
  destruct (String.eqb_spec "XBT" base) as [<-|H2]; [reflexivity|].
  apply String.eqb_neq in H1, H2. now rewrite H1, H2.
Qed.

Lemma krakenSwap_base (base : string) :
  isBase base = true -> base <> "" ->
  isBase (krakenSwap base) = true /\ krakenSwap base <> "".
Proof.
  unfold krakenSwap. intros Hb Hne.
  destruct (String.eqb "BTC" base); [split; [reflexivity | discriminate]|].
  destruct (String.eqb "XBT" base); [split; [reflexivity | discriminate]|].
  now split.
Qed.

(** A quote asset is found at the end of [base ++ quote]. *)
Ltac find_quote base :=
  unfold parseNormalizedSymbol, splitQuote, Str.endsWith, Str.dropLast;
  rewrite ?rev_app; simpl; rewrite ?prefix_nil, ?rev_involutive;
  destruct base; [contradiction | reflexivity].

Lemma parseNormalized_base (base quote : string) :
  base <> "" -> In quote ["USD"; "EUR"; "BTC"; "ETH"; "BNB"] ->
  parseNormalizedSymbol (base ++ quote) = Some (base, quote).
Proof.
  intros Hne [<- | [<- | [<- | [<- | [<- | []]]]]]; find_quote base.
Qed.

Lemma splitQuote_native (base quote : string) :
  base <> "" -> In quote ["USDT"; "USD"; "EUR"; "BTC"; "ETH"] ->
  splitQuote ["USDT"; "USDC"; "USD"; "EUR"; "BTC"; "ETH"] (base ++ quote)
  = Some (base, quote).
Proof.
  intros Hne [<- | [<- | [<- | [<- | [<- | []]]]]]; find_quote base.
Qed.

Lemma upper_app (a b : string) :
  Str.toUpperCase (a ++ b) = Str.toUpperCase a ++ Str.toUpperCase b.
Proof. apply map_chars_app. Qed.

(** The native spelling of [base ++ quote] on each venue, after the recipes
    of the registry. *)
Definition usdt (quote : string) : string :=
  if String.eqb quote "USD" then "USDT" else quote.

Definition nativeSpelling (venue base quote : string) : string :=
  if String.eqb venue "binance" || String.eqb venue "bybit" then base ++ usdt quote
  else if String.eqb venue "coinbase" then base ++ "-" ++ quote
  else if String.eqb venue "kucoin" then base ++ "-" ++ usdt quote
  else if String.eqb venue "kraken" then krakenSwap base ++ "/" ++ quote
  else Str.toLowerCase base ++ Str.toLowerCase quote.

Ltac to_native :=
  unfold toExchangeSymbol;
  match goal with
  | |- context [JsMap.get exchangeFormats ?v] =>
      let f := eval vm_compute in (JsMap.get exchangeFormats v) in
      change (JsMap.get exchangeFormats v) with f
  end;
  rewrite parseNormalized_base by (simpl; tauto);
  rewrite ?applySpecial_kraken;
  cbn -[Str.toUpperCase Str.toLowerCase String.append krakenSwap];
  rewrite ?upper_base by (first [assumption | now apply krakenSwap_base]);
  reflexivity.

Lemma toExchangeSymbol_native (venue base quote : string) :
  In venue venues -> isBase base = true -> base <> "" ->
  In quote ["USD"; "EUR"; "BTC"; "ETH"; "BNB"] ->
  toExchangeSymbol (base ++ quote) venue = Some (nativeSpelling venue base quote).
Proof.
  intros Hv Hb Hne Hq.
  destruct Hv as [<- | [<- | [<- | [<- | [<- | [<- | []]]]]]];
    destruct Hq as [<- | [<- | [<- | [<- | [<- | []]]]]]; to_native.
Qed.

Lemma dash_not_base (c : ascii) : isBaseChar c = true -> c <> "-"%char.
Proof. intros H. now apply baseChar_facts in H. Qed.

Lemma slash_not_base (c : ascii) : isBaseChar c = true -> c <> "/"%char.
Proof. intros H. now apply baseChar_facts in H. Qed.

Lemma split_native (sep : ascii) (base quote : string) :
  (forall c, isBaseChar c = true -> c <> sep) ->
  isBase base = true ->
  Str.split_go (String sep "") quote 0 "" = [quote] ->
  Str.split (String sep "") (base ++ String sep "" ++ quote) = [base; quote].
Proof.
  intros Hsep Hb Hq. unfold Str.split.
  change (base ++ String sep "" ++ quote) with (base ++ String sep quote).
  rewrite split_go_base by assumption. now rewrite Hq.
Qed.

Ltac from_native :=
  unfold fromExchangeSymbol, nativeSpelling, usdt;
  match goal with
  | |- context [JsMap.get exchangeFormats ?v] =>
      let f := eval vm_compute in (JsMap.get exchangeFormats v) in
      change (JsMap.get exchangeFormats v) with f
  end;
  cbn -[Str.toUpperCase Str.toLowerCase String.append krakenSwap
        parseExchangeSymbol applySpecial normalizeQuoteAsset];
  unfold parseExchangeSymbol;
  cbn -[Str.toUpperCase Str.toLowerCase String.append krakenSwap
        splitQuote Str.split applySpecial normalizeQuoteAsset].

Ltac quote_of_native :=
  repeat match goal with
  | |- context [normalizeQuoteAsset ?q] =>
      let r := eval vm_compute in (normalizeQuoteAsset q) in
      change (normalizeQuoteAsset q) with r
  end.

Ltac finish_from Hb Hne :=
  rewrite ?applySpecial_kraken, ?krakenSwap_involutive;
  unfold applySpecial; cbn [specialMappings];
  quote_of_native;
  rewrite ?upper_base by (first [assumption | reflexivity]);
  reflexivity.

Ltac from_joined Hb Hne :=
  from_native;
  rewrite ?upper_app;
  rewrite ?upper_lower_base by (first [assumption | reflexivity]);
  rewrite ?upper_base by (first [assumption | reflexivity]);
  rewrite splitQuote_native by (first [assumption | simpl; tauto]);
  finish_from Hb Hne.

Ltac from_separated Hb Hne :=
  from_native;
  rewrite split_native
    by (first [exact dash_not_base | exact slash_not_base | assumption
              | now apply krakenSwap_base | reflexivity]);
  rewrite truthy_base by (first [assumption | now apply krakenSwap_base]);
  cbn [andb Str.truthy String.eqb negb];
  finish_from Hb Hne.

Lemma fromExchangeSymbol_native (venue base quote : string) :
  In venue venues -> isBase base = true -> base <> "" ->
  In quote ["USD"; "EUR"; "BTC"; "ETH"]
  \/ (quote = "BNB" /\ In venue ["coinbase"; "kraken"; "kucoin"]) ->
  fromExchangeSymbol (nativeSpelling venue base quote) venue = Some (base ++ quote).
Proof.
  intros Hv Hb Hne Hq.
  destruct Hv as [<- | [<- | [<- | [<- | [<- | [<- | []]]]]]].
  - destruct Hq as [[<- | [<- | [<- | [<- | []]]]] | [_ [H | [H | [H | []]]]]];
      try discriminate H; from_joined Hb Hne.
  - destruct Hq as [[<- | [<- | [<- | [<- | []]]]] | [-> _]];
      from_separated Hb Hne.
  - destruct Hq as [[<- | [<- | [<- | [<- | []]]]] | [-> _]];
      from_separated Hb Hne.
  - destruct Hq as [[<- | [<- | [<- | [<- | []]]]] | [_ [H | [H | [H | []]]]]];
      try discriminate H; from_joined Hb Hne.
  - destruct Hq as [[<- | [<- | [<- | [<- | []]]]] | [-> _]];
      from_separated Hb Hne.
  - destruct Hq as [[<- | [<- | [<- | [<- | []]]]] | [_ [H | [H | [H | []]]]]];
      try discriminate H; from_joined Hb Hne.
Qed.

(** X2.  Round trip where it holds: for each of the six venues, a base asset
    written in upper-case letters and digits and one of the quote assets
    USD, EUR, BTC, ETH (on the venues with a separator also BNB), the
    canonical symbol is translated to the venue's native spelling and the
    native spelling is translated back to the canonical symbol. *)
Theorem roundtrip_standard_quotes (venue base quote : string) :
  In venue venues -> isBase base = true -> base <> "" ->
  In quote ["USD"; "EUR"; "BTC"; "ETH"]
  \/ (quote = "BNB" /\ In venue ["coinbase"; "kraken"; "kucoin"]) ->
  exists native,
    toExchangeSymbol (base ++ quote) venue = Some native
    /\ native = nativeSpelling venue base quote
    /\ fromExchangeSymbol native venue = Some (base ++ quote).
Proof.
  intros Hv Hb Hne Hq. exists (nativeSpelling venue base quote).
  split; [|split; [reflexivity|]].
  - apply toExchangeSymbol_native; auto.
    destruct Hq as [Hq | [-> _]]; simpl in *; tauto.
  - now apply fromExchangeSymbol_native.
Qed.

(** The theorem at Bitcoin against the dollar on Kraken: [XBT/USD]. *)
Lemma roundtrip_kraken_example :
  exists native,
    toExchangeSymbol "BTCUSD" "kraken" = Some native
    /\ native = "XBT/USD"
    /\ fromExchangeSymbol native "kraken" = Some "BTCUSD".
Proof.
  apply (roundtrip_standard_quotes "kraken" "BTC" "USD").
  - simpl. tauto.
  - reflexivity.
  - discriminate.
  - left. simpl. tauto.
Defined.

End RoundTrip.

(* ------------------------------------------------------------------ *)
(** ** Retention when ids follow detection time *)
(* ------------------------------------------------------------------ *)

Section Retention.

Import Shared Persistence.

(** Row [a] was stored before row [b] and detected before it. *)
Definition olderThan (a b : Sink.OpportunityRow) : Prop :=
  (Sink.rowId a < Sink.rowId b)%Z /\ (Sink.rowTimestamp a < Sink.rowTimestamp b)%Z.

Lemma newestFirst_from (l : list Sink.OpportunityRow) : forall acc,
  StronglySorted olderThan l ->
  Forall (fun y => Forall (fun r => (Sink.rowTimestamp y < Sink.rowTimestamp r)%Z) l) acc ->
  fold_left (fun acc r => Sink.insertDesc r acc) l acc = (rev l ++ acc)%list.
Proof.
  induction l as [|r l IH]; intros acc Hs Hacc; simpl; [reflexivity|].
  inversion Hs as [|? ? Hs' Hr]; subst.
  assert (E : Sink.insertDesc r acc = r :: acc).
  { destruct acc as [|y acc]; [reflexivity|]. simpl.
    inversion Hacc as [|? ? Hy _]; subst. inversion Hy; subst.
    assert (H : (Sink.rowTimestamp y <? Sink.rowTimestamp r)%Z = true)
      by now apply Z.ltb_lt.
    now rewrite H. }
  rewrite E, IH; auto.
  - now rewrite <- app_assoc.
  - constructor.
    + apply Forall_impl with (2 := Hr). intros b [_ H]. exact H.
    + apply Forall_impl with (2 := Hacc). intros y Hy. now inversion Hy.
Qed.

Lemma newestFirst_rev (l : list Sink.OpportunityRow) :
  StronglySorted olderThan l -> Sink.newestFirst l = rev l.
Proof.
  intros Hs. unfold Sink.newestFirst.
  rewrite newestFirst_from by (auto; constructor). apply app_nil_r.
Qed.

Lemma split_last_rows {A : Type} (k : nat) (l : list A) :
  (k < List.length l)%nat ->
  exists old c newer,
    l = (old ++ c :: newer)%list /\ List.length newer = k
    /\ List.length old = (List.length l - S k)%nat.
Proof.
  intros Hk.
  pose proof (firstn_skipn (List.length l - S k) l) as E.
  destruct (skipn (List.length l - S k) l) as [|c newer] eqn:Hskip.
  - apply (f_equal (@List.length A)) in Hskip. rewrite length_skipn in Hskip.
    simpl in Hskip. lia.
  - exists (firstn (List.length l - S k) l), c, newer.
    split; [now symmetry|].
    apply (f_equal (@List.length A)) in Hskip. rewrite length_skipn in Hskip.
    simpl in Hskip. rewrite length_firstn. lia.
Qed.

Lemma skipn_exact {A : Type} (a b : list A) : skipn (List.length a) (a ++ b) = b.
Proof. induction a; simpl; auto. Qed.

Lemma keep_from_cutoff (old newer : list Sink.OpportunityRow) (c : Sink.OpportunityRow) :
  StronglySorted olderThan (old ++ c :: newer) ->
  filter (fun r => negb (Sink.rowId r <? Sink.rowId c)%Z) (old ++ c :: newer)
  = c :: newer.
Proof.
  induction old as [|a old IH]; simpl; intros Hs.
  - rewrite Z.ltb_irrefl. simpl. f_equal.
    inversion Hs as [|? ? _ Hc]; subst.
    apply forallb_filter_id. apply forallb_forall. intros b Hb.
    rewrite Forall_forall in Hc. destruct (Hc b Hb) as [Hid _].
    apply negb_true_iff, Z.ltb_ge. lia.
  - inversion Hs as [|? ? Hs' Ha]; subst.
    rewrite Forall_forall in Ha.
    destruct (Ha c) as [Hid _]; [apply in_or_app; right; now left|].
    apply Z.ltb_lt in Hid. rewrite Hid. simpl. now apply IH.
Qed.

Lemma cleanup_when_sorted (w : World) :
  Sink.faults (db w) = [] ->
  StronglySorted olderThan (Sink.opportunities (db w)) ->
  exists lines,
    cleanupOldOpportunities w =
    ({| db := {| Sink.exchanges := Sink.exchanges (db w);
                 Sink.opportunities :=
                   skipn (List.length (Sink.opportunities (db w)) - 1000)
                     (Sink.opportunities (db w));
                 Sink.nextId := Sink.nextId (db w);
                 Sink.faults := [] |};
        console := (console w ++ lines)%list;
        emitted := emitted w |}, Ok tt).
Proof.
  destruct w as [[ex rows nid fl] c e]. simpl. intros -> Hs.
  unfold cleanupOldOpportunities, tryCatch, bind, call, Sink.count, Sink.nextFault.
  cbn [db Sink.faults Sink.opportunities console emitted Sink.exchanges Sink.nextId].
  destruct (Detector.retentionCount <? Z.of_nat (List.length rows))%Z eqn:Hn.
  - apply Z.ltb_lt in Hn. unfold Detector.retentionCount in Hn.
    destruct (split_last_rows 999 rows) as (old & cut & newer & E & Hnew & Hold);
      [lia|].
    unfold Sink.findManyIds, Sink.nextFault, Sink.deleteManyLt.
    cbn [db Sink.faults Sink.opportunities console emitted Sink.exchanges Sink.nextId].
    rewrite (newestFirst_rev rows Hs).
    change (Z.to_nat (Detector.retentionCount - 1)) with 999%nat.
    assert (Hskip : skipn 999 (rev rows) = cut :: rev old).
    { rewrite E, rev_app_distr.
      change (rev (cut :: newer)) with (rev newer ++ [cut])%list.
      rewrite <- app_assoc.
      replace 999%nat with (List.length (rev newer))
        by (rewrite length_rev; exact Hnew).
      apply skipn_exact. }
    rewrite Hskip. cbn [firstn map].
    assert (Hkeep : filter (fun r => negb (Sink.rowId r <? Sink.rowId cut)%Z) rows
                    = cut :: newer).
    { rewrite E. apply keep_from_cutoff. now rewrite <- E. }
    assert (Hlast : skipn (List.length rows - 1000) rows = cut :: newer).
    { replace (List.length rows - 1000)%nat with (List.length old) by lia.
      rewrite E. apply skipn_exact. }
    unfold Sink.nextFault.
    cbn [db Sink.faults Sink.opportunities console emitted Sink.exchanges Sink.nextId].
    rewrite Hkeep, Hlast.
    destruct (0 <? Z.of_nat (List.length rows - List.length (cut :: newer)))%Z.
    + eexists. unfold log. cbn. reflexivity.
    + exists []. unfold ret. now rewrite app_nil_r.
  - apply Z.ltb_ge in Hn. unfold Detector.retentionCount in Hn.
    exists []. unfold ret. rewrite app_nil_r.
    replace (List.length rows - 1000)%nat with 0%nat by lia. reflexivity.
Qed.

(** The stored rows after the append of [o], before the clean-up. *)
Definition appended (s : Sink.t) (o : ArbitrageOpportunity) : list Sink.OpportunityRow :=
  (Sink.opportunities s ++
   [{| Sink.rowId := Sink.nextId s; Sink.rowTimestamp := oppTimestamp o;
       Sink.rowOpportunity := o |}])%list.

(** X3.  Retention where it holds: when the store accepts the append and
    answers the clean-up, and the rows, the new one included, were stored in
    the order of their detection times (ids and timestamps grow together,
    strictly), the sink holds the last 1000 rows afterwards: at most 1000
    rows, every dropped row older than every kept row; the event is
    emitted. *)
Theorem retention_when_ids_follow_time
  (w : World) (o : ArbitrageOpportunity) (fuel : nat) :
  Sink.faults (db w) = [] ->
  Sink.hasExchange (db w) (buyExchange o) = true ->
  Sink.hasExchange (db w) (sellExchange o) = true ->
  StronglySorted olderThan (appended (db w) o) ->
  let rows := appended (db w) o in
  let w' := fst (handleOpportunity fuel o w) in
  Sink.opportunities (db w') = skipn (List.length rows - 1000) rows
  /\ (List.length (Sink.opportunities (db w')) <= 1000)%nat
  /\ (forall a b, In a (firstn (List.length rows - 1000) rows) ->
                  In b (Sink.opportunities (db w')) ->
                  (Sink.rowTimestamp a < Sink.rowTimestamp b)%Z)
  /\ emitted w' = (emitted w ++ [o])%list.
Proof.
  intros Hf Hbuy Hsell Hs rows w'.
  assert (Hrun : exists lines,
            handleOpportunity fuel o w =
            ({| db := {| Sink.exchanges := Sink.exchanges (db w);
                         Sink.opportunities := skipn (List.length rows - 1000) rows;
                         Sink.nextId := (Sink.nextId (db w) + 1)%Z;
                         Sink.faults := [] |};
                console := (console w ++ lines)%list;
                emitted := (emitted w ++ [o])%list |}, Ok tt)).
  { unfold handleOpportunity. rewrite save_unfold.
    unfold tryCatch at 1 2. unfold bind at 1 2 3. unfold log at 1.
    unfold call, Sink.create, Sink.nextFault.
    cbn [db console emitted]. rewrite Hf.
    cbn [Sink.exchanges Sink.opportunities Sink.nextId Sink.faults].
    rewrite Hbuy, Hsell. cbn [andb].
    match goal with
    | |- context [cleanupOldOpportunities ?w1] =>
        destruct (cleanup_when_sorted w1) as [lines Hc]; [exact Hf | exact Hs |]
    end.
    cbn [db console emitted Sink.exchanges Sink.opportunities Sink.nextId
         Sink.faults] in Hc.
    rewrite Hc. unfold emit. cbn [db console emitted].
    eexists. rewrite <- app_assoc. reflexivity. }
  destruct Hrun as [lines Hrun]. unfold w'. rewrite Hrun.
  cbn [fst db emitted Sink.opportunities].
  split; [reflexivity|]. split; [|split; [|reflexivity]].
  - rewrite length_skipn. lia.
  - intros a b Ha Hb.
    fold rows in Hs.
    rewrite <- (firstn_skipn (List.length rows - 1000) rows) in Hs.
    revert Hs Ha Hb.
    generalize (firstn (List.length rows - 1000) rows) as old.
    generalize (skipn (List.length rows - 1000) rows) as kept.
    intros kept old. induction old as [|x old IH]; simpl; intros Hs Ha Hb; [tauto|].
    inversion Hs as [|? ? Hs' Hx]; subst.
    destruct Ha as [<- | Ha]; [|now apply IH].
    rewrite Forall_forall in Hx. apply Hx. apply in_or_app. now right.
Qed.

(** Each row is older than the next one. *)
Fixpoint inOrder (l : list Sink.OpportunityRow) : bool :=
  match l with
  | a :: (b :: _) as rest =>
      (Sink.rowId a <? Sink.rowId b)%Z
      && (Sink.rowTimestamp a <? Sink.rowTimestamp b)%Z
      && inOrder rest
  | _ => true
  end.

Lemma inOrder_sorted (l : list Sink.OpportunityRow) :
  inOrder l = true -> StronglySorted olderThan l.
Proof.
  intros H. apply Sorted_StronglySorted.
  - intros a b c [H1 H2] [H3 H4]. split; lia.
  - induction l as [|a [|b l] IH]; [constructor | repeat constructor |].
    cbn [inOrder] in H. apply andb_prop in H. destruct H as [H Hrest].
    apply andb_prop in H. destruct H as [Hid Hts].
    apply Z.ltb_lt in Hid, Hts.
    constructor; [now apply IH | constructor; split; assumption].
Qed.

(** The sink after a thousand appends, detected at 1, 2, ..., 1000. *)
Definition fullSink : World :=
  Eval vm_compute in appendAll (map Z.of_nat (seq 1 1000)) emptySinkWithVenues.

(** The theorem at a full sink: the sink holds the thousand rows detected
    at 1 to 1000 and receives the row detected at 1001; the row detected at
    1 is dropped, the thousand rows detected at 2 to 1001 remain, and the
    event is emitted. *)
Lemma retention_example :
  let o := opportunity "binance" "coinbase" 1001 in
  let w' := fst (handleOpportunity 1 o fullSink) in
  storedTimestamps fullSink = map Z.of_nat (seq 1 1000)
  /\ storedTimestamps w' = map Z.of_nat (seq 2 1000)
  /\ (forall a b,
        In a (firstn 1 (Sink.opportunities (db fullSink))) ->
        In b (Sink.opportunities (db w')) ->
        (Sink.rowTimestamp a < Sink.rowTimestamp b)%Z)
  /\ emitted w' = (emitted fullSink ++ [o])%list.
Proof.
  intros o w'.
  destruct (retention_when_ids_follow_time fullSink o 1)
    as (Hrows & _ & Hold & Hemit).
  - reflexivity.
  - reflexivity.
  - reflexivity.
  - apply inOrder_sorted. vm_compute. reflexivity.
  - split; [vm_compute; reflexivity|].
    split; [unfold w', storedTimestamps; rewrite Hrows; vm_compute; reflexivity|].
    split; [|exact Hemit].
    intros a b Ha Hb. apply Hold; [|exact Hb].
    revert Ha. vm_compute. tauto.
Defined.

End Retention.

(* ------------------------------------------------------------------ *)
(** ** The persistence path where it does what is intended *)
(* ------------------------------------------------------------------ *)

Section PersistenceRecovery.

Import Shared Persistence.

(** X4.  A failure of the store that is not a foreign-key error is logged, the
    append is not retried, and the event is emitted all the same. *)
Theorem other_store_failure_logged_and_emitted
  (w : World) (o : ArbitrageOpportunity) (fuel : nat) (msg : string)
  (rest : list (option string)) :
  Sink.faults (db w) = Some msg :: rest ->
  Str.includes msg "Foreign key constraint" = false ->
  handleOpportunity fuel o w =
  ({| db := {| Sink.exchanges := Sink.exchanges (db w);
               Sink.opportunities := Sink.opportunities (db w);
               Sink.nextId := Sink.nextId (db w);
               Sink.faults := rest |};
      console := (console w ++ ["ARBITRAGE OPPORTUNITY DETECTED!"; "Database error"])%list;
      emitted := (emitted w ++ [o])%list |}, Ok tt).
Proof.
  intros Hf Hmsg. unfold handleOpportunity. rewrite save_unfold.
  unfold tryCatch, bind, log, call, emit, Sink.create, Sink.nextFault.
  cbn [db console emitted]. rewrite Hf.
  cbn [db console emitted Sink.exchanges Sink.opportunities Sink.nextId Sink.faults].
  rewrite Hmsg.
  cbn [db console emitted Sink.exchanges Sink.opportunities Sink.nextId Sink.faults].
  rewrite <- app_assoc. reflexivity.
Qed.

(** The theorem at a store that answers the insert with a time-out. *)
Lemma other_store_failure_example :
  emitted (fst (handleOpportunity 0 (opportunity "binance" "coinbase" 5)
                  (worldOf (sinkWith [] [] 1 [Some "Timed out"]))))
  = [opportunity "binance" "coinbase" 5].
Proof.
  rewrite (other_store_failure_logged_and_emitted
             (worldOf (sinkWith [] [] 1 [Some "Timed out"]))
             (opportunity "binance" "coinbase" 5) 0 "Timed out" []);
    reflexivity.
Defined.

Definition defaultVenueRows : list Sink.ExchangeRow :=
  [ {| Sink.name := "binance";
       Sink.wsUrl := "wss://stream.binance.com:9443/ws";
       Sink.restUrl := "https://api.binance.com/api/v3" |};
    {| Sink.name := "coinbase";
       Sink.wsUrl := "wss://ws-feed.exchange.coinbase.com";
       Sink.restUrl := "https://api.exchange.coinbase.com" |} ].

(** X5.  When the venue table is empty and the opportunity is between Binance
    and Coinbase, the insert fails with the foreign-key error, both venues
    are upserted with their default URLs and the append is retried once: it
    is pending without a retry (fuel 0) and done with one (fuel 1); the row
    is stored and the event emitted. *)
Theorem missing_binance_coinbase_rows_upserted
  (w : World) (o : ArbitrageOpportunity) :
  Sink.faults (db w) = [] ->
  Sink.exchanges (db w) = [] ->
  (List.length (Sink.opportunities (db w)) < 1000)%nat ->
  In (buyExchange o) ["binance"; "coinbase"] ->
  In (sellExchange o) ["binance"; "coinbase"] ->
  snd (handleOpportunity 0 o w) = Pending
  /\ handleOpportunity 1 o w =
     ({| db := {| Sink.exchanges := defaultVenueRows;
                  Sink.opportunities := appended (db w) o;
                  Sink.nextId := (Sink.nextId (db w) + 1)%Z;
                  Sink.faults := [] |};
         console := (console w ++ ["ARBITRAGE OPPORTUNITY DETECTED!"])%list;
         emitted := (emitted w ++ [o])%list |}, Ok tt).
Proof.
  destruct w as [[ex rows nid fl] c e].
  destruct o as [sym buy sell bp sp spr pct est ts fs].
  cbn [db Sink.faults Sink.exchanges Sink.opportunities buyExchange sellExchange].
  intros -> -> Hlen Hbuy Hsell.
  assert (Hcount : forall r,
            (1000 <? Z.of_nat (List.length (rows ++ [r])))%Z = false).
  { intros r. apply Z.ltb_ge. rewrite length_app. simpl. lia. }
  destruct Hbuy as [<- | [<- | []]]; destruct Hsell as [<- | [<- | []]];
    (split;
     unfold handleOpportunity, saveOpportunityToDatabase, cleanupOldOpportunities,
       ensureExchangesExist, forEach, tryCatch, bind, call, log, emit, ret, pending;
     cbn -[Z.ltb Z.of_nat List.length];
     rewrite ?Hcount; reflexivity).
Qed.

(** The theorem at an empty sink. *)
Lemma missing_rows_example :
  map Sink.name
    (Sink.exchanges
       (db (fst (handleOpportunity 1 (opportunity "binance" "coinbase" 5)
                   (worldOf (sinkWith [] [] 1 []))))))
  = ["binance"; "coinbase"].
Proof.
  rewrite (proj2 (missing_binance_coinbase_rows_upserted
                    (worldOf (sinkWith [] [] 1 []))
                    (opportunity "binance" "coinbase" 5)
                    eq_refl eq_refl (Nat.lt_0_succ 999)
                    (or_introl eq_refl) (or_intror (or_introl eq_refl)))).
  reflexivity.
Defined.

End PersistenceRecovery.

(* ------------------------------------------------------------------ *)
(** ** Boundary behaviour of the detector and of the Binance client *)
(* ------------------------------------------------------------------ *)

Section DetectorBoundaries.

Import Shared Detector.
Local Open Scope float_scope.

Variable parseFloat : string -> float.

Lemma flat_map_nil {A B : Type} (f : A -> list B) (l : list A) :
  (forall x, In x l -> f x = []) -> flat_map f l = [].
Proof.
  induction l as [|x l IH]; simpl; intros H; [reflexivity|].
  rewrite (H x) by now left. apply IH. intros y Hy. apply H. now right.
Qed.

Lemma collect_NoDup d now s l : forall m0,
  NoDup (JsMap.keys m0) -> NoDup (JsMap.keys (collect d now s l m0)).
Proof.
  induction l as [|ob l IH]; intros m0 H; [exact H|].
  rewrite collect_cons. apply IH.
  destruct (taken d now s ob); [now apply NoDup_keys_set | exact H].
Qed.

Lemma NoDup_constant {A : Type} (l : list A) (v : A) :
  NoDup l -> (forall x, In x l -> x = v) -> (List.length l <= 1)%nat.
Proof.
  destruct l as [|a [|b l]]; simpl; intros Hnd Hall; try lia.
  exfalso. inversion Hnd as [|? ? Hnotin _]; subst. apply Hnotin.
  rewrite (Hall a), (Hall b); auto. now left.
Qed.

(** Empty side: a direction whose buy book has no ask, or whose sell book
    has no bid, yields no opportunity. *)
Theorem empty_side_no_opportunity (d : t) (now : Z) (buy sell : OrderBook) (s : string) :
  asks buy = [] \/ bids sell = [] ->
  calculateOpportunity parseFloat d now buy sell s = None.
Proof.
  unfold calculateOpportunity. intros [H | H]; rewrite H.
  - destruct (bids sell); reflexivity.
  - reflexivity.
Qed.

(** X6.  Single venue: when every stored book belongs to one venue, a scan
    detects nothing. *)
Theorem single_venue_no_opportunity (d : t) (now : Z) (venue : string) :
  (forall ob, In ob (JsMap.values (orderBooks d)) -> exchange ob = venue) ->
  detectOpportunities parseFloat d now = [].
Proof.
  intros Hv. unfold detectOpportunities. apply flat_map_nil. intros s _.
  unfold findArbitrageOpportunities.
  assert (Hsize : (JsMap.size (booksByExchange d now s) <? 2)%nat = true).
  { apply Nat.ltb_lt. unfold JsMap.size.
    rewrite <- (length_map fst).
    assert (H : (List.length (JsMap.keys (booksByExchange d now s)) <= 1)%nat).
    { apply (NoDup_constant _ venue).
      - rewrite booksByExchange_collect. apply collect_NoDup. constructor.
      - intros k Hk. apply get_Some_keys in Hk. destruct Hk as [ob Hob].
        apply collected_book in Hob. destruct Hob as (Hin & _ & <-). auto. }
    unfold JsMap.keys in H. lia. }
  rewrite Hsize. reflexivity.
Qed.

(** Freshness: a book is used exactly when [now - timestamp] is at most
    [max_spread_age_ms]; a book stamped in the future is fresh. *)
Theorem freshness_window (d : t) (now : Z) (ob : OrderBook) :
  (isOrderBookFresh d now ob = true
   <-> (now - timestamp ob <= maxSpreadAge (config d))%Z)
  /\ ((0 <= maxSpreadAge (config d))%Z -> (now < timestamp ob)%Z ->
      isOrderBookFresh d now ob = true).
Proof.
  unfold isOrderBookFresh. split.
  - apply Z.leb_le.
  - intros H0 Hf. apply Z.leb_le. lia.
Qed.

(** Sequence skip of the Binance client: an update whose ids do not pass
    the id of the stored book (which is not zero) changes nothing and emits
    nothing. *)
Theorem stale_depth_update_skipped
  (books : JsMap.t OrderBook) (update : Binance.DepthUpdate)
  (existing : OrderBook) (id : Z) :
  JsMap.get books (Binance.s update) = Some existing ->
  lastUpdateId existing = Some id -> id <> 0%Z ->
  (Binance.U update <= Binance.u update)%Z -> (Binance.u update <= id)%Z ->
  Binance.handleDepthUpdate parseFloat books update = (books, None).
Proof.
  intros Hget Hid Hnz HU Hu. unfold Binance.handleDepthUpdate, Binance.isOldUpdate.
  rewrite Hget, Hid.
  assert (E1 : (id =? 0)%Z = false) by now apply Z.eqb_neq.
  assert (E2 : (Binance.U update <=? id)%Z = true) by (apply Z.leb_le; lia).
  rewrite E1, E2. reflexivity.
Qed.

End DetectorBoundaries.

Section BoundaryExamples.

Import Shared Detector.
Local Open Scope float_scope.

(** A sell book without bids. *)
Lemma empty_side_example :
  calculateOpportunity Num.parseFloatDecimal create 1000 binanceAsk10000
    {| symbol := "BTC-USD"; exchange := "coinbase"; bids := [];
       asks := [level "10201" "1"]; timestamp := 1000; lastUpdateId := None |}
    "BTCUSD" = None.
Proof.
  apply (empty_side_no_opportunity Num.parseFloatDecimal). right. reflexivity.
Defined.

(** One venue with two symbols: nothing is detected. *)
Lemma single_venue_example :
  detectOpportunities Num.parseFloatDecimal
    (withBooks create [book "binance" "BTCUSDT" "9999" "10000" 1000;
                       book "binance" "BTC-USD" "10200" "10201" 1000]) 1000 = [].
Proof.
  apply (single_venue_no_opportunity Num.parseFloatDecimal _ 1000 "binance").
  intros ob [<- | [<- | []]]; reflexivity.
Defined.

(** An update that ends at the id of the primed book is skipped. *)
Lemma stale_depth_update_example :
  Binance.handleDepthUpdate Num.parseFloatDecimal smallBook
    {| Binance.E := 1; Binance.s := "BTCUSDT"; Binance.U := 9; Binance.u := 10;
       Binance.b := [("99", "0")]; Binance.a := [] |}
  = (smallBook, None).
Proof.
  apply (stale_depth_update_skipped Num.parseFloatDecimal smallBook _
           {| symbol := "BTCUSDT"; exchange := "binance";
              bids := [level "100" "1"; level "99" "2"; level "98.5" "1"];
              asks := [level "100.5" "1"];
              timestamp := 0; lastUpdateId := Some 10%Z |} 10%Z).
  - reflexivity.
  - reflexivity.
  - discriminate.
  - simpl. lia.
  - simpl. lia.
Defined.

(** Scenario of the specification: Binance asks 10000, Coinbase bids 10200,
    trade amount 1000, minimum profit 0.1 %, no slippage buffer.  One
    opportunity is detected, Binance -> Coinbase, with the fees 1 and 6.12,
    net profit 12.88 and profit 1.288 % up to the rounding of binary64; the
    reverse direction is below the threshold. *)
Theorem qualifying_spread_scenario :
  let d := withBooks
             (updateConfig create
                {| newMinProfitPercent := Some 0.1; newSlippageBuffer := Some 0;
                   newMaxSpreadAge := None |})
             [binanceAsk10000; coinbaseBid10200] in
  detectOpportunities Num.parseFloatDecimal d 1000 =
  [ {| oppSymbol := "BTCUSD"; buyExchange := "binance"; sellExchange := "coinbase";
       buyPrice := 10000; sellPrice := 10200; spread := 20;
       spreadPercent := 1.2879999999999998;
       estimatedProfit := 12.879999999999999;
       oppTimestamp := 1000;
       fees := {| buyFee := 1; sellFee := 6.12; totalFee := 7.12 |} |} ].
Proof. vm_compute. reflexivity. Qed.

End BoundaryExamples.

(* ------------------------------------------------------------------ *)
(** ** What a scan can emit *)
(* ------------------------------------------------------------------ *)

Lemma in_pairs_inv {A : Type} (l : list A) (x y : A) :
  In (x, y) (Detector.pairs l) -> In x l /\ In y l.
Proof.
  induction l as [|a l IH]; simpl; [tauto|].
  intros H. apply in_app_or in H. destruct H as [H | H].
  - apply in_map_iff in H. destruct H as (z & [= <- <-] & Hz). auto.
  - apply IH in H. tauto.
Qed.

Lemma in_pairs_distinct {A : Type} (l : list A) (x y : A) :
  NoDup l -> In (x, y) (Detector.pairs l) -> x <> y.
Proof.
  induction l as [|a l IH]; simpl; [tauto|].
  intros Hnd H. inversion Hnd as [|? ? Hnotin Hnd']; subst.
  apply in_app_or in H. destruct H as [H | H].
  - apply in_map_iff in H. destruct H as (z & [= <- <-] & Hz).
    intros ->. contradiction.
  - now apply IH.
Qed.

Section DetectorSoundness.

Import Shared Detector.
Local Open Scope float_scope.

Variable parseFloat : string -> float.

(** The opportunity [o] is the direction "buy on [A], sell on [B]" computed
    at [now] from the top ask of [A] and the top bid of [B]. *)
Definition computedFrom (d : t) (now : Z) (A B : OrderBook)
  (o : ArbitrageOpportunity) : Prop :=
  exists ask bid,
    hd_error (asks A) = Some ask /\ hd_error (bids B) = Some bid
    /\ buyExchange o = exchange A /\ sellExchange o = exchange B
    /\ buyPrice o = parseFloat (price ask)
    /\ sellPrice o = parseFloat (price bid)
    /\ spreadPercent o = profitPercentOf parseFloat d A B bid ask
    /\ oppTimestamp o = now.

Lemma calculate_Some_computed d now buy sell s o :
  calculateOpportunity parseFloat d now buy sell s = Some o ->
  oppSymbol o = s /\ computedFrom d now buy sell o
  /\ (spreadPercent o <? minProfitPercent (config d)) = false.
Proof.
  unfold calculateOpportunity, computedFrom, profitPercentOf.
  destruct (bids sell) as [|b0 ?]; [discriminate|].
  destruct (asks buy) as [|a0 ?]; [discriminate|].
  match goal with |- context [if ?c then _ else _] => destruct c eqn:Hc end;
    [discriminate|].
  intros [= <-]. cbn. split; [reflexivity|]. split; [|exact Hc].
  exists a0, b0. repeat split.
Qed.

(** X7.  Every opportunity of a scan is computed from two stored books that are
    fresh, carry its symbol after normalisation and belong to two different
    venues, and it has passed both gates. *)
Theorem detected_opportunity_sound (d : t) (now : Z) (o : ArbitrageOpportunity) :
  In o (detectOpportunities parseFloat d now) ->
  exists A B,
    In A (JsMap.values (orderBooks d)) /\ In B (JsMap.values (orderBooks d))
    /\ isOrderBookFresh d now A = true /\ isOrderBookFresh d now B = true
    /\ normalizeSymbol (symbol A) = oppSymbol o
    /\ normalizeSymbol (symbol B) = oppSymbol o
    /\ exchange A <> exchange B
    /\ computedFrom d now A B o
    /\ (spreadPercent o <? minProfitPercent (config d)) = false
    /\ Num.geb (spreadPercent o)
         (minProfitPercent (config d) + slippageBuffer (config d)) = true.
Proof.
  unfold detectOpportunities. intros Hin. apply in_flat_map in Hin.
  destruct Hin as (s & _ & Hin). apply filter_In in Hin.
  destruct Hin as [Hin Hprof].
  unfold findArbitrageOpportunities in Hin.
  destruct (_ <? 2)%nat; [destruct Hin|].
  apply in_flat_map in Hin. destruct Hin as ([x y] & Hxy & Hin).
  assert (Hne : x <> y).
  { apply (in_pairs_distinct (JsMap.keys (booksByExchange d now s))); [|exact Hxy].
    rewrite booksByExchange_collect. apply collect_NoDup. constructor. }
  destruct (Str.truthy x && Str.truthy y); [|destruct Hin].
  destruct (JsMap.get _ x) as [ob1|] eqn:H1; [|destruct Hin].
  destruct (JsMap.get _ y) as [ob2|] eqn:H2; [|destruct Hin].
  apply collected_book in H1, H2.
  destruct H1 as (In1 & T1 & E1), H2 as (In2 & T2 & E2).
  unfold taken in T1, T2. apply andb_prop in T1, T2.
  destruct T1 as [S1 F1], T2 as [S2 F2].
  apply String.eqb_eq in S1, S2.
  assert (Hgoal : forall buy sell,
            calculateOpportunity parseFloat d now buy sell s = Some o ->
            In buy (JsMap.values (orderBooks d)) ->
            In sell (JsMap.values (orderBooks d)) ->
            isOrderBookFresh d now buy = true -> isOrderBookFresh d now sell = true ->
            normalizeSymbol (symbol buy) = s -> normalizeSymbol (symbol sell) = s ->
            exchange buy <> exchange sell ->
            exists A B,
              In A (JsMap.values (orderBooks d)) /\ In B (JsMap.values (orderBooks d))
              /\ isOrderBookFresh d now A = true /\ isOrderBookFresh d now B = true
              /\ normalizeSymbol (symbol A) = oppSymbol o
              /\ normalizeSymbol (symbol B) = oppSymbol o
              /\ exchange A <> exchange B
              /\ computedFrom d now A B o
              /\ (spreadPercent o <? minProfitPercent (config d)) = false
              /\ Num.geb (spreadPercent o)
                   (minProfitPercent (config d) + slippageBuffer (config d)) = true).
  { intros buy sell Hc Hb Hs Fb Fs Sb Ss Hd.
    apply calculate_Some_computed in Hc. destruct Hc as (Hsym & Hcomp & Hgate).
    exists buy, sell. rewrite Hsym. repeat split; auto. }
  apply in_app_or in Hin.
  destruct Hin as [Hin | Hin];
    match type of Hin with In _ (optList ?c) => destruct c eqn:Hc end;
    simpl in Hin; try tauto; destruct Hin as [<- | []].
  - apply (Hgoal _ _ Hc); auto. congruence.
  - apply (Hgoal _ _ Hc); auto. congruence.
Qed.

End DetectorSoundness.

Section DetectorSoundnessExample.

Import Shared Detector.
Local Open Scope float_scope.

Definition thresholdDetector : t :=
  withBooks
    (updateConfig create
       {| newMinProfitPercent := Some 0.1; newSlippageBuffer := Some 0;
          newMaxSpreadAge := None |})
    [binanceAsk10000; coinbaseBid10200].

Definition binanceToCoinbase : ArbitrageOpportunity :=
  {| oppSymbol := "BTCUSD"; buyExchange := "binance"; sellExchange := "coinbase";
     buyPrice := 10000; sellPrice := 10200; spread := 20;
     spreadPercent := 1.2879999999999998;
     estimatedProfit := 12.879999999999999;
     oppTimestamp := 1000;
     fees := {| buyFee := 1; sellFee := 6.12; totalFee := 7.12 |} |}.

Lemma detected_opportunity_sound_example :
  exists A B,
    In A (JsMap.values (orderBooks thresholdDetector))
    /\ In B (JsMap.values (orderBooks thresholdDetector))
    /\ isOrderBookFresh thresholdDetector 1000 A = true
    /\ isOrderBookFresh thresholdDetector 1000 B = true
    /\ normalizeSymbol (symbol A) = "BTCUSD"%string
    /\ normalizeSymbol (symbol B) = "BTCUSD"%string
    /\ exchange A <> exchange B
    /\ computedFrom Num.parseFloatDecimal thresholdDetector 1000 A B binanceToCoinbase
    /\ (1.2879999999999998 <? 0.1) = false
    /\ Num.geb 1.2879999999999998 (0.1 + 0) = true.
Proof.
  apply (detected_opportunity_sound Num.parseFloatDecimal thresholdDetector 1000
           binanceToCoinbase).
  vm_compute. left. reflexivity.
Defined.

End DetectorSoundnessExample.

(* ------------------------------------------------------------------ *)
(** ** The throttle of the scan *)
(* ------------------------------------------------------------------ *)

Section DetectorThrottle.

Import Shared Detector.

Variable parseFloat : string -> float.

(** The clock values at which the run scanned: the updates that moved
    [lastOpportunityCheck]. *)
Fixpoint scanTimes (d : t) (updates : list (Z * OrderBook)) : list Z :=
  match updates with
  | [] => []
  | (now, ob) :: rest =>
      let d' := fst (updateOrderBook parseFloat d now ob) in
      if (lastOpportunityCheck d' =? lastOpportunityCheck d)%Z
      then scanTimes d' rest
      else now :: scanTimes d' rest
  end.

Lemma updateOrderBook_cases d now ob :
  let r := updateOrderBook parseFloat d now ob in
  ((now - lastOpportunityCheck d <= 1000)%Z
   /\ lastOpportunityCheck (fst r) = lastOpportunityCheck d /\ snd r = [])
  \/ ((1000 < now - lastOpportunityCheck d)%Z
      /\ lastOpportunityCheck (fst r) = now).
Proof.
  unfold updateOrderBook, checkIntervalMs. cbn [lastOpportunityCheck].
  destruct (1000 <? now - lastOpportunityCheck d)%Z eqn:E; cbn.
  - right. apply Z.ltb_lt in E. auto.
  - left. apply Z.ltb_ge in E. auto.
Qed.

Lemma scanTimes_later (updates : list (Z * OrderBook)) : forall d,
  Forall (fun t => (lastOpportunityCheck d + 1000 < t)%Z) (scanTimes d updates)
  /\ StronglySorted (fun a b => (a + 1000 < b)%Z) (scanTimes d updates).
Proof.
  induction updates as [|[now ob] rest IH]; intros d; simpl.
  - split; constructor.
  - destruct (updateOrderBook_cases d now ob) as [(Hle & Hlast & _) | (Hlt & Hlast)];
      destruct (IH (fst (updateOrderBook parseFloat d now ob))) as [F S];
      rewrite Hlast in *.
    + rewrite Z.eqb_refl. auto.
    + destruct (Z.eqb_spec now (lastOpportunityCheck d)) as [E|_]; [lia|].
      split.
      * constructor; [lia|]. eapply Forall_impl; [|exact F]. simpl. lia.
      * constructor; [exact S|]. eapply Forall_impl; [|exact F]. simpl. lia.
Qed.

(** X8.  The scan is throttled by the time of the last scan, whatever the pace
    and the order of the clock values of the updates: two scans of a run are
    more than 1000 ms apart, the first one more than 1000 ms after the last
    scan before the run, and an update that is not later than 1000 ms after
    the last scan detects nothing. *)
Theorem scans_are_spaced (d : t) (updates : list (Z * OrderBook)) :
  StronglySorted (fun a b => (a + 1000 < b)%Z)
    (lastOpportunityCheck d :: scanTimes d updates)
  /\ (forall now ob,
        (now - lastOpportunityCheck d <= 1000)%Z ->
        updateOrderBook parseFloat d now ob
        = ({| config := config d; tradeAmount := tradeAmount d;
              orderBooks := JsMap.set (orderBooks d) (orderKey ob) ob;
              lastOpportunityCheck := lastOpportunityCheck d |}, [])).
Proof.
  split.
  - destruct (scanTimes_later updates d) as [F S]. now constructor.
  - intros now ob H. unfold updateOrderBook, checkIntervalMs.
    cbn [lastOpportunityCheck].
    destruct (Z.ltb_spec 1000 (now - lastOpportunityCheck d)); [lia | reflexivity].
Qed.

End DetectorThrottle.

(* ------------------------------------------------------------------ *)
(** ** The keys of the book map and of the cache *)
(* ------------------------------------------------------------------ *)

Section BookKeys.

Import Shared Detector.

Lemma includes_cons (c : ascii) (s sub : string) :
  Str.includes (String c s) sub = false -> Str.includes s sub = false.
Proof.
  cbn -[ascii_dec]. intros H. apply orb_false_elim in H. tauto.
Qed.

Lemma colon_not_first (c : ascii) (s : string) :
  Str.includes (String c s) ":" = false -> c <> ":"%char.
Proof.
  cbn -[ascii_dec]. intros H. apply orb_false_elim in H. destruct H as [H _].
  destruct (ascii_dec ":" c) as [E|N]; [|congruence]. rewrite prefix_nil in H. discriminate H.
Qed.

(** A venue name without a colon is recovered from [venue:symbol]. *)
Lemma joined_injective (e1 e2 s1 s2 : string) :
  Str.includes e1 ":" = false -> Str.includes e2 ":" = false ->
  e1 ++ ":" ++ s1 = e2 ++ ":" ++ s2 -> e1 = e2 /\ s1 = s2.
Proof.
  revert e2. induction e1 as [|c e1 IH]; intros [|c2 e2] H1 H2; simpl; intros E.
  - injection E as ->. auto.
  - injection E as E _. apply colon_not_first in H2. congruence.
  - injection E as E _. apply colon_not_first in H1. congruence.
  - injection E as -> E. apply includes_cons in H1, H2.
    destruct (IH e2 H1 H2 E) as [-> ->]. auto.
Qed.

Variable parseFloat : string -> float.

(** X9.  Books are stored per venue and symbol: for venue names without a
    colon (all the venues of the repository), the book of one venue and
    symbol is never overwritten by the book of another venue or symbol,
    neither in the detector nor in the cache, and the stored book is read
    back under its own key. *)
Theorem books_keyed_by_venue_and_symbol (d : t) (now : Z) (ob1 ob2 : OrderBook) :
  Str.includes (exchange ob1) ":" = false ->
  Str.includes (exchange ob2) ":" = false ->
  exchange ob1 <> exchange ob2 \/ symbol ob1 <> symbol ob2 ->
  let d' := fst (updateOrderBook parseFloat d now ob2) in
  JsMap.get (orderBooks d') (orderKey ob1) = JsMap.get (orderBooks d) (orderKey ob1)
  /\ JsMap.get (orderBooks d') (orderKey ob2) = Some ob2
  /\ Manager.cacheKey ob1 <> Manager.cacheKey ob2.
Proof.
  intros H1 H2 Hne d'. unfold d'. rewrite updateOrderBook_books, !get_set.
  assert (K : orderKey ob2 <> orderKey ob1).
  { unfold orderKey. intros E. apply joined_injective in E; auto.
    destruct E as [E1 E2]. destruct Hne; congruence. }
  apply String.eqb_neq in K. rewrite K, String.eqb_refl.
  repeat split. unfold Manager.cacheKey. intros E.
  apply String.eqb_neq in K. apply K. unfold orderKey.
  simpl in E. repeat (injection E as E). symmetry. exact E.
Qed.

End BookKeys.

Section BookKeysExample.

Import Shared Detector.

Lemma books_keyed_example :
  let binance := book "binance" "BTCUSDT" "100" "101" 0 in
  let coinbase := book "coinbase" "BTC-USD" "100" "101" 0 in
  let d := withBooks create [binance] in
  let d' := fst (updateOrderBook Num.parseFloatDecimal d 5 coinbase) in
  JsMap.get (orderBooks d') (orderKey binance) = JsMap.get (orderBooks d) (orderKey binance)
  /\ JsMap.get (orderBooks d') (orderKey coinbase) = Some coinbase
  /\ Manager.cacheKey binance <> Manager.cacheKey coinbase.
Proof.
  apply (books_keyed_by_venue_and_symbol Num.parseFloatDecimal).
  - reflexivity.
  - reflexivity.
  - left. discriminate.
Defined.

End BookKeysExample.

(* ------------------------------------------------------------------ *)
(** ** The Binance client: levels after an update, replayed messages *)
(* ------------------------------------------------------------------ *)

Section JsMapLookup.

Context {V : Type}.
Implicit Types (m : JsMap.t V) (k : string) (v : V).

Lemma get_None_keys m k : JsMap.get m k = None <-> ~ In k (JsMap.keys m).
Proof.
  rewrite <- get_Some_keys. destruct (JsMap.get m k) as [v|].
  - split; [discriminate | intros H; exfalso; apply H; eauto].
  - split; [intros _ [v Hv]; discriminate | reflexivity].
Qed.

Lemma get_delete m k k' :
  NoDup (JsMap.keys m) ->
  JsMap.get (JsMap.delete m k) k' = if String.eqb k k' then None else JsMap.get m k'.
Proof.
  unfold JsMap.keys. induction m as [|[k0 v0] m IH]; simpl; intros Hnd.
  - destruct (String.eqb k k'); reflexivity.
  - inversion Hnd as [|? ? Hnotin Hnd']; subst.
    destruct (String.eqb_spec k0 k) as [->|Hne]; simpl.
    + destruct (String.eqb_spec k k') as [E|_]; [|reflexivity].
      rewrite <- E. now apply get_None_keys.
    + rewrite IH by assumption.
      destruct (String.eqb_spec k0 k') as [->|_]; [|reflexivity].
      destruct (String.eqb_spec k k') as [->|_]; [contradiction | reflexivity].
Qed.

Lemma In_get m k v : NoDup (JsMap.keys m) -> In (k, v) m -> JsMap.get m k = Some v.
Proof.
  unfold JsMap.keys. induction m as [|[k0 v0] m IH]; simpl; intros Hnd; [tauto|].
  inversion Hnd as [|? ? Hnotin Hnd']; subst.
  intros [[= -> ->] | Hin].
  - now rewrite String.eqb_refl.
  - destruct (String.eqb_spec k0 k) as [->|_]; [|auto].
    exfalso. apply Hnotin. now apply (in_map fst) in Hin.
Qed.

End JsMapLookup.

Section BinanceLevels.

Import Shared.
Local Open Scope float_scope.

Variable parseFloat : string -> float.

(** The quantity that the last entry of [l] for the price [p] carries. *)
Definition lastFor (l : list (string * string)) (p : string) : option string :=
  fold_left (fun acc pq => if String.eqb (fst pq) p then Some (snd pq) else acc) l None.

Definition levelsOf (side : list OrderBookEntry) : list (string * string) :=
  map (fun e => (price e, quantity e)) side.

Lemma lastFor_from (l : list (string * string)) (p : string) : forall acc,
  fold_left (fun acc pq => if String.eqb (fst pq) p then Some (snd pq) else acc) l acc
  = match lastFor l p with Some q => Some q | None => acc end.
Proof.
  unfold lastFor. induction l as [|[p0 q0] l IH]; intros acc; simpl; [reflexivity|].
  rewrite IH, (IH (if String.eqb p0 p then Some q0 else None)).
  destruct (fold_left _ l None); [reflexivity|].
  destruct (String.eqb p0 p); reflexivity.
Qed.

Lemma get_existing (existing : list OrderBookEntry) (p : string) : forall m0,
  JsMap.get
    (fold_left (fun m entry => JsMap.set m (price entry) (quantity entry)) existing m0) p
  = match lastFor (levelsOf existing) p with
    | Some q => Some q
    | None => JsMap.get m0 p
    end.
Proof.
  induction existing as [|e l IH]; intros m0; [reflexivity|].
  cbn [fold_left levelsOf map]. rewrite IH, get_set.
  unfold lastFor at 2. cbn [fold_left fst snd]. rewrite lastFor_from.
  fold (levelsOf l).
  destruct (lastFor (levelsOf l) p); [reflexivity|].
  destruct (String.eqb (price e) p); reflexivity.
Qed.

Lemma get_updates (updates : list (string * string)) (p : string) : forall m0,
  NoDup (JsMap.keys m0) ->
  JsMap.get (fold_left (Binance.applyUpdate parseFloat) updates m0) p
  = match lastFor updates p with
    | Some q => if parseFloat q =? 0 then None else Some q
    | None => JsMap.get m0 p
    end.
Proof.
  induction updates as [|[p0 q0] l IH]; intros m0 Hnd; [reflexivity|].
  cbn [fold_left]. rewrite IH.
  - unfold lastFor at 2. cbn [fold_left fst snd]. rewrite lastFor_from.
    destruct (lastFor l p); [reflexivity|].
    unfold Binance.applyUpdate.
    destruct (parseFloat q0 =? 0) eqn:Hq.
    + rewrite get_delete by assumption.
      destruct (String.eqb p0 p); [now rewrite Hq | reflexivity].
    + rewrite get_set. destruct (String.eqb p0 p); [now rewrite Hq | reflexivity].
  - unfold Binance.applyUpdate. destruct (parseFloat q0 =? 0).
    + now apply NoDup_keys_delete.
    + now apply NoDup_keys_set.
Qed.

(** X10.  The levels of a side after a depth update: a price carries the quantity
    of the last entry of the update that names it, unless that quantity
    parses to zero, in which case the price is gone; a price that the update
    does not name keeps the quantity of the stored side (of the last stored
    level at that price, should there be several).  The side holds nothing
    else. *)
Theorem binance_levels_after_update
  (existing : list OrderBookEntry) (updates : list (string * string))
  (side : Binance.Side) (p q : string) :
  In {| price := p; quantity := q |}
     (Binance.updateOrderBookSide parseFloat existing updates side)
  <-> match lastFor updates p with
      | Some qu => (parseFloat qu =? 0) = false /\ q = qu
      | None => lastFor (levelsOf existing) p = Some q
      end.
Proof.
  change (Binance.updateOrderBookSide parseFloat existing updates side)
    with (JsArray.sort (Binance.compareFn parseFloat side)
            (map Binance.toEntry (priceMapOf parseFloat existing updates))).
  destruct (priceMap_inv parseFloat existing updates) as (Hnd & _ & _).
  assert (Hget : JsMap.get (priceMapOf parseFloat existing updates) p
                 = match lastFor updates p with
                   | Some qu => if parseFloat qu =? 0 then None else Some qu
                   | None => lastFor (levelsOf existing) p
                   end).
  { unfold priceMapOf. rewrite get_updates.
    - destruct (lastFor updates p); [reflexivity|].
      rewrite get_existing. destruct (lastFor (levelsOf existing) p); reflexivity.
    - apply (existing_map_inv existing JsMap.empty). constructor. }
  assert (Hin : In {| price := p; quantity := q |}
                  (JsArray.sort (Binance.compareFn parseFloat side)
                     (map Binance.toEntry (priceMapOf parseFloat existing updates)))
                <-> JsMap.get (priceMapOf parseFloat existing updates) p = Some q).
  { split.
    - intros H.
      apply (Permutation_in _ (sort_perm (Binance.compareFn parseFloat side) _)) in H.
      apply in_map_iff in H. destruct H as ([k v] & E & H).
      injection E as -> ->. now apply In_get.
    - intros H. apply get_Some_In in H.
      apply (Permutation_in _
               (Permutation_sym (sort_perm (Binance.compareFn parseFloat side) _))).
      apply in_map_iff. exists (p, q). auto. }
  rewrite Hin, Hget.
  destruct (lastFor updates p) as [qu|]; [|reflexivity].
  destruct (parseFloat qu =? 0); split.
  - discriminate.
  - intros [H _]. discriminate.
  - intros [= ->]. auto.
  - intros [_ ->]. reflexivity.
Qed.

(** X11.  Once an update with the final id [u] (not zero) has been applied, every
    message for the same symbol whose first id is at most [u] is ignored: it
    changes no book and emits nothing.  A message received twice is applied
    once. *)
Theorem applied_update_blocks_older
  (books books1 : JsMap.t OrderBook) (update later : Binance.DepthUpdate)
  (emittedBook : OrderBook) :
  Binance.handleDepthUpdate parseFloat books update = (books1, Some emittedBook) ->
  Binance.s later = Binance.s update ->
  Binance.u update <> 0%Z ->
  (Binance.U later <= Binance.u update)%Z ->
  Binance.handleDepthUpdate parseFloat books1 later = (books1, None).
Proof.
  intros H Hs Hu HU. unfold Binance.handleDepthUpdate in H.
  destruct (JsMap.get books (Binance.s update)) as [existing|]; [|discriminate].
  destruct (Binance.isOldUpdate existing update); [discriminate|].
  injection H as <- <-.
  unfold Binance.handleDepthUpdate. rewrite Hs, get_set, String.eqb_refl.
  unfold Binance.isOldUpdate. cbn [lastUpdateId withSides].
  apply Z.eqb_neq in Hu. apply Z.leb_le in HU. now rewrite Hu, HU.
Qed.

End BinanceLevels.

Section BinanceLevelsExample.

Import Shared.

(** The small update of the bids, received a second time. *)
Lemma applied_update_blocks_older_example :
  let books1 :=
    fst (Binance.handleDepthUpdate Num.parseFloatDecimal smallBook smallUpdate) in
  Binance.handleDepthUpdate Num.parseFloatDecimal books1 smallUpdate = (books1, None).
Proof.
  refine (applied_update_blocks_older Num.parseFloatDecimal smallBook _
            smallUpdate smallUpdate
            {| symbol := "BTCUSDT"; exchange := "binance";
               bids := [level "101" "3"; level "100" "5";
                        level "98.7" "1"; level "98.5" "1"];
               asks := [level "100.5" "1"];
               timestamp := 1; lastUpdateId := Some 12%Z |} _ _ _ _).
  - reflexivity.
  - reflexivity.
  - discriminate.
  - vm_compute. discriminate.
Defined.

End BinanceLevelsExample.

(* ------------------------------------------------------------------ *)
(** ** The Kraken client and the spelling of Bitcoin *)
(* ------------------------------------------------------------------ *)

Section ReplaceFirst.

Lemma prefix_app (a x : string) : prefix a (a ++ x) = true.
Proof.
  induction a as [|c a IH]; cbn -[ascii_dec]; [apply prefix_nil|].
  destruct (ascii_dec c c) as [_|N]; [exact IH | contradiction].
Qed.

Lemma includes_prefix (s sub : string) : prefix sub s = true -> Str.includes s sub = true.
Proof. intros H. destruct s; cbn -[prefix]; rewrite H; reflexivity. Qed.

Lemma includes_String (c : ascii) (s sub : string) :
  Str.includes (String c s) sub = prefix sub (String c s) || Str.includes s sub.
Proof. reflexivity. Qed.

(** Replacing the first occurrence either finds none and returns the text,
    or returns a text in which the replacement occurs. *)
Lemma replaceFirst_cases (pat rep s : string) :
  (Str.includes s pat = false /\ Str.replaceFirst pat rep s = s)
  \/ Str.includes (Str.replaceFirst pat rep s) rep = true.
Proof.
  induction s as [|c s IH].
  - cbn -[prefix]. destruct (prefix pat "") eqn:E.
    + right. apply includes_prefix, prefix_app.
    + left. auto.
  - cbn [Str.replaceFirst]. destruct (prefix pat (String c s)) eqn:E.
    + right. apply includes_prefix, prefix_app.
    + destruct IH as [[H1 H2] | H].
      * left. rewrite includes_String, E, H1, H2. auto.
      * right. rewrite includes_String, H. apply orb_true_r.
Qed.

End ReplaceFirst.

Section KrakenBitcoin.

Import Shared.

Variable parseFloat : string -> float.

(** X12.  The client writes [BTC] for the first [XBT] of the pair of every
    message before it looks the book up.  A book stored under a key that
    contains [XBT] and not [BTC] is therefore out of reach: no message
    changes it, and a book that is emitted was stored under another key.
    [XBT/USD], the native symbol that the registry gives the manager for
    [BTCUSD], is such a key. *)
Theorem kraken_xbt_book_never_updated
  (books : JsMap.t OrderBook) (now : Z) (message : Kraken.Message) (k : string) :
  Str.includes k "XBT" = true -> Str.includes k "BTC" = false ->
  let result := Kraken.handleMessage parseFloat books now message in
  JsMap.get (fst result) k = JsMap.get books k
  /\ (forall ob, snd result = Some ob ->
        exists key, key <> k /\ JsMap.get (fst result) key = Some ob).
Proof.
  intros Hx Hb.
  destruct message as [|channelID data channelName pairName|]; cbn;
    [split; [reflexivity | discriminate]| |split; [reflexivity | discriminate]].
  unfold Kraken.handleOrderBookUpdate.
  destruct (negb (String.eqb channelName "book-100"));
    [split; [reflexivity | discriminate]|].
  set (symbol := Str.replaceFirst "XBT" "BTC" pairName).
  assert (Hne : symbol <> k).
  { intros E. destruct (replaceFirst_cases "XBT" "BTC" pairName) as [[H1 H2] | H].
    - fold symbol in H2. rewrite <- H2, E in H1. congruence.
    - fold symbol in H. rewrite E in H. congruence. }
  destruct (JsMap.get books symbol) as [existing|];
    [|split; [reflexivity | discriminate]].
  destruct (match Kraken.bs data with Some _ => _ | None => _ end) as [ub ua].
  cbn [fst snd]. split.
  - rewrite get_set. apply String.eqb_neq in Hne. now rewrite Hne.
  - intros ob [= <-]. exists symbol. split; [exact Hne|].
    now rewrite get_set, String.eqb_refl.
Qed.

End KrakenBitcoin.

Section KrakenBitcoinExample.

Import Shared.

(** The Kraken client as the manager creates it for the default
    configuration, after priming. *)
Definition krakenSymbols : list string :=
  Configuration.getSymbolsForExchange Configuration.defaultConfig "kraken".

Definition primedKraken : JsMap.t OrderBook :=
  fold_left
    (fun books symbol =>
       JsMap.set books symbol
         (Kraken.snapshotBook symbol [("100", "1")] [("101", "1")] 0))
    krakenSymbols JsMap.empty.

Definition bitcoinUpdate : Kraken.Message :=
  Kraken.BookMessage 42
    {| Kraken.bs := None; Kraken.as_ := None;
       Kraken.b := Some [("100.5", "2")]; Kraken.a := None |}
    "book-100" "XBT/USD".

Lemma kraken_xbt_book_example :
  krakenSymbols = ["XBT/USD"; "ETH/USD"]
  /\ let result :=
       Kraken.handleMessage Num.parseFloatDecimal primedKraken 5 bitcoinUpdate in
     JsMap.get (fst result) "XBT/USD" = JsMap.get primedKraken "XBT/USD"
     /\ (forall ob, snd result = Some ob ->
           exists key, key <> "XBT/USD" /\ JsMap.get (fst result) key = Some ob).
Proof.
  split; [reflexivity|].
  apply (kraken_xbt_book_never_updated Num.parseFloatDecimal primedKraken 5
           bitcoinUpdate "XBT/USD"); reflexivity.
Defined.

End KrakenBitcoinExample.

(* ------------------------------------------------------------------ *)
(** ** The sides emitted by the clients that apply deltas *)
(* ------------------------------------------------------------------ *)

Section DeltaClients.

Import Shared.
Local Open Scope float_scope.

Variable parseFloat : string -> float.
Variable dateToMs : string -> Z.

Local Notation "'wellFormed'" := (wellFormedPrices parseFloat).

(** The levels that a Kraken update carries for a side. *)
Definition krakenLevels (updates : option (list (string * string)))
  : list (string * string) :=
  match updates with Some l => l | None => [] end.

(** The levels that the changes of a Coinbase update carry for the side
    named [sideName] ([buy] or [sell]). *)
Definition coinbaseLevels (sideName : string) (changes : list (string * string * string))
  : list (string * string) :=
  flat_map
    (fun change =>
       let '(side, price, size) := change in
       if String.eqb side sideName then [(price, size)] else [])
    changes.

(** The levels that the events of a Gemini update carry for the side named
    [sideName] ([bid] or [ask]). *)
Definition geminiLevels (sideName : string) (events : list Gemini.ChangeEvent)
  : list (string * string) :=
  flat_map
    (fun event =>
       if String.eqb (Gemini.eventType event) "change"
          && String.eqb (Gemini.side event) sideName
       then [(Gemini.price event, Gemini.remaining event)] else [])
    events.

Lemma kraken_deltas side updates :
  Kraken.applyDeltas parseFloat side updates
  = Bybit.applyDeltas parseFloat side (krakenLevels updates).
Proof. destruct updates; reflexivity. Qed.

Lemma coinbase_changes changes : forall updatedBids updatedAsks,
  fold_left (Coinbase.applyChange parseFloat) changes (updatedBids, updatedAsks)
  = (Bybit.applyDeltas parseFloat updatedBids (coinbaseLevels "buy" changes),
     Bybit.applyDeltas parseFloat updatedAsks (coinbaseLevels "sell" changes)).
Proof.
  induction changes as [|[[side p] q] l IH]; intros ub ua; [reflexivity|].
  cbn [fold_left Coinbase.applyChange coinbaseLevels flat_map].
  destruct (String.eqb_spec side "buy") as [->|Hb].
  - rewrite IH. reflexivity.
  - destruct (String.eqb_spec side "sell") as [->|Hs]; rewrite IH; reflexivity.
Qed.

Lemma gemini_events events : forall updatedBids updatedAsks,
  fold_left (Gemini.applyEvent parseFloat) events (updatedBids, updatedAsks)
  = (Bybit.applyDeltas parseFloat updatedBids (geminiLevels "bid" events),
     Bybit.applyDeltas parseFloat updatedAsks (geminiLevels "ask" events)).
Proof.
  induction events as [|e l IH]; intros ub ua; [reflexivity|].
  cbn [fold_left Gemini.applyEvent geminiLevels flat_map].
  destruct (String.eqb (Gemini.eventType e) "change"); cbn [andb].
  - destruct (String.eqb_spec (Gemini.side e) "bid") as [Eb|Hb].
    + rewrite IH, Eb. reflexivity.
    + destruct (String.eqb_spec (Gemini.side e) "ask") as [Ea|Ha];
        rewrite IH; reflexivity.
  - rewrite IH. reflexivity.
Qed.

(** The side [r] of the emitted book is what the levels [updates] make of
    the stored side [existing], provided their prices are well formed and
    the stored side has one level per price. *)
Definition sideAfter (side : Binance.Side) (existing : list OrderBookEntry)
  (updates : list (string * string)) (r : list OrderBookEntry) : Prop :=
  wellFormed (map price existing ++ map fst updates)%list = true ->
  NoDup (map price existing) ->
  sideOK parseFloat side existing updates r.

(** X13.  The clients of Kraken, Coinbase and Gemini keep their sides as the
    Bybit client does.  Provided the prices of the stored side and of the
    update are well formed (none parses to [NaN], different texts denote
    different numbers) and the stored side has one level per price text
    ([sideAfter]), the book emitted after an update that is not a snapshot
    has, on that side, one level per price text, in strict price order
    (bids descending, asks ascending), without a zero-quantity level when
    the stored side had none, and with at most the stored levels plus the
    levels of the update: no side is cut to a depth. *)
Theorem delta_clients_emit_ordered_sides :
  (forall books now data channelName pairName books' emittedBook,
     Kraken.handleOrderBookUpdate parseFloat books now data channelName pairName
       = (books', Some emittedBook) ->
     Kraken.bs data = None \/ Kraken.as_ data = None ->
     exists existing,
       JsMap.get books (Str.replaceFirst "XBT" "BTC" pairName) = Some existing
       /\ sideAfter Binance.Bids (bids existing) (krakenLevels (Kraken.b data))
            (bids emittedBook)
       /\ sideAfter Binance.Asks (asks existing) (krakenLevels (Kraken.a data))
            (asks emittedBook))
  /\ (forall books product_id time changes books' emittedBook,
        Coinbase.handleL2Update parseFloat dateToMs books product_id time changes
          = (books', Some emittedBook) ->
        exists existing,
          JsMap.get books product_id = Some existing
          /\ sideAfter Binance.Bids (bids existing) (coinbaseLevels "buy" changes)
               (bids emittedBook)
          /\ sideAfter Binance.Asks (asks existing) (coinbaseLevels "sell" changes)
               (asks emittedBook))
  /\ (forall books update symbol books' emittedBook,
        Gemini.handleOrderBookUpdate parseFloat books update symbol
          = (books', Some emittedBook) ->
        exists existing,
          JsMap.get books (Str.toUpperCase symbol) = Some existing
          /\ sideAfter Binance.Bids (bids existing)
               (geminiLevels "bid" (Gemini.events update)) (bids emittedBook)
          /\ sideAfter Binance.Asks (asks existing)
               (geminiLevels "ask" (Gemini.events update)) (asks emittedBook)).
Proof.
  split; [|split].
  - intros books now data channelName pairName books' ob H Hdelta.
    unfold Kraken.handleOrderBookUpdate in H.
    destruct (negb (String.eqb channelName "book-100")); [discriminate|].
    destruct (JsMap.get books (Str.replaceFirst "XBT" "BTC" pairName))
      as [existing|]; [|discriminate].
    assert (E : match Kraken.bs data, Kraken.as_ data with
                | Some snapshotBids, Some snapshotAsks =>
                    (map Binance.toEntry snapshotBids, map Binance.toEntry snapshotAsks)
                | _, _ =>
                    (Kraken.applyDeltas parseFloat (bids existing) (Kraken.b data),
                     Kraken.applyDeltas parseFloat (asks existing) (Kraken.a data))
                end
                = (Kraken.applyDeltas parseFloat (bids existing) (Kraken.b data),
                   Kraken.applyDeltas parseFloat (asks existing) (Kraken.a data))).
    { destruct Hdelta as [-> | ->]; [reflexivity|].
      destruct (Kraken.bs data); reflexivity. }
    rewrite E in H. injection H as _ <-. exists existing. split; [reflexivity|].
    cbn [bids asks withSides]. rewrite !kraken_deltas.
    split; intros Hwf Hnd.
    + change (Kraken.descending parseFloat)
        with (Binance.compareFn parseFloat Binance.Bids).
      now apply bybit_side.
    + change (Kraken.ascending parseFloat)
        with (Binance.compareFn parseFloat Binance.Asks).
      now apply bybit_side.
  - intros books product_id time changes books' ob H.
    unfold Coinbase.handleL2Update in H.
    destruct (JsMap.get books product_id) as [existing|]; [|discriminate].
    rewrite coinbase_changes in H. injection H as _ <-.
    exists existing. split; [reflexivity|].
    cbn [bids asks withSides]. split; intros Hwf Hnd.
    + change (Coinbase.descending parseFloat)
        with (Binance.compareFn parseFloat Binance.Bids).
      now apply bybit_side.
    + change (Coinbase.ascending parseFloat)
        with (Binance.compareFn parseFloat Binance.Asks).
      now apply bybit_side.
  - intros books update symbol books' ob H.
    unfold Gemini.handleOrderBookUpdate in H.
    destruct (JsMap.get books (Str.toUpperCase symbol)) as [existing|];
      [|discriminate].
    rewrite gemini_events in H. injection H as _ <-.
    exists existing. split; [reflexivity|].
    cbn [bids asks withSides]. split; intros Hwf Hnd.
    + change (Gemini.descending parseFloat)
        with (Binance.compareFn parseFloat Binance.Bids).
      now apply bybit_side.
    + change (Gemini.ascending parseFloat)
        with (Binance.compareFn parseFloat Binance.Asks).
      now apply bybit_side.
Qed.

End DeltaClients.

Section DeltaClientsExample.

Import Shared.

(** A Kraken book for [ETH/USD] with the bids 100, 99 and 98.5, and an
    update that removes 99, adds 101 and changes the quantity at 100. *)
Definition krakenBook : JsMap.t OrderBook :=
  JsMap.set JsMap.empty "ETH/USD"
    {| symbol := "ETH/USD"; exchange := "kraken";
       bids := [level "100" "1"; level "99" "2"; level "98.5" "1"];
       asks := [level "100.5" "1"];
       timestamp := 0; lastUpdateId := None |}.

Definition krakenUpdate : Kraken.BookData :=
  {| Kraken.bs := None; Kraken.as_ := None;
     Kraken.b := Some [("99", "0.00000000"); ("101", "3"); ("100", "5")];
     Kraken.a := None |}.

Lemma delta_clients_example :
  sideOK Num.parseFloatDecimal Binance.Bids
    [level "100" "1"; level "99" "2"; level "98.5" "1"]
    [("99", "0.00000000"); ("101", "3"); ("100", "5")]
    [level "101" "3"; level "100" "5"; level "98.5" "1"].
Proof.
  destruct (proj1 (delta_clients_emit_ordered_sides Num.parseFloatDecimal (fun _ => 0%Z))
              krakenBook 7%Z krakenUpdate "book-100" "ETH/USD"
              (fst (Kraken.handleOrderBookUpdate Num.parseFloatDecimal krakenBook 7
                      krakenUpdate "book-100" "ETH/USD"))
              {| symbol := "ETH/USD"; exchange := "kraken";
                 bids := [level "101" "3"; level "100" "5"; level "98.5" "1"];
                 asks := [level "100.5" "1"];
                 timestamp := 7; lastUpdateId := None |}
              eq_refl (or_introl eq_refl))
    as (existing & Hget & Hbids & _).
  injection Hget as <-.
  apply Hbids.
  - reflexivity.
  - repeat constructor; simpl; intuition discriminate.
Defined.

End DeltaClientsExample.

(* ------------------------------------------------------------------ *)
(** ** The books emitted through a run of messages (C3) *)
(* ------------------------------------------------------------------ *)

(** A run of a client: the messages are handled one after the other; the
    books of the client after the run and the books it emitted, in
    order. *)
Fixpoint runMessages {Msg : Type}
  (step : JsMap.t Shared.OrderBook -> Msg
          -> JsMap.t Shared.OrderBook * option Shared.OrderBook)
  (books : JsMap.t Shared.OrderBook) (messages : list Msg)
  : JsMap.t Shared.OrderBook * list Shared.OrderBook :=
  match messages with
  | [] => (books, [])
  | message :: rest =>
      let '(books1, emittedBook) := step books message in
      let '(books2, emittedBooks) := runMessages step books1 rest in
      (books2, (Detector.optList emittedBook ++ emittedBooks)%list)
  end.

Section EmittedRuns.

Import Shared.
Local Open Scope float_scope.

Variable parseFloat : string -> float.
Variable dateToMs : string -> Z.

Local Notation "'wellFormed'" := (wellFormedPrices parseFloat).

(** What a client relies on in a side that it stores as it receives it (a
    primed side, a side of a snapshot message): its prices are among the
    well-formed prices [ps]; it has one level per price text (when [unique]
    is set; the Binance client does not need this); it has no zero-quantity
    level (when [clean] is set). *)
Definition keptSide (ps : list string) (clean unique : bool)
  (l : list OrderBookEntry) : Prop :=
  incl (map price l) ps
  /\ (unique = true -> NoDup (map price l))
  /\ (clean = true -> Forall (nonZero parseFloat) l).

Definition keptBook (ps : list string) (clean unique : bool) (ob : OrderBook) : Prop :=
  keptSide ps clean unique (bids ob) /\ keptSide ps clean unique (asks ob).

(** What C3 asks of an emitted side, without the bound on its length: one
    level per price text, strict order by price, and (when [clean] is set)
    no zero-quantity level. *)
Definition goodSide (clean : bool) (side : Binance.Side)
  (l : list OrderBookEntry) : Prop :=
  NoDup (map price l)
  /\ strictlyOrdered parseFloat side l
  /\ (clean = true -> Forall (nonZero parseFloat) l).

Definition goodBook (clean : bool) (ob : OrderBook) : Prop :=
  goodSide clean Binance.Bids (bids ob) /\ goodSide clean Binance.Asks (asks ob).

(** The prices of the levels of a message are among [ps]. *)
Definition levelsIn (ps : list string) (l : list (string * string)) : Prop :=
  incl (map fst l) ps.

(** The levels that a KuCoin update carries for a side. *)
Definition kucoinLevels (changes : option (list (string * string * string)))
  : list (string * string) :=
  match changes with Some l => map fst l | None => [] end.

(** The messages that a run may hold, client by client.  An incremental
    update carries prices of [ps]; a side of a snapshot message is a side
    the client can keep; a snapshot message of Coinbase, which is emitted
    as it is received, is in order already; a ticker of Coinbase is not
    admitted. *)
Definition binanceOK (ps : list string) (update : Binance.DepthUpdate) : Prop :=
  levelsIn ps (Binance.b update) /\ levelsIn ps (Binance.a update).

Definition bybitOK (ps : list string) (clean : bool)
  (message : Z * Bybit.OrderBookUpdate) : Prop :=
  let data := Bybit.data (snd message) in
  if String.eqb (Bybit.type (snd message)) "snapshot"
  then keptSide ps clean true (map Binance.toEntry (Bybit.b data))
       /\ keptSide ps clean true (map Binance.toEntry (Bybit.a data))
  else levelsIn ps (Bybit.b data) /\ levelsIn ps (Bybit.a data).

Definition krakenOK (ps : list string) (clean : bool)
  (message : Z * Kraken.Message) : Prop :=
  match snd message with
  | Kraken.BookMessage _ data _ _ =>
      match Kraken.bs data, Kraken.as_ data with
      | Some snapshotBids, Some snapshotAsks =>
          keptSide ps clean true (map Binance.toEntry snapshotBids)
          /\ keptSide ps clean true (map Binance.toEntry snapshotAsks)
      | _, _ =>
          levelsIn ps (krakenLevels (Kraken.b data))
          /\ levelsIn ps (krakenLevels (Kraken.a data))
      end
  | Kraken.EventMessage | Kraken.OtherArray => True
  end.

Definition coinbaseOK (ps : list string) (clean : bool)
  (message : Z * Coinbase.Message) : Prop :=
  match snd message with
  | Coinbase.Snapshot _ snapshotBids snapshotAsks _ =>
      levelsIn ps snapshotBids /\ levelsIn ps snapshotAsks
      /\ goodSide clean Binance.Bids (map Binance.toEntry snapshotBids)
      /\ goodSide clean Binance.Asks (map Binance.toEntry snapshotAsks)
  | Coinbase.L2Update _ _ changes =>
      levelsIn ps (coinbaseLevels "buy" changes)
      /\ levelsIn ps (coinbaseLevels "sell" changes)
  | Coinbase.Ticker _ _ _ _ _ => False
  | Coinbase.Subscriptions | Coinbase.Unknown => True
  end.

Definition geminiOK (ps : list string) (message : Gemini.Update * string) : Prop :=
  levelsIn ps (geminiLevels "bid" (Gemini.events (fst message)))
  /\ levelsIn ps (geminiLevels "ask" (Gemini.events (fst message))).

Definition kucoinOK (ps : list string) (message : Z * KuCoin.Message) : Prop :=
  let changes := KuCoin.changes (KuCoin.data (snd message)) in
  levelsIn ps (kucoinLevels (KuCoin.bids changes))
  /\ levelsIn ps (kucoinLevels (KuCoin.asks changes)).

(** The books that a client emits through a run. *)
Definition binanceEmitted (books : JsMap.t OrderBook) (updates : list Binance.DepthUpdate)
  : list OrderBook :=
  snd (runMessages (Binance.handleDepthUpdate parseFloat) books updates).

(** For the clients that read the clock, a message comes with the clock
    value read when it is handled. *)
Definition bybitEmitted (books : JsMap.t OrderBook)
  (messages : list (Z * Bybit.OrderBookUpdate)) : list OrderBook :=
  snd (runMessages
         (fun books message =>
            Bybit.handleMessage parseFloat books (fst message) (snd message))
         books messages).

Definition krakenEmitted (books : JsMap.t OrderBook)
  (messages : list (Z * Kraken.Message)) : list OrderBook :=
  snd (runMessages
         (fun books message =>
            Kraken.handleMessage parseFloat books (fst message) (snd message))
         books messages).

Definition coinbaseEmitted (books : JsMap.t OrderBook)
  (messages : list (Z * Coinbase.Message)) : list OrderBook :=
  snd (runMessages
         (fun books message =>
            Coinbase.handleMessage parseFloat dateToMs books (fst message) (snd message))
         books messages).

(** A message of Gemini comes with the symbol of its socket. *)
Definition geminiEmitted (books : JsMap.t OrderBook)
  (messages : list (Gemini.Update * string)) : list OrderBook :=
  snd (runMessages
         (fun books message =>
            Gemini.handleMessage parseFloat books (fst message) (snd message))
         books messages).

Definition kucoinEmitted (books : JsMap.t OrderBook)
  (messages : list (Z * KuCoin.Message)) : list OrderBook :=
  snd (runMessages
         (fun books message =>
            KuCoin.handleMessage parseFloat books (fst message) (snd message))
         books messages).

Lemma kucoin_changes side changes :
  KuCoin.applyChanges parseFloat side changes
  = Bybit.applyDeltas parseFloat side (kucoinLevels changes).
Proof.
  destruct changes as [l|]; [|reflexivity].
  unfold KuCoin.applyChanges, Bybit.applyDeltas, kucoinLevels.
  revert side. induction l as [|c l IH]; intros side; [reflexivity|].
  cbn [fold_left map]. apply IH.
Qed.

Lemma run_emits {Msg : Type}
  (step : JsMap.t OrderBook -> Msg -> JsMap.t OrderBook * option OrderBook)
  (Kept Good : OrderBook -> Prop) (ok : Msg -> Prop) :
  (forall books message books' emittedBook,
     Forall Kept (JsMap.values books) -> ok message ->
     step books message = (books', emittedBook) ->
     Forall Kept (JsMap.values books')
     /\ (forall ob, emittedBook = Some ob -> Good ob)) ->
  forall messages books,
    Forall Kept (JsMap.values books) -> Forall ok messages ->
    Forall Good (snd (runMessages step books messages)).
Proof.
  intros Hstep. induction messages as [|m rest IH]; intros books Hk Hok;
    cbn [runMessages]; [constructor|].
  inversion Hok as [|? ? Hm Hrest]; subst.
  destruct (step books m) as [books1 e] eqn:E.
  destruct (Hstep books m books1 e Hk Hm E) as [Hk1 He].
  specialize (IH books1 Hk1 Hrest).
  destruct (runMessages step books1 rest) as [books2 es]. cbn [snd] in *.
  apply Forall_app. split; [|exact IH].
  destruct e as [ob|]; cbn; [|constructor].
  constructor; [now apply He | constructor].
Qed.

Section Invariant.

Variable ps : list string.
Variable clean : bool.
Hypothesis Hwf : wellFormed ps = true.

Lemma stored_book (unique : bool) (books : JsMap.t OrderBook) (k : string)
  (ob : OrderBook) :
  Forall (keptBook ps clean unique) (JsMap.values books) ->
  JsMap.get books k = Some ob -> keptBook ps clean unique ob.
Proof.
  intros H Hget. rewrite Forall_forall in H. apply H.
  apply get_Some_In in Hget. unfold JsMap.values.
  now apply (in_map snd) in Hget.
Qed.

Lemma stored_after_set (unique : bool) (books : JsMap.t OrderBook) (k : string)
  (ob : OrderBook) :
  Forall (keptBook ps clean unique) (JsMap.values books) ->
  keptBook ps clean unique ob ->
  Forall (keptBook ps clean unique) (JsMap.values (JsMap.set books k ob)).
Proof.
  intros H Hob. apply Forall_forall. intros x Hx.
  apply values_set_In in Hx. destruct Hx as [-> | Hx]; [exact Hob|].
  rewrite Forall_forall in H. now apply H.
Qed.

(** Sorting a side that can be kept gives a side in order. *)
Lemma sorted_kept (side : Binance.Side) (l : list OrderBookEntry) :
  keptSide ps clean true l ->
  let r := JsArray.sort (Binance.compareFn parseFloat side) l in
  goodSide clean side r /\ incl (map price r) ps.
Proof.
  intros (Hincl & Hnd & Hnz) r.
  pose proof (sort_perm (Binance.compareFn parseFloat side) l) as Hperm.
  fold r in Hperm.
  assert (Hincl' : incl (map price r) ps).
  { intros p Hp. apply Hincl.
    apply (Permutation_in p (Permutation_map price Hperm)). exact Hp. }
  assert (HnoDup : NoDup (map price r)).
  { apply (Permutation_NoDup (l := map price l)); auto.
    apply Permutation_map, Permutation_sym, Hperm. }
  split; [|exact Hincl']. split; [exact HnoDup|]. split.
  - apply (strict_side parseFloat side ps r Hwf Hincl' HnoDup).
    now apply (sorted_side parseFloat side ps l Hwf).
  - intros Hc. apply (Permutation_Forall (Permutation_sym Hperm)). auto.
Qed.

(** The deltas of a message keep a side that can be kept. *)
Lemma deltas_kept (l : list OrderBookEntry) (updates : list (string * string)) :
  keptSide ps clean true l -> levelsIn ps updates ->
  keptSide ps clean true (Bybit.applyDeltas parseFloat l updates).
Proof.
  intros (Hincl & Hnd & Hnz) Hups.
  destruct (bybit_deltas_inv parseFloat updates l) as (A1 & A2 & A3 & _).
  split; [|split].
  - intros p Hp. apply A3 in Hp. apply in_app_or in Hp.
    destruct Hp as [Hp | Hp]; [now apply Hincl | now apply Hups].
  - intros _. apply A1. now apply Hnd.
  - intros Hc. apply A2. now apply Hnz.
Qed.

Lemma good_kept (unique : bool) (side : Binance.Side) (l : list OrderBookEntry) :
  goodSide clean side l -> incl (map price l) ps -> keptSide ps clean unique l.
Proof. intros (Hnd & _ & Hnz) Hincl. split; [exact Hincl|]. split; auto. Qed.

Lemma sorted_deltas (side : Binance.Side) (l : list OrderBookEntry)
  (updates : list (string * string)) :
  keptSide ps clean true l -> levelsIn ps updates ->
  let r := JsArray.sort (Binance.compareFn parseFloat side)
             (Bybit.applyDeltas parseFloat l updates) in
  goodSide clean side r /\ keptSide ps clean true r.
Proof.
  intros Hk Hups r.
  destruct (sorted_kept side _ (deltas_kept l updates Hk Hups)) as [Hg Hi].
  split; [exact Hg|]. now apply (good_kept true side).
Qed.

Lemma sorted_snapshot (side : Binance.Side) (l : list OrderBookEntry) :
  keptSide ps clean true l ->
  let r := JsArray.sort (Binance.compareFn parseFloat side) l in
  goodSide clean side r /\ keptSide ps clean true r.
Proof.
  intros Hk r. destruct (sorted_kept side l Hk) as [Hg Hi].
  split; [exact Hg|]. now apply (good_kept true side).
Qed.

(** The price map of the Binance client makes a side in order of any side
    with prices of [ps]. *)
Lemma binance_kept (unique : bool) (side : Binance.Side) (l : list OrderBookEntry)
  (updates : list (string * string)) :
  keptSide ps clean false l -> levelsIn ps updates ->
  let r := Binance.updateOrderBookSide parseFloat l updates side in
  goodSide clean side r /\ keptSide ps clean unique r.
Proof.
  intros (Hincl & _ & Hnz) Hups r.
  assert (E : r = JsArray.sort (Binance.compareFn parseFloat side)
                    (map Binance.toEntry (priceMapOf parseFloat l updates)))
    by reflexivity.
  destruct (priceMap_inv parseFloat l updates) as (Hnd & Horigin & _).
  set (entries := map Binance.toEntry (priceMapOf parseFloat l updates)) in *.
  assert (Hk : keptSide ps clean true entries).
  { split; [|split].
    - intros p Hp. unfold entries in Hp. rewrite prices_of_entries in Hp.
      unfold JsMap.keys in Hp. apply in_map_iff in Hp.
      destruct Hp as (kv & <- & Hin).
      destruct (Horigin kv Hin) as [(e & He & Hpe & _) | [Hu _]].
      + apply Hincl. rewrite <- Hpe. now apply in_map.
      + apply Hups. now apply in_map.
    - intros _. unfold entries. now rewrite prices_of_entries.
    - intros Hc. apply Forall_forall. intros e He. unfold entries in He.
      apply in_map_iff in He. destruct He as (kv & <- & Hin).
      specialize (Hnz Hc). rewrite Forall_forall in Hnz. unfold nonZero. cbn.
      destruct (Horigin kv Hin) as [(e & He & _ & Hqe) | [_ Hz]].
      + rewrite <- Hqe. now apply Hnz.
      + exact Hz. }
  rewrite E. destruct (sorted_kept side entries Hk) as [Hg Hi].
  split; [exact Hg|]. now apply (good_kept unique side).
Qed.

Lemma binance_step books update books' emittedBook :
  Forall (keptBook ps clean false) (JsMap.values books) -> binanceOK ps update ->
  Binance.handleDepthUpdate parseFloat books update = (books', emittedBook) ->
  Forall (keptBook ps clean false) (JsMap.values books')
  /\ (forall ob, emittedBook = Some ob -> goodBook clean ob).
Proof.
  intros Hk [Hb Ha] H. unfold Binance.handleDepthUpdate in H.
  destruct (JsMap.get books (Binance.s update)) as [existing|] eqn:G;
    [|injection H as <- <-; split; [exact Hk | discriminate]].
  destruct (Binance.isOldUpdate existing update);
    [injection H as <- <-; split; [exact Hk | discriminate]|].
  destruct (stored_book false books _ existing Hk G) as [Kb Ka].
  destruct (binance_kept false Binance.Bids _ _ Kb Hb) as [Gb Kb'].
  destruct (binance_kept false Binance.Asks _ _ Ka Ha) as [Ga Ka'].
  injection H as <- <-. split.
  - apply stored_after_set; [exact Hk | split; assumption].
  - intros ob [= <-]. split; assumption.
Qed.

Lemma bybit_step books message books' emittedBook :
  Forall (keptBook ps clean true) (JsMap.values books) -> bybitOK ps clean message ->
  Bybit.handleMessage parseFloat books (fst message) (snd message)
    = (books', emittedBook) ->
  Forall (keptBook ps clean true) (JsMap.values books')
  /\ (forall ob, emittedBook = Some ob -> goodBook clean ob).
Proof.
  intros Hk Hok H. destruct message as [now update]. cbn [fst snd] in *.
  unfold Bybit.handleMessage in H.
  destruct (Str.truthy (Bybit.topic update) && prefix "orderbook" (Bybit.topic update));
    [|injection H as <- <-; split; [exact Hk | discriminate]].
  unfold Bybit.handleOrderBookUpdate in H.
  destruct (JsMap.get books (Bybit.s (Bybit.data update))) as [existing|] eqn:G;
    [|injection H as <- <-; split; [exact Hk | discriminate]].
  destruct (stored_book true books _ existing Hk G) as [Kb Ka].
  unfold bybitOK in Hok. cbn [snd] in Hok.
  change (Bybit.descending parseFloat)
    with (Binance.compareFn parseFloat Binance.Bids) in H.
  change (Bybit.ascending parseFloat)
    with (Binance.compareFn parseFloat Binance.Asks) in H.
  destruct (String.eqb (Bybit.type update) "snapshot"); destruct Hok as [Hb Ha].
  - destruct (sorted_snapshot Binance.Bids _ Hb) as [Gb Kb'].
    destruct (sorted_snapshot Binance.Asks _ Ha) as [Ga Ka'].
    injection H as <- <-. split.
    + apply stored_after_set; [exact Hk | split; assumption].
    + intros ob [= <-]. split; assumption.
  - destruct (sorted_deltas Binance.Bids _ _ Kb Hb) as [Gb Kb'].
    destruct (sorted_deltas Binance.Asks _ _ Ka Ha) as [Ga Ka'].
    injection H as <- <-. split.
    + apply stored_after_set; [exact Hk | split; assumption].
    + intros ob [= <-]. split; assumption.
Qed.

Lemma kraken_step books message books' emittedBook :
  Forall (keptBook ps clean true) (JsMap.values books) -> krakenOK ps clean message ->
  Kraken.handleMessage parseFloat books (fst message) (snd message)
    = (books', emittedBook) ->
  Forall (keptBook ps clean true) (JsMap.values books')
  /\ (forall ob, emittedBook = Some ob -> goodBook clean ob).
Proof.
  intros Hk Hok H. destruct message as [now [|channelID data channelName pairName|]];
    cbn [fst snd Kraken.handleMessage] in *;
    try (injection H as <- <-; split; [exact Hk | discriminate]).
  unfold Kraken.handleOrderBookUpdate in H.
  destruct (negb (String.eqb channelName "book-100"));
    [injection H as <- <-; split; [exact Hk | discriminate]|].
  destruct (JsMap.get books (Str.replaceFirst "XBT" "BTC" pairName))
    as [existing|] eqn:G;
    [|injection H as <- <-; split; [exact Hk | discriminate]].
  destruct (stored_book true books _ existing Hk G) as [Kb Ka].
  unfold krakenOK in Hok. cbn [snd] in Hok.
  change (Kraken.descending parseFloat)
    with (Binance.compareFn parseFloat Binance.Bids) in H.
  change (Kraken.ascending parseFloat)
    with (Binance.compareFn parseFloat Binance.Asks) in H.
  rewrite !kraken_deltas in H.
  assert (Hdelta : levelsIn ps (krakenLevels (Kraken.b data))
                   /\ levelsIn ps (krakenLevels (Kraken.a data)) ->
                   forall books0 e0,
                     (JsMap.set books (Str.replaceFirst "XBT" "BTC" pairName)
                        (withSides existing
                           (JsArray.sort (Binance.compareFn parseFloat Binance.Bids)
                              (Bybit.applyDeltas parseFloat (bids existing)
                                 (krakenLevels (Kraken.b data))))
                           (JsArray.sort (Binance.compareFn parseFloat Binance.Asks)
                              (Bybit.applyDeltas parseFloat (asks existing)
                                 (krakenLevels (Kraken.a data))))
                           now (lastUpdateId existing)),
                      Some
                        (withSides existing
                           (JsArray.sort (Binance.compareFn parseFloat Binance.Bids)
                              (Bybit.applyDeltas parseFloat (bids existing)
                                 (krakenLevels (Kraken.b data))))
                           (JsArray.sort (Binance.compareFn parseFloat Binance.Asks)
                              (Bybit.applyDeltas parseFloat (asks existing)
                                 (krakenLevels (Kraken.a data))))
                           now (lastUpdateId existing))) = (books0, e0) ->
                     Forall (keptBook ps clean true) (JsMap.values books0)
                     /\ (forall ob, e0 = Some ob -> goodBook clean ob)).
  { intros [Hb Ha] books0 e0 E.
    destruct (sorted_deltas Binance.Bids _ _ Kb Hb) as [Gb Kb'].
    destruct (sorted_deltas Binance.Asks _ _ Ka Ha) as [Ga Ka'].
    injection E as <- <-. split.
    + apply stored_after_set; [exact Hk | split; assumption].
    + intros ob [= <-]. split; assumption. }
  destruct (Kraken.bs data) as [snapshotBids|];
    [|now apply Hdelta].
  destruct (Kraken.as_ data) as [snapshotAsks|];
    [|now apply Hdelta].
  destruct Hok as [Hb Ha].
  destruct (sorted_snapshot Binance.Bids _ Hb) as [Gb Kb'].
  destruct (sorted_snapshot Binance.Asks _ Ha) as [Ga Ka'].
  injection H as <- <-. split.
  - apply stored_after_set; [exact Hk | split; assumption].
  - intros ob [= <-]. split; assumption.
Qed.

Lemma coinbase_step books message books' emittedBook :
  Forall (keptBook ps clean true) (JsMap.values books) -> coinbaseOK ps clean message ->
  Coinbase.handleMessage parseFloat dateToMs books (fst message) (snd message)
    = (books', emittedBook) ->
  Forall (keptBook ps clean true) (JsMap.values books')
  /\ (forall ob, emittedBook = Some ob -> goodBook clean ob).
Proof.
  intros Hk Hok H.
  destruct message as [now [product snapshotBids snapshotAsks time
                           |product time changes|product time bb ba pr| |]];
    unfold coinbaseOK in Hok; cbn [fst snd Coinbase.handleMessage] in *;
    try (injection H as <- <-; split; [exact Hk | discriminate]).
  - destruct Hok as (Hb & Ha & Gb & Ga).
    unfold Coinbase.handleSnapshot in H. injection H as <- <-. split.
    + apply stored_after_set; [exact Hk|]. split; cbn [bids asks].
      * apply (good_kept true Binance.Bids); [exact Gb|].
        intros p Hp. apply Hb. rewrite map_map in Hp. exact Hp.
      * apply (good_kept true Binance.Asks); [exact Ga|].
        intros p Hp. apply Ha. rewrite map_map in Hp. exact Hp.
    + intros ob [= <-]. split; assumption.
  - destruct Hok as [Hb Ha]. unfold Coinbase.handleL2Update in H.
    destruct (JsMap.get books product) as [existing|] eqn:G;
      [|injection H as <- <-; split; [exact Hk | discriminate]].
    destruct (stored_book true books _ existing Hk G) as [Kb Ka].
    rewrite coinbase_changes in H.
    change (Coinbase.descending parseFloat)
      with (Binance.compareFn parseFloat Binance.Bids) in H.
    change (Coinbase.ascending parseFloat)
      with (Binance.compareFn parseFloat Binance.Asks) in H.
    destruct (sorted_deltas Binance.Bids _ _ Kb Hb) as [Gb Kb'].
    destruct (sorted_deltas Binance.Asks _ _ Ka Ha) as [Ga Ka'].
    injection H as <- <-. split.
    + apply stored_after_set; [exact Hk | split; assumption].
    + intros ob [= <-]. split; assumption.
  - destruct Hok.
Qed.

Lemma gemini_step books message books' emittedBook :
  Forall (keptBook ps clean true) (JsMap.values books) -> geminiOK ps message ->
  Gemini.handleMessage parseFloat books (fst message) (snd message)
    = (books', emittedBook) ->
  Forall (keptBook ps clean true) (JsMap.values books')
  /\ (forall ob, emittedBook = Some ob -> goodBook clean ob).
Proof.
  intros Hk [Hb Ha] H. destruct message as [update symbol]. cbn [fst snd] in *.
  unfold Gemini.handleMessage in H.
  destruct (String.eqb (Gemini.type update) "update");
    [|injection H as <- <-; split; [exact Hk | discriminate]].
  unfold Gemini.handleOrderBookUpdate in H.
  destruct (JsMap.get books (Str.toUpperCase symbol)) as [existing|] eqn:G;
    [|injection H as <- <-; split; [exact Hk | discriminate]].
  destruct (stored_book true books _ existing Hk G) as [Kb Ka].
  rewrite gemini_events in H.
  change (Gemini.descending parseFloat)
    with (Binance.compareFn parseFloat Binance.Bids) in H.
  change (Gemini.ascending parseFloat)
    with (Binance.compareFn parseFloat Binance.Asks) in H.
  destruct (sorted_deltas Binance.Bids _ _ Kb Hb) as [Gb Kb'].
  destruct (sorted_deltas Binance.Asks _ _ Ka Ha) as [Ga Ka'].
  injection H as <- <-. split.
  - apply stored_after_set; [exact Hk | split; assumption].
  - intros ob [= <-]. split; assumption.
Qed.

Lemma kucoin_step books message books' emittedBook :
  Forall (keptBook ps clean true) (JsMap.values books) -> kucoinOK ps message ->
  KuCoin.handleMessage parseFloat books (fst message) (snd message)
    = (books', emittedBook) ->
  Forall (keptBook ps clean true) (JsMap.values books')
  /\ (forall ob, emittedBook = Some ob -> goodBook clean ob).
Proof.
  intros Hk [Hb Ha] H. destruct message as [now update]. cbn [fst snd] in *.
  unfold KuCoin.handleMessage in H.
  destruct (String.eqb (KuCoin.type update) "message"
            && Str.truthy (KuCoin.topic update)
            && Str.startsWith (KuCoin.topic update) "/market/level2:");
    [|injection H as <- <-; split; [exact Hk | discriminate]].
  unfold KuCoin.handleOrderBookUpdate in H.
  destruct (JsMap.get books (KuCoin.symbol (KuCoin.data update)))
    as [existing|] eqn:G;
    [|injection H as <- <-; split; [exact Hk | discriminate]].
  destruct (stored_book true books _ existing Hk G) as [Kb Ka].
  rewrite !kucoin_changes in H.
  change (KuCoin.descending parseFloat)
    with (Binance.compareFn parseFloat Binance.Bids) in H.
  change (KuCoin.ascending parseFloat)
    with (Binance.compareFn parseFloat Binance.Asks) in H.
  destruct (sorted_deltas Binance.Bids _ _ Kb Hb) as [Gb Kb'].
  destruct (sorted_deltas Binance.Asks _ _ Ka Ha) as [Ga Ka'].
  injection H as <- <-. split.
  - apply stored_after_set; [exact Hk | split; assumption].
  - intros ob [= <-]. split; assumption.
Qed.

End Invariant.

(** C3, amended.  Let the prices [ps] be well formed (none parses to
    [NaN], different texts denote different numbers), let every side that
    a client holds when the run starts have its prices in [ps] and one
    level per price text (the Binance client does not need the latter),
    and let the run hold incremental updates and snapshot messages whose
    sides are such sides as well (a snapshot message of Coinbase, emitted
    as received, in order already), and no ticker of Coinbase.  Then every
    book that the clients of Binance, Bybit, Kraken, Coinbase, Gemini and
    KuCoin emit through the run has its bids strictly descending and its
    asks strictly ascending by price, each price once per side, and, when
    the sides held at the start and the snapshot messages had no
    zero-quantity level, no zero-quantity level.  The sides are not cut to
    a depth. *)
Theorem emitted_books_in_order (ps : list string) (clean : bool) :
  wellFormed ps = true ->
  (forall books updates,
     Forall (keptBook ps clean false) (JsMap.values books) ->
     Forall (binanceOK ps) updates ->
     Forall (goodBook clean) (binanceEmitted books updates))
  /\ (forall books messages,
        Forall (keptBook ps clean true) (JsMap.values books) ->
        Forall (bybitOK ps clean) messages ->
        Forall (goodBook clean) (bybitEmitted books messages))
  /\ (forall books messages,
        Forall (keptBook ps clean true) (JsMap.values books) ->
        Forall (krakenOK ps clean) messages ->
        Forall (goodBook clean) (krakenEmitted books messages))
  /\ (forall books messages,
        Forall (keptBook ps clean true) (JsMap.values books) ->
        Forall (coinbaseOK ps clean) messages ->
        Forall (goodBook clean) (coinbaseEmitted books messages))
  /\ (forall books messages,
        Forall (keptBook ps clean true) (JsMap.values books) ->
        Forall (geminiOK ps) messages ->
        Forall (goodBook clean) (geminiEmitted books messages))
  /\ (forall books messages,
        Forall (keptBook ps clean true) (JsMap.values books) ->
        Forall (kucoinOK ps) messages ->
        Forall (goodBook clean) (kucoinEmitted books messages)).
Proof.
  intros Hwf. split; [|split; [|split; [|split; [|split]]]]; intros books messages.
  - apply run_emits. intros b m b' e. now apply binance_step.
  - apply run_emits. intros b m b' e. now apply bybit_step.
  - apply run_emits. intros b m b' e. now apply kraken_step.
  - apply run_emits. intros b m b' e. now apply coinbase_step.
  - apply run_emits. intros b m b' e. now apply gemini_step.
  - apply run_emits. intros b m b' e. now apply kucoin_step.
Qed.

End EmittedRuns.

Section EmittedRunExamples.

Import Shared.

(** A client that holds one book. *)
Definition oneBook (venue sym : string) (b a : list (string * string))
  : JsMap.t OrderBook :=
  JsMap.set JsMap.empty sym
    {| symbol := sym; exchange := venue;
       bids := map Binance.toEntry b; asks := map Binance.toEntry a;
       timestamp := 0; lastUpdateId := None |}.

Definition sidesOf (ob : option OrderBook)
  : option (list (string * string) * list (string * string)) :=
  option_map
    (fun ob => (map (fun e => (price e, quantity e)) (bids ob),
                map (fun e => (price e, quantity e)) (asks ob)))
    ob.

Definition krakenDelta (b a : option (list (string * string))) : Kraken.Message :=
  Kraken.BookMessage 0
    {| Kraken.bs := None; Kraken.as_ := None; Kraken.b := b; Kraken.a := a |}
    "book-100" "ETH/USD".

(** C3, as stated, fails.  First, the sides are never cut to the depth
    limit: a Binance book primed with K = 50 levels a side is emitted with
    51 levels a side after one update that adds a price, and a Bybit book
    primed with K = 100 levels with 101.  Second, a ticker of Coinbase
    overwrites the top price of each side where it stands: bids 100, 99 are
    emitted as 98, 99 and asks 101, 102 as 103, 102.  Third, a snapshot
    message of Coinbase is emitted as received, here with bids ascending.
    Fourth, what a primed side holds stays: a price listed twice is emitted
    twice, a zero-quantity level is emitted again.  Fifth, two spellings of
    one price are two levels. *)
Lemma emitted_sides_not_as_specified :
  (sideLengths (JsMap.get primedBinance "BTCUSDT") = Some (50, 50)%nat
   /\ sideLengths
        (snd (Binance.handleDepthUpdate Num.parseFloatDecimal primedBinance addOneLevel))
      = Some (51, 51)%nat
   /\ (Binance.depthLimit < 51)%nat
   /\ sideLengths (JsMap.get primedBybit "BTCUSDT") = Some (100, 100)%nat
   /\ sideLengths
        (snd (Bybit.handleMessage Num.parseFloatDecimal primedBybit 1 addOneDelta))
      = Some (101, 101)%nat
   /\ (Bybit.depthLimit < 101)%nat)
  /\ sidesOf
       (snd (Coinbase.handleMessage Num.parseFloatDecimal (fun _ => 5%Z)
               (oneBook "coinbase" "BTC-USD"
                  [("100", "1"); ("99", "2")] [("101", "1"); ("102", "1")])
               1 (Coinbase.Ticker "BTC-USD" "2025-01-01T00:00:00Z" "98" "103" "98.5")))
     = Some ([("98", "1"); ("99", "2")], [("103", "1"); ("102", "1")])
  /\ sidesOf
       (snd (Coinbase.handleMessage Num.parseFloatDecimal (fun _ => 5%Z)
               (oneBook "coinbase" "BTC-USD" [("100", "1")] [("101", "1")])
               1 (Coinbase.Snapshot "BTC-USD" [("99", "1"); ("100", "1")]
                    [("101", "1"); ("102", "1")] None)))
     = Some ([("99", "1"); ("100", "1")], [("101", "1"); ("102", "1")])
  /\ sidesOf
       (snd (Kraken.handleMessage Num.parseFloatDecimal
               (oneBook "kraken" "ETH/USD" [("100", "0"); ("100", "3")] [("101", "1")])
               1 (krakenDelta (Some [("99", "5")]) None)))
     = Some ([("100", "0"); ("100", "3"); ("99", "5")], [("101", "1")])
  /\ sidesOf
       (snd (Kraken.handleMessage Num.parseFloatDecimal
               (oneBook "kraken" "ETH/USD" [("100", "1")] [("101", "1")])
               1 (krakenDelta (Some [("100.0", "5")]) None)))
     = Some ([("100", "1"); ("100.0", "5")], [("101", "1")]).
Proof. vm_compute. repeat split; lia. Qed.

(** A run of the Kraken client: an update of the bids (99 removed, 101
    added, 100 changed), then an update of the asks (100.5 removed, 102
    added). *)
Definition krakenMessages : list (Z * Kraken.Message) :=
  [(7%Z, krakenDelta (Some [("99", "0.00000000"); ("101", "3"); ("100", "5")]) None);
   (8%Z, krakenDelta None (Some [("100.5", "0"); ("102", "1")]))].

Definition krakenPrices : list string := ["100"; "99"; "98.5"; "100.5"; "101"; "102"].

(** The theorem at this run: both emitted books are in order. *)
Lemma emitted_run_example :
  Forall (goodBook Num.parseFloatDecimal true)
    (krakenEmitted Num.parseFloatDecimal krakenBook krakenMessages)
  /\ map (fun ob => sidesOf (Some ob))
       (krakenEmitted Num.parseFloatDecimal krakenBook krakenMessages)
     = [Some ([("101", "3"); ("100", "5"); ("98.5", "1")], [("100.5", "1")]);
        Some ([("101", "3"); ("100", "5"); ("98.5", "1")], [("102", "1")])].
Proof.
  split; [|vm_compute; reflexivity].
  apply (proj1 (proj2 (proj2 (emitted_books_in_order Num.parseFloatDecimal (fun _ => 0%Z)
                                krakenPrices true eq_refl)))).
  - apply Forall_cons; [|apply Forall_nil].
    split; (split; [intros p Hp; simpl in *; tauto|]); split; intros _;
      first [ repeat (apply NoDup_cons; [simpl; intuition discriminate|]);
              apply NoDup_nil
            | repeat (apply Forall_cons; [vm_compute; reflexivity|]);
              apply Forall_nil ].
  - repeat (apply Forall_cons; [split; intros p Hp; simpl in *; tauto|]).
    apply Forall_nil.
Defined.

End EmittedRunExamples.

(* ------------------------------------------------------------------ *)
(** ** Symbols common to several venues *)
(* ------------------------------------------------------------------ *)

Section CommonSymbols.

Import SymbolMapper.

(** Every example of the registry is quoted in a currency that
    [normalizeQuoteAsset] reads as the dollar. *)
Definition quotedInDollars (format : ExchangeSymbolFormat) (example : string) : bool :=
  match parseExchangeSymbol example format with
  | Some (_, quote) => String.eqb (Str.toUpperCase (normalizeQuoteAsset quote)) "USD"
  | None => true
  end.

Lemma examples_quoted_in_dollars :
  forallb (fun format => forallb (quotedInDollars format) (examples format))
    (JsMap.values exchangeFormats) = true.
Proof. vm_compute. reflexivity. Qed.

Lemma found_translates_back (exchangeId base native : string)
  (format : ExchangeSymbolFormat) :
  JsMap.get exchangeFormats exchangeId = Some format ->
  findSymbol format base = Some native ->
  In native (getSupportedSymbols exchangeId)
  /\ fromExchangeSymbol native exchangeId = Some (Str.toUpperCase base ++ "USD").
Proof.
  intros Hf Hfind. unfold findSymbol in Hfind. apply find_some in Hfind.
  destruct Hfind as [Hin Hm].
  unfold getSupportedSymbols, fromExchangeSymbol. rewrite Hf. split; [exact Hin|].
  assert (Hq : quotedInDollars format native = true).
  { pose proof examples_quoted_in_dollars as H. rewrite forallb_forall in H.
    assert (Hv : In format (JsMap.values exchangeFormats)).
    { apply get_Some_In in Hf. now apply (in_map snd) in Hf. }
    specialize (H format Hv). rewrite forallb_forall in H. now apply H. }
  unfold matchesBase in Hm. unfold quotedInDollars in Hq.
  destruct (parseExchangeSymbol native format) as [[b q]|]; [|discriminate].
  apply String.eqb_eq in Hm, Hq.
  change (Str.toUpperCase (normalizeQuoteAsset q) = "USD") in Hq.
  now rewrite Hm, Hq.
Qed.

(** What the loop over the venues has put into the map. *)
Definition venueEntries (exchangeIds : list string) (base : string)
  (m : JsMap.t string) : Prop :=
  NoDup (JsMap.keys m)
  /\ incl (JsMap.keys m) exchangeIds
  /\ forall exchangeId native,
       JsMap.get m exchangeId = Some native ->
       In native (getSupportedSymbols exchangeId)
       /\ fromExchangeSymbol native exchangeId = Some (Str.toUpperCase base ++ "USD").

Lemma exchangeSymbolsFor_entries (exchangeIds : list string) (base : string) :
  venueEntries exchangeIds base (exchangeSymbolsFor exchangeIds base).
Proof.
  unfold exchangeSymbolsFor.
  assert (G : forall l m0,
            incl l exchangeIds -> venueEntries exchangeIds base m0 ->
            venueEntries exchangeIds base
              (fold_left
                 (fun exchangeSymbols exchangeId =>
                    match JsMap.get exchangeFormats exchangeId with
                    | None => exchangeSymbols
                    | Some format =>
                        match findSymbol format base with
                        | Some foundSymbol =>
                            if Str.truthy foundSymbol
                            then JsMap.set exchangeSymbols exchangeId foundSymbol
                            else exchangeSymbols
                        | None => exchangeSymbols
                        end
                    end) l m0)).
  { induction l as [|id l IH]; intros m0 Hl Hm0; [exact Hm0|].
    cbn [fold_left]. apply IH; [intros x Hx; apply Hl; now right|].
    destruct (JsMap.get exchangeFormats id) as [format|] eqn:Hf; [|exact Hm0].
    destruct (findSymbol format base) as [found|] eqn:Hfind; [|exact Hm0].
    destruct (Str.truthy found); [|exact Hm0].
    destruct Hm0 as (Hnd & Hincl & Hall). split; [|split].
    - now apply NoDup_keys_set.
    - intros k Hk. apply keys_set in Hk. destruct Hk as [-> | Hk];
        [apply Hl; now left | now apply Hincl].
    - intros exchangeId native H. rewrite get_set in H.
      destruct (String.eqb_spec id exchangeId) as [E|_].
      + injection H as <-. rewrite <- E.
        now apply (found_translates_back id base found format).
      + now apply Hall. }
  apply G; [apply incl_refl|].
  split; [constructor | split; [intros x [] | discriminate]].
Qed.

(** An entry of the result was written for one of the base assets, when
    the map of that asset had as many venues as were asked for. *)
Lemma findCommonSymbols_inv (exchangeIds baseAssets : list string)
  (key : string) (m : JsMap.t string) :
  JsMap.get (findCommonSymbols exchangeIds baseAssets) key = Some m ->
  exists base,
    In base baseAssets /\ key = base ++ "USD"
    /\ m = exchangeSymbolsFor exchangeIds base
    /\ JsMap.size m = List.length exchangeIds.
Proof.
  unfold findCommonSymbols.
  assert (G : forall l m0,
            JsMap.get
              (fold_left
                 (fun commonSymbols base =>
                    if (JsMap.size (exchangeSymbolsFor exchangeIds base)
                        =? List.length exchangeIds)%nat
                    then JsMap.set commonSymbols (base ++ "USD")
                           (exchangeSymbolsFor exchangeIds base)
                    else commonSymbols) l m0) key = Some m ->
            JsMap.get m0 key = Some m
            \/ exists base,
                 In base l /\ key = base ++ "USD"
                 /\ m = exchangeSymbolsFor exchangeIds base
                 /\ JsMap.size m = List.length exchangeIds).
  { induction l as [|base l IH]; intros m0 H; [now left|].
    cbn [fold_left] in H. apply IH in H.
    destruct H as [H | (b & Hb & Hrest)]; [|right; exists b; split; [now right | exact Hrest]].
    destruct (Nat.eqb_spec (JsMap.size (exchangeSymbolsFor exchangeIds base))
                (List.length exchangeIds)) as [Hsize|_]; [|now left].
    rewrite get_set in H.
    destruct (String.eqb_spec (base ++ "USD") key) as [<-|_]; [|now left].
    injection H as <-. right. exists base. repeat split; auto. now left. }
  intros H. apply G in H. destruct H as [H | H]; [discriminate | exact H].
Qed.

Lemma full_map_covers (exchangeIds : list string) (m : JsMap.t string) :
  NoDup (JsMap.keys m) -> incl (JsMap.keys m) exchangeIds ->
  JsMap.size m = List.length exchangeIds ->
  NoDup exchangeIds /\ incl exchangeIds (JsMap.keys m).
Proof.
  intros Hnd Hincl Hsize.
  assert (Hlen : (List.length exchangeIds <= List.length (JsMap.keys m))%nat).
  { unfold JsMap.keys. rewrite length_map. unfold JsMap.size in Hsize. lia. }
  split.
  - exact (NoDup_incl_NoDup Hnd Hlen Hincl).
  - exact (NoDup_length_incl Hnd Hlen Hincl).
Qed.

(** X14.  An entry of [findCommonSymbols] is complete and consistent: it is
    listed under [base ++ "USD"] for one of the base assets asked for, the
    venues asked for are known to the registry and pairwise different, and
    the entry gives each of them a native symbol, taken from the examples of
    the venue, that [fromExchangeSymbol] reads as the upper-case base asset
    against the dollar. *)
Theorem common_symbols_translate_back
  (exchangeIds baseAssets : list string) (key : string) (m : JsMap.t string) :
  JsMap.get (findCommonSymbols exchangeIds baseAssets) key = Some m ->
  exists base,
    In base baseAssets /\ key = base ++ "USD"
    /\ NoDup exchangeIds
    /\ JsMap.size m = List.length exchangeIds
    /\ forall exchangeId,
         In exchangeId exchangeIds ->
         exists native,
           JsMap.get m exchangeId = Some native
           /\ In native (getSupportedSymbols exchangeId)
           /\ fromExchangeSymbol native exchangeId
              = Some (Str.toUpperCase base ++ "USD").
Proof.
  intros H. apply findCommonSymbols_inv in H.
  destruct H as (base & Hbase & Hkey & Hm & Hsize). exists base.
  destruct (exchangeSymbolsFor_entries exchangeIds base) as (Hnd & Hincl & Hall).
  rewrite <- Hm in Hnd, Hincl, Hall.
  destruct (full_map_covers exchangeIds m Hnd Hincl Hsize) as [Hids Hcover].
  repeat split; auto.
  intros id Hid. apply Hcover in Hid. apply get_Some_keys in Hid.
  destruct Hid as [native Hget]. exists native. split; [exact Hget|].
  now apply Hall.
Qed.

Lemma no_entry_empty {V : Type} (m : JsMap.t V) :
  (forall k v, JsMap.get m k <> Some v) -> m = [].
Proof.
  destruct m as [|[k v] m]; [reflexivity|]. intros H. exfalso.
  apply (H k v). simpl. now rewrite String.eqb_refl.
Qed.

Lemma fold_all_bases (exchangeIds : list string) (baseAssets : list string) :
  (forall base, JsMap.size (exchangeSymbolsFor exchangeIds base)
                = List.length exchangeIds) ->
  forall base m0,
    In base baseAssets \/ (exists m, JsMap.get m0 (base ++ "USD") = Some m) ->
    exists m,
      JsMap.get
        (fold_left
           (fun commonSymbols base =>
              if (JsMap.size (exchangeSymbolsFor exchangeIds base)
                  =? List.length exchangeIds)%nat
              then JsMap.set commonSymbols (base ++ "USD")
                     (exchangeSymbolsFor exchangeIds base)
              else commonSymbols) baseAssets m0) (base ++ "USD") = Some m.
Proof.
  intros Hfull. induction baseAssets as [|b l IH]; intros base m0 H.
  - destruct H as [[] | H]; exact H.
  - cbn [fold_left]. apply IH. rewrite Hfull, Nat.eqb_refl.
    destruct H as [[-> | Hin] | [m Hm]].
    + right. rewrite get_set, String.eqb_refl. eauto.
    + now left.
    + right. rewrite get_set. destruct (String.eqb (b ++ "USD") (base ++ "USD")); eauto.
Qed.

(** X15.  The edges of [findCommonSymbols].  Asked for a venue that the registry
    does not know, or for the same venue twice, it finds nothing at all,
    whatever the assets.  Asked for no venue, it lists every asset, each
    with an empty map. *)
Theorem common_symbols_edge_cases (exchangeIds baseAssets : list string) :
  ((exists exchangeId,
      In exchangeId exchangeIds /\ JsMap.get exchangeFormats exchangeId = None)
   \/ ~ NoDup exchangeIds ->
   findCommonSymbols exchangeIds baseAssets = [])
  /\ (forall base,
        In base baseAssets ->
        JsMap.get (findCommonSymbols [] baseAssets) (base ++ "USD") = Some []).
Proof.
  split.
  - intros Hbad. apply no_entry_empty. intros key m H.
    apply findCommonSymbols_inv in H.
    destruct H as (base & _ & _ & Hm & Hsize).
    destruct (exchangeSymbolsFor_entries exchangeIds base) as (Hnd & Hincl & Hall).
    rewrite <- Hm in Hnd, Hincl, Hall.
    destruct (full_map_covers exchangeIds m Hnd Hincl Hsize) as [Hids Hcover].
    destruct Hbad as [(id & Hid & Hunknown) | Hdup]; [|contradiction].
    apply Hcover in Hid. apply get_Some_keys in Hid. destruct Hid as [native Hget].
    apply Hall in Hget. destruct Hget as [Hin _].
    unfold getSupportedSymbols in Hin. rewrite Hunknown in Hin. exact Hin.
  - intros base Hbase.
    destruct (fold_all_bases [] baseAssets (fun _ => eq_refl) base JsMap.empty
                (or_introl Hbase)) as [m Hm].
    unfold findCommonSymbols. rewrite Hm. f_equal.
    apply findCommonSymbols_inv in Hm. destruct Hm as (b & _ & _ & -> & _).
    reflexivity.
Qed.

End CommonSymbols.

Section CommonSymbolsExample.

Import SymbolMapper.

Lemma common_symbols_example :
  exists base,
    In base ["BTC"; "DOGE"] /\ "BTCUSD" = base ++ "USD"
    /\ NoDup ["binance"; "kraken"; "gemini"]
    /\ JsMap.size [("binance", "BTCUSDT"); ("kraken", "XBT/USD"); ("gemini", "btcusd")]
       = 3%nat
    /\ forall exchangeId,
         In exchangeId ["binance"; "kraken"; "gemini"] ->
         exists native,
           JsMap.get [("binance", "BTCUSDT"); ("kraken", "XBT/USD"); ("gemini", "btcusd")]
             exchangeId = Some native
           /\ In native (getSupportedSymbols exchangeId)
           /\ fromExchangeSymbol native exchangeId
              = Some (Str.toUpperCase base ++ "USD").
Proof.
  apply (common_symbols_translate_back ["binance"; "kraken"; "gemini"] ["BTC"; "DOGE"]).
  vm_compute. reflexivity.
Defined.

End CommonSymbolsExample.

(* ------------------------------------------------------------------ *)
(** ** From the configured symbol to the scan and back *)
(* ------------------------------------------------------------------ *)

Section Regrouping.

Import SymbolMapper.

(** The text [t] cannot complete an occurrence of [USDT] begun before it. *)
Definition completesNone (t : string) : bool :=
  negb (prefix "T" t) && negb (prefix "DT" t) && negb (prefix "SDT" t).

Lemma prefix_usdt_app (c : ascii) (b t : string) :
  prefix "USDT" (String c b) = false -> completesNone t = true ->
  prefix "USDT" (String c (b ++ t)) = false.
Proof.
  unfold completesNone. intros H Ht.
  apply andb_prop in Ht. destruct Ht as [Ht H3].
  apply andb_prop in Ht. destruct Ht as [H1 H2].
  apply negb_true_iff in H1, H2, H3.
  cbn -[ascii_dec] in *.
  destruct (ascii_dec "U" c); [|reflexivity].
  destruct b as [|c2 b]; [exact H3|]. cbn -[ascii_dec] in *.
  destruct (ascii_dec "S" c2); [|reflexivity].
  destruct b as [|c3 b]; [exact H2|]. cbn -[ascii_dec] in *.
  destruct (ascii_dec "D" c3); [|reflexivity].
  destruct b as [|c4 b]; [exact H1|]. cbn -[ascii_dec] in *.
  destruct (ascii_dec "T" c4); [|reflexivity].
  rewrite prefix_nil in H. discriminate H.
Qed.

Lemma usdt_scan (base t : string) :
  Str.includes base "USDT" = false -> completesNone t = true ->
  Str.replaceAll_go "USDT" "USD" (base ++ t) 0
  = base ++ Str.replaceAll_go "USDT" "USD" t 0.
Proof.
  intros Hb Ht. induction base as [|c b IH]; [reflexivity|].
  change (Str.includes (String c b) "USDT")
    with (prefix "USDT" (String c b) || Str.includes b "USDT") in Hb.
  apply orb_false_elim in Hb. destruct Hb as [Hp Hb].
  change (String c b ++ t) with (String c (b ++ t)).
  cbn [Str.replaceAll_go]. rewrite (prefix_usdt_app c b t Hp Ht).
  now rewrite IH.
Qed.

Lemma dash_scan (base t : string) :
  isBase base = true ->
  Str.replaceAll_go "-" "" (base ++ t) 0 = base ++ Str.replaceAll_go "-" "" t 0.
Proof.
  induction base as [|c b IH]; intros Hb; [reflexivity|].
  cbn [isBase] in Hb. apply andb_prop in Hb. destruct Hb as [Hc Hb].
  change (String c b ++ t) with (String c (b ++ t)).
  cbn [Str.replaceAll_go]. cbn -[ascii_dec].
  destruct (ascii_dec "-" c) as [E|_];
    [symmetry in E; now apply dash_not_base in E|].
  now rewrite IH.
Qed.

(** Normalising [base ++ t] touches [t] alone. *)
Lemma normalize_app (base t : string) :
  isBase base = true -> Str.includes base "USDT" = false ->
  completesNone (Str.replaceAll "-" "" t) = true ->
  Detector.normalizeSymbol (base ++ t) = base ++ Detector.normalizeSymbol t.
Proof.
  intros Hb Hu Ht. unfold Detector.normalizeSymbol, Str.replaceAll in *.
  rewrite dash_scan by assumption. now apply usdt_scan.
Qed.

Ltac regroup Hb Hu :=
  eexists; split;
  [ apply toExchangeSymbol_native; [simpl; tauto | assumption | assumption | simpl; tauto]
  | unfold nativeSpelling, usdt, Gemini.bookSymbol;
    cbn [String.eqb Ascii.eqb Bool.eqb orb andb];
    rewrite ?upper_app, ?upper_lower_base by assumption;
    rewrite normalize_app by (first [assumption | reflexivity]);
    reflexivity ].

(** X16.  The configured symbol comes back.  For the venues Binance, Bybit,
    Coinbase, KuCoin and Gemini, the native symbol under which the manager
    subscribes a client, and with which the client stamps its books (Gemini
    in upper case), is normalised by the detector to the configured symbol
    again, so that the books of these venues for one symbol meet in a scan.
    The base asset is written in upper-case letters and digits and does not
    contain [USDT]. *)
Theorem configured_symbol_regrouped (venue base quote : string) :
  In venue ["binance"; "bybit"; "coinbase"; "kucoin"; "gemini"] ->
  isBase base = true -> base <> "" -> Str.includes base "USDT" = false ->
  In quote ["USD"; "EUR"; "BTC"; "ETH"; "BNB"] ->
  exists native,
    toExchangeSymbol (base ++ quote) venue = Some native
    /\ Detector.normalizeSymbol
         (if String.eqb venue "gemini" then Gemini.bookSymbol native else native)
       = base ++ quote.
Proof.
  intros Hv Hb Hne Hu Hq.
  destruct Hv as [<- | [<- | [<- | [<- | [<- | []]]]]];
    destruct Hq as [<- | [<- | [<- | [<- | [<- | []]]]]]; regroup Hb Hu.
Qed.

(** Solana against the dollar on KuCoin: [SOL-USDT]. *)
Lemma configured_symbol_regrouped_example :
  exists native,
    toExchangeSymbol "SOLUSD" "kucoin" = Some native
    /\ Detector.normalizeSymbol native = "SOLUSD".
Proof.
  apply (configured_symbol_regrouped "kucoin" "SOL" "USD").
  - simpl. tauto.
  - reflexivity.
  - discriminate.
  - reflexivity.
  - simpl. tauto.
Defined.

End Regrouping.

(* ------------------------------------------------------------------ *)
(** ** Sorting strings *)
(* ------------------------------------------------------------------ *)

Section StringOrder.

Lemma leb_trans_string (a b c : string) :
  Str.leb a b = true -> Str.leb b c = true -> Str.leb a c = true.
Proof.
  unfold Str.leb, String.leb. revert b c.
  induction a as [|x a IH]; intros [|y b] [|z c]; simpl; try congruence; auto.
  unfold Ascii.compare.
  destruct (N.compare_spec (N_of_ascii x) (N_of_ascii y)) as [E1|L1|G1];
    destruct (N.compare_spec (N_of_ascii y) (N_of_ascii z)) as [E2|L2|G2];
    destruct (N.compare_spec (N_of_ascii x) (N_of_ascii z)) as [E3|L3|G3];
    try congruence; try lia; auto.
  apply IH.
Qed.

Lemma insertSorted_perm (x : string) (l : list string) :
  Permutation (Str.insertSorted x l) (x :: l).
Proof.
  induction l as [|y l IH]; simpl; [apply Permutation_refl|].
  destruct (Str.leb x y); [apply Permutation_refl|].
  eapply perm_trans; [apply perm_skip, IH | apply perm_swap].
Qed.

Lemma sortStrings_perm (l : list string) : Permutation (Str.sort l) l.
Proof.
  induction l as [|x l IH]; simpl; [constructor|].
  eapply perm_trans; [apply insertSorted_perm | now apply perm_skip].
Qed.

Definition ordered (a b : string) : Prop := Str.leb a b = true.

Lemma insertSorted_sorted (x : string) (l : list string) :
  StronglySorted ordered l -> StronglySorted ordered (Str.insertSorted x l).
Proof.
  induction l as [|y l IH]; intros H; simpl.
  - constructor; constructor.
  - inversion H as [|? ? Hs Hall]; subst.
    destruct (Str.leb x y) eqn:E.
    + constructor; [exact H|]. constructor; [exact E|].
      rewrite Forall_forall in *. intros z Hz.
      exact (leb_trans_string x y z E (Hall z Hz)).
    + constructor; [now apply IH|].
      apply (Permutation_Forall (Permutation_sym (insertSorted_perm x l))).
      constructor; [|exact Hall].
      unfold ordered. destruct (String.leb_total x y) as [T|T]; [|exact T].
      unfold Str.leb in E. congruence.
Qed.

Lemma sortStrings_sorted (l : list string) : StronglySorted ordered (Str.sort l).
Proof.
  induction l as [|x l IH]; simpl; [constructor | now apply insertSorted_sorted].
Qed.

(** Two sorted lists with the same elements are the same list. *)
Lemma sorted_unique (l1 : list string) : forall l2,
  StronglySorted ordered l1 -> StronglySorted ordered l2 ->
  Permutation l1 l2 -> l1 = l2.
Proof.
  induction l1 as [|x l1 IH]; intros l2 S1 S2 P.
  - apply Permutation_nil in P. now subst.
  - destruct l2 as [|y l2]; [apply Permutation_sym, Permutation_nil in P; discriminate|].
    inversion S1 as [|? ? S1' A1]; subst. inversion S2 as [|? ? S2' A2]; subst.
    assert (Exy : x = y).
    { rewrite Forall_forall in A1, A2.
      assert (Hy : In y (x :: l1)).
      { apply (Permutation_in y (Permutation_sym P)). now left. }
      assert (Hx : In x (y :: l2)).
      { apply (Permutation_in x P). now left. }
      destruct Hy as [E | Hy]; [exact E|].
      destruct Hx as [E | Hx]; [now symmetry|].
      apply String.leb_antisym; [apply (A1 y Hy) | apply (A2 x Hx)]. }
    subst y. f_equal. apply IH; auto. now apply Permutation_cons_inv in P.
Qed.

Lemma sameList_eq (a : list string) : forall b, Str.sameList a b = true <-> a = b.
Proof.
  induction a as [|x a IH]; intros [|y b]; simpl; try (split; congruence).
  rewrite andb_true_iff, String.eqb_eq, IH. split; [intros [-> ->]; reflexivity|].
  intros [= -> ->]. auto.
Qed.

Lemma sort_eq_iff (a b : list string) : Str.sort a = Str.sort b <-> Permutation a b.
Proof.
  split.
  - intros E. eapply perm_trans; [apply Permutation_sym, sortStrings_perm|].
    rewrite E. apply sortStrings_perm.
  - intros P. apply sorted_unique; try apply sortStrings_sorted.
    eapply perm_trans; [apply sortStrings_perm|].
    eapply perm_trans; [exact P | apply Permutation_sym, sortStrings_perm].
Qed.

Lemma listChanged_iff (old new : list string) :
  Configuration.listChanged old new = false <-> Permutation old new.
Proof.
  unfold Configuration.listChanged. rewrite negb_false_iff, sameList_eq.
  apply sort_eq_iff.
Qed.

End StringOrder.

(* ------------------------------------------------------------------ *)
(** ** Configuration updates of the manager *)
(* ------------------------------------------------------------------ *)

Section ConfigurationUpdates.

Import Configuration.

Definition knownVenue (exchangeId : string) : bool :=
  existsb (String.eqb exchangeId)
    ["binance"; "coinbase"; "kraken"; "bybit"; "kucoin"; "gemini"].

(** One turn of the loop of [startExchangeConnections]. *)
Definition startStep (m : t) (exchangeId : string) : t :=
  if negb (isActive (currentConfig m)) then m
  else
    match createExchangeClient (currentConfig m) exchangeId with
    | Some client =>
        {| currentConfig := currentConfig m;
           opportunityDetector := opportunityDetector m;
           exchangeClients := JsMap.set (exchangeClients m) exchangeId client;
           disconnected := disconnected m;
           console := console m |}
    | None =>
        {| currentConfig := currentConfig m;
           opportunityDetector := opportunityDetector m;
           exchangeClients := exchangeClients m;
           disconnected := disconnected m;
           console :=
             (console m ++ [("Unknown exchange: " ++ exchangeId)%string])%list |}
    end.

Lemma start_is_fold (m : t) :
  startExchangeConnections m = fold_left startStep (exchanges (currentConfig m)) m.
Proof. reflexivity. Qed.

Lemma startStep_keeps (m : t) (id : string) :
  currentConfig (startStep m id) = currentConfig m
  /\ opportunityDetector (startStep m id) = opportunityDetector m
  /\ disconnected (startStep m id) = disconnected m
  /\ exchangeClients (startStep m id)
     = if isActive (currentConfig m) && knownVenue id
       then JsMap.set (exchangeClients m) id
              {| venue := id;
                 clientSymbols := getSymbolsForExchange (currentConfig m) id |}
       else exchangeClients m.
Proof.
  unfold startStep, createExchangeClient. fold (knownVenue id).
  destruct (isActive (currentConfig m)); cbn [negb andb]; [|auto].
  destruct (knownVenue id); cbn; auto.
Qed.

(** [startExchangeConnections] reads the configuration and writes the
    clients. *)
Lemma start_fold (l : list string) : forall m,
  let m' := fold_left startStep l m in
  currentConfig m' = currentConfig m
  /\ opportunityDetector m' = opportunityDetector m
  /\ disconnected m' = disconnected m
  /\ (isActive (currentConfig m) = false -> exchangeClients m' = exchangeClients m)
  /\ (isActive (currentConfig m) = true ->
      forall venue,
        JsMap.get (exchangeClients m') venue
        = if existsb (String.eqb venue) l && knownVenue venue
          then Some {| venue := venue;
                       clientSymbols := getSymbolsForExchange (currentConfig m) venue |}
          else JsMap.get (exchangeClients m) venue).
Proof.
  induction l as [|id l IH]; intros m; cbn [fold_left].
  - cbn. repeat split; auto.
  - destruct (startStep_keeps m id) as (K1 & K2 & K3 & K4).
    destruct (IH (startStep m id)) as (H1 & H2 & H3 & H4 & H5).
    cbv zeta. rewrite H1, H2, H3, K1, K2, K3. repeat split.
    + intros Hact. rewrite H4 by congruence. rewrite K4, Hact. reflexivity.
    + intros Hact v. rewrite H5 by congruence. rewrite K1, K4, Hact.
      cbn [existsb andb].
      destruct (String.eqb_spec v id) as [->|Hne]; cbn [orb].
      * destruct (knownVenue id) eqn:Hk.
        -- destruct (existsb (String.eqb id) l); cbn [andb]; [reflexivity|].
           now rewrite get_set, String.eqb_refl.
        -- now rewrite andb_false_r.
      * destruct (existsb (String.eqb v) l && knownVenue v); [reflexivity|].
        destruct (knownVenue id); [|reflexivity].
        rewrite get_set. apply not_eq_sym in Hne. apply String.eqb_neq in Hne.
        now rewrite Hne.
Qed.

(** X17.  A configuration update.  The detector receives the new threshold and
    the new trade amount and keeps everything else.  The connections are
    restarted exactly when the venues or the symbols changed as collections:
    a reordering is no change, and neither is the activity flag, so that
    deactivating the bot alone leaves every connection in place.  A restart
    disconnects all clients; with an inactive configuration none is
    created. *)
Theorem config_update_restarts_iff_lists_change (m : t) (newConfig : BotConfig) :
  let m' := updateConfiguration m newConfig in
  let unchanged :=
    Permutation (exchanges (currentConfig m)) (exchanges newConfig)
    /\ Permutation (symbols (currentConfig m)) (symbols newConfig) in
  (Detector.minProfitPercent (Detector.config (opportunityDetector m'))
     = minProfitPercent newConfig
   /\ Detector.tradeAmount (opportunityDetector m') = tradeAmount newConfig
   /\ Detector.slippageBuffer (Detector.config (opportunityDetector m'))
      = Detector.slippageBuffer (Detector.config (opportunityDetector m))
   /\ Detector.maxSpreadAge (Detector.config (opportunityDetector m'))
      = Detector.maxSpreadAge (Detector.config (opportunityDetector m))
   /\ Detector.orderBooks (opportunityDetector m')
      = Detector.orderBooks (opportunityDetector m))
  /\ (unchanged ->
      exchangeClients m' = exchangeClients m /\ disconnected m' = disconnected m)
  /\ (~ unchanged ->
      disconnected m' = (disconnected m ++ JsMap.keys (exchangeClients m))%list
      /\ (isActive newConfig = false -> exchangeClients m' = []))
  /\ exchanges (currentConfig m') = Str.sort (exchanges newConfig)
  /\ symbols (currentConfig m') = Str.sort (symbols newConfig).
Proof.
  cbv zeta. unfold updateConfiguration.
  destruct (listChanged (exchanges (currentConfig m)) (exchanges newConfig)) eqn:E1;
    [|destruct (listChanged (symbols (currentConfig m)) (symbols newConfig)) eqn:E2];
    cbn [orb].
  1, 2: unfold restartExchangeConnections; rewrite start_is_fold;
    match goal with |- context [fold_left startStep ?l ?m1] =>
      destruct (start_fold l m1) as (H1 & H2 & H3 & H4 & _) end;
    cbn [currentConfig opportunityDetector disconnected exchangeClients isActive
         exchanges symbols] in *;
    rewrite H1, H2, H3; cbn [exchanges symbols];
    (split; [repeat split|]);
    (split; [intros [P1 P2]; apply listChanged_iff in P1, P2; congruence|]);
    (split; [intros _; split; [reflexivity | exact H4] | split; reflexivity]).
  cbn [currentConfig opportunityDetector disconnected exchangeClients exchanges symbols].
  split; [repeat split|].
  split; [intros _; split; reflexivity|].
  split; [|split; reflexivity].
  intros Hn. exfalso. apply Hn. split; now apply listChanged_iff.
Qed.

End ConfigurationUpdates.

Section RestartSubscriptions.

Import Configuration SymbolMapper.

(** A configured symbol [base ++ quote] that the registry translates to the
    venue and back. *)
Definition translatable (venue : string) (symbol : string * string) : bool :=
  let '(base, quote) := symbol in
  isBase base && negb (String.eqb base "")
  && (existsb (String.eqb quote) ["USD"; "EUR"; "BTC"; "ETH"]
      || (String.eqb quote "BNB"
          && existsb (String.eqb venue) ["coinbase"; "kraken"; "kucoin"])).

Definition joined (symbol : string * string) : string := fst symbol ++ snd symbol.

Lemma existsb_In (x : string) (l : list string) :
  existsb (String.eqb x) l = true -> In x l.
Proof.
  intros H. apply existsb_exists in H. destruct H as (y & Hy & E).
  apply String.eqb_eq in E. now subst.
Qed.

Lemma lower_nonempty (s : string) : s <> "" -> Str.toLowerCase s <> "".
Proof. destruct s; [contradiction | discriminate]. Qed.

Lemma app_nonempty (a b : string) : a <> "" -> a ++ b <> "".
Proof. destruct a; [contradiction | discriminate]. Qed.

Lemma nativeSpelling_nonempty (venue base quote : string) :
  isBase base = true -> base <> "" -> nativeSpelling venue base quote <> "".
Proof.
  intros Hb Hne. unfold nativeSpelling.
  destruct (String.eqb venue "binance" || String.eqb venue "bybit");
    [now apply app_nonempty|].
  destruct (String.eqb venue "coinbase"); [now apply app_nonempty|].
  destruct (String.eqb venue "kucoin"); [now apply app_nonempty|].
  destruct (String.eqb venue "kraken").
  - apply app_nonempty. now apply krakenSwap_base.
  - apply app_nonempty. now apply lower_nonempty.
Qed.

Lemma translatable_round_trip (venue : string) (symbol : string * string) :
  In venue venues -> translatable venue symbol = true ->
  exists native,
    toExchangeSymbol (joined symbol) venue = Some native
    /\ Str.truthy native = true
    /\ fromExchangeSymbol native venue = Some (joined symbol).
Proof.
  destruct symbol as [base quote]. unfold translatable, joined. cbn [fst snd].
  intros Hv H. apply andb_prop in H. destruct H as [H Hq].
  apply andb_prop in H. destruct H as [Hb Hne].
  apply negb_true_iff, String.eqb_neq in Hne.
  exists (nativeSpelling venue base quote).
  assert (Hq' : In quote ["USD"; "EUR"; "BTC"; "ETH"]
                \/ (quote = "BNB" /\ In venue ["coinbase"; "kraken"; "kucoin"])).
  { apply orb_prop in Hq. destruct Hq as [Hq | Hq].
    - left. now apply existsb_In.
    - right. apply andb_prop in Hq. destruct Hq as [E Hv'].
      apply String.eqb_eq in E. split; [exact E | now apply existsb_In]. }
  split; [|split].
  - apply toExchangeSymbol_native; auto.
    destruct Hq' as [Hq' | [-> _]]; simpl in *; tauto.
  - apply truthy_iff. now apply nativeSpelling_nonempty.
  - now apply fromExchangeSymbol_native.
Qed.

Lemma symbols_translate_back (venue : string) (config : BotConfig) :
  (forall s, In s (symbols config) ->
     exists native,
       toExchangeSymbol s venue = Some native
       /\ Str.truthy native = true
       /\ fromExchangeSymbol native venue = Some s) ->
  map (fun native => fromExchangeSymbol native venue)
      (getSymbolsForExchange config venue)
  = map Some (symbols config).
Proof.
  unfold getSymbolsForExchange. induction (symbols config) as [|s l IH]; intros H;
    [reflexivity|].
  cbn [flat_map map]. destruct (H s (or_introl eq_refl)) as (native & E1 & E2 & E3).
  rewrite E1, E2. cbn [app map]. rewrite E3. f_equal.
  apply IH. intros s' Hs'. apply H. now right.
Qed.

(** X18.  Let every configured symbol be a base asset in upper-case letters
    and digits, not empty, against USD, EUR, BTC or ETH, or against BNB on
    a venue with a separator ([translatable]).  After a restart with an
    active configuration, each venue of the configuration that the manager
    knows has one client, and this client is subscribed to the configured
    symbols, in sorted order, none dropped and none added: every native
    symbol it was given is read back by the registry as the configured
    symbol in its place. *)
Theorem restart_subscribes_configured_symbols
  (m : t) (newConfig : BotConfig) (venue : string)
  (configured : list (string * string)) :
  listChanged (exchanges (currentConfig m)) (exchanges newConfig)
  || listChanged (symbols (currentConfig m)) (symbols newConfig) = true ->
  isActive newConfig = true ->
  In venue (exchanges newConfig) -> In venue venues ->
  symbols newConfig = map joined configured ->
  forallb (translatable venue) configured = true ->
  exists client,
    JsMap.get (exchangeClients (updateConfiguration m newConfig)) venue = Some client
    /\ Configuration.venue client = venue
    /\ map (fun native => fromExchangeSymbol native venue) (clientSymbols client)
       = map Some (Str.sort (symbols newConfig)).
Proof.
  intros Hchanged Hact Hin Hknown Hsyms Hall.
  unfold updateConfiguration. rewrite Hchanged.
  unfold restartExchangeConnections. rewrite start_is_fold.
  cbn [currentConfig exchanges opportunityDetector exchangeClients disconnected console].
  match goal with |- context [fold_left startStep ?l ?m1] =>
    destruct (start_fold l m1) as (_ & _ & _ & _ & H5) end.
  cbn [currentConfig isActive exchanges exchangeClients] in H5.
  rewrite (H5 Hact venue).
  assert (E1 : existsb (String.eqb venue) (Str.sort (exchanges newConfig)) = true).
  { apply existsb_exists. exists venue. split; [|apply String.eqb_refl].
    apply (Permutation_in venue (Permutation_sym (sortStrings_perm _))). exact Hin. }
  assert (E2 : knownVenue venue = true).
  { unfold knownVenue. apply existsb_exists. exists venue.
    split; [|apply String.eqb_refl].
    unfold venues in Hknown. simpl in *. tauto. }
  rewrite E1, E2. cbn [andb]. eexists. split; [reflexivity|].
  split; [reflexivity|]. cbn [clientSymbols].
  apply (symbols_translate_back venue
           {| exchanges := Str.sort (exchanges newConfig);
              symbols := Str.sort (symbols newConfig);
              minProfitPercent := minProfitPercent newConfig;
              tradeAmount := tradeAmount newConfig;
              isActive := isActive newConfig |}).
  cbn [symbols]. intros s Hs.
  apply (Permutation_in s (sortStrings_perm _)) in Hs.
  rewrite Hsyms in Hs. apply in_map_iff in Hs. destruct Hs as (bq & <- & Hbq).
  rewrite forallb_forall in Hall. apply translatable_round_trip; auto.
Qed.

End RestartSubscriptions.

Section RestartSubscriptionsExample.

Import Configuration SymbolMapper.
Local Open Scope float_scope.

(** The manager with the default configuration is told to watch Solana and
    Bitcoin on Kraken and Binance. *)
Definition solanaAndBitcoin : BotConfig :=
  {| exchanges := ["kraken"; "binance"]; symbols := ["SOLUSD"; "BTCUSD"];
     minProfitPercent := 0.2; tradeAmount := 500; isActive := true |}.

Lemma restart_subscribes_example :
  exists client,
    JsMap.get (exchangeClients (updateConfiguration Configuration.create solanaAndBitcoin))
      "kraken" = Some client
    /\ Configuration.venue client = "kraken"%string
    /\ map (fun native => fromExchangeSymbol native "kraken") (clientSymbols client)
       = map Some (Str.sort ["SOLUSD"; "BTCUSD"]%string).
Proof.
  apply (restart_subscribes_configured_symbols Configuration.create solanaAndBitcoin
           "kraken" [("SOL", "USD"); ("BTC", "USD")]%string).
  - reflexivity.
  - reflexivity.
  - simpl. tauto.
  - simpl. tauto.
  - reflexivity.
  - reflexivity.
Defined.

End RestartSubscriptionsExample.

(* ------------------------------------------------------------------ *)
(** ** The Gemini client never gives up *)
(* ------------------------------------------------------------------ *)

Section GeminiReconnect.

Import Gemini.

(** X19.  [connect] resets the counter of attempts as soon as it has created the
    sockets, without waiting for one of them to open.  So when each close
    of the socket is followed by the reconnection before the next close,
    the counter never passes one: every retry is scheduled after 2 s, the
    [connected] event is emitted at every retry, and the terminal error of
    the fifth failure is never emitted, however many times the connection
    fails. *)
Theorem gemini_backoff_never_grows (n : nat) (c : Client) :
  reconnectAttempts c = 0%Z ->
  reconnectAttempts (fst (closeAndReconnect n c)) = 0%Z
  /\ snd (closeAndReconnect n c) = repeat (oneRound c) n
  /\ forall effects message,
       In effects (snd (closeAndReconnect n c)) -> ~ In (EmitError message) effects.
Proof.
  revert c. induction n as [|n IH]; intros c H.
  - cbn. repeat split; auto.
  - destruct (closeAndReconnect_step c H) as (c' & E & H' & Hs).
    cbn [closeAndReconnect].
    destruct (onClose c) as [c1 e1]. destruct (connect c1 false) as [c2 e2].
    injection E as -> E.
    destruct (IH c' H') as (I1 & I2 & I3).
    destruct (closeAndReconnect n c') as [c3 rest]. cbn [fst snd] in *.
    assert (R : oneRound c' = oneRound c) by (unfold oneRound; now rewrite Hs).
    rewrite R in I2. rewrite E, I2.
    repeat split; auto.
    intros effects message [<- | Hin].
    + unfold oneRound. cbn. intros [F | F]; [discriminate|].
      apply in_app_or in F. destruct F as [F | [F | []]]; [|discriminate].
      apply in_map_iff in F. destruct F as (x & F & _). discriminate.
    + apply I3. rewrite I2. exact Hin.
Qed.

End GeminiReconnect.

Section GeminiReconnectExample.

Import Gemini.

(** Seven failures in a row of a client for two symbols. *)
Lemma gemini_backoff_example :
  reconnectAttempts (fst (closeAndReconnect 7 (create ["btcusd"; "ethusd"]))) = 0%Z
  /\ snd (closeAndReconnect 7 (create ["btcusd"; "ethusd"]))
     = repeat [SetTimeout 2000; OpenSocket "btcusd"; OpenSocket "ethusd"; EmitConnected] 7
  /\ forall effects message,
       In effects (snd (closeAndReconnect 7 (create ["btcusd"; "ethusd"]))) ->
       ~ In (EmitError message) effects.
Proof.
  apply (gemini_backoff_never_grows 7 (create ["btcusd"; "ethusd"])).
  reflexivity.
Defined.

End GeminiReconnectExample.

(* ------------------------------------------------------------------ *)
(** ** The Coinbase client under the ticker feed *)
(* ------------------------------------------------------------------ *)

Section CoinbaseTickers.

Import Shared.

Variable parseFloat : string -> float.
Variable dateToMs : string -> Z.

(** The books of the client after a run of messages. *)
Definition coinbaseRun (books : JsMap.t OrderBook) (now : Z)
  (messages : list Coinbase.Message) : JsMap.t OrderBook :=
  fold_left
    (fun books message =>
       fst (Coinbase.handleMessage parseFloat dateToMs books now message))
    messages books.

Definition isTicker (message : Coinbase.Message) : bool :=
  match message with
  | Coinbase.Ticker _ _ _ _ _ => true
  | _ => false
  end.

(** The shape of a side: how many levels it has, the quantity of each, and
    everything below the top. *)
Definition sameDepth (side side' : list OrderBookEntry) : Prop :=
  map quantity side' = map quantity side /\ tl side' = tl side.

Definition sameShape (ob ob' : OrderBook) : Prop :=
  symbol ob' = symbol ob /\ exchange ob' = exchange ob
  /\ sameDepth (bids ob) (bids ob') /\ sameDepth (asks ob) (asks ob').

Lemma setTopPrice_depth (side : list OrderBookEntry) (p : string) :
  sameDepth side (Coinbase.setTopPrice side p).
Proof. destruct side; split; reflexivity. Qed.

Lemma sameDepth_trans (a b c : list OrderBookEntry) :
  sameDepth a b -> sameDepth b c -> sameDepth a c.
Proof. unfold sameDepth. intros [H1 H2] [H3 H4]. split; congruence. Qed.

Lemma ticker_step (books : JsMap.t OrderBook) (now : Z)
  (message : Coinbase.Message) (product : string) :
  isTicker message = true ->
  let books' := fst (Coinbase.handleMessage parseFloat dateToMs books now message) in
  match JsMap.get books product with
  | Some ob => exists ob', JsMap.get books' product = Some ob' /\ sameShape ob ob'
  | None => JsMap.get books' product = None
  end.
Proof.
  destruct message as [| |p time bb ba price| |]; try discriminate. intros _.
  cbn [Coinbase.handleMessage]. unfold Coinbase.handleTicker.
  destruct (JsMap.get books p) as [existing|] eqn:Hp; cbn [fst].
  - rewrite get_set. destruct (String.eqb_spec p product) as [<-|_].
    + rewrite Hp. eexists. split; [reflexivity|].
      repeat split; try apply setTopPrice_depth.
    + destruct (JsMap.get books product) as [ob|]; [|reflexivity].
      exists ob. repeat split.
  - destruct (JsMap.get books product) as [ob|]; [|reflexivity].
    exists ob. repeat split.
Qed.

(** X20.  The client subscribes to the ticker channel alone, and a ticker only
    overwrites the price of the first level of each side of the stored
    book.  Through any run of tickers a primed book therefore keeps its
    depth: the number of levels of each side, every quantity, and every
    level below the top stay as they were (an empty side stays empty), and
    a product that was not primed never gets a book.  After a ticker for
    the product, the top prices are the best bid and the best ask of that
    ticker. *)
Theorem coinbase_tickers_keep_depth
  (books : JsMap.t OrderBook) (now : Z) (messages : list Coinbase.Message)
  (product : string) :
  forallb isTicker messages = true ->
  match JsMap.get books product with
  | Some ob =>
      (exists ob',
         JsMap.get (coinbaseRun books now messages) product = Some ob'
         /\ sameShape ob ob')
      /\ (forall time best_bid best_ask price,
            exists ob',
              JsMap.get
                (coinbaseRun books now
                   (messages ++ [Coinbase.Ticker product time best_bid best_ask price]))
                product = Some ob'
              /\ map Shared.price (firstn 1 (bids ob'))
                 = map (fun _ => best_bid) (firstn 1 (bids ob))
              /\ map Shared.price (firstn 1 (asks ob'))
                 = map (fun _ => best_ask) (firstn 1 (asks ob)))
  | None => JsMap.get (coinbaseRun books now messages) product = None
  end.
Proof.
  revert books. unfold coinbaseRun.
  assert (G : forall messages books,
            forallb isTicker messages = true ->
            match JsMap.get books product with
            | Some ob =>
                exists ob',
                  JsMap.get
                    (fold_left
                       (fun books message =>
                          fst (Coinbase.handleMessage parseFloat dateToMs books now message))
                       messages books) product = Some ob'
                  /\ sameShape ob ob'
            | None =>
                JsMap.get
                  (fold_left
                     (fun books message =>
                        fst (Coinbase.handleMessage parseFloat dateToMs books now message))
                     messages books) product = None
            end).
  { clear messages. induction messages as [|msg l IH]; intros books Hall.
    - cbn. destruct (JsMap.get books product) as [ob|]; [|reflexivity].
      exists ob. repeat split.
    - cbn [forallb] in Hall. apply andb_prop in Hall. destruct Hall as [Hm Hl].
      cbn [fold_left].
      pose proof (ticker_step books now msg product Hm) as Hstep. cbv zeta in Hstep.
      specialize (IH (fst (Coinbase.handleMessage parseFloat dateToMs books now msg)) Hl).
      destruct (JsMap.get books product) as [ob|].
      + destruct Hstep as (ob1 & E1 & S1). rewrite E1 in IH.
        destruct IH as (ob2 & E2 & S2). exists ob2. split; [exact E2|].
        destruct S1 as (A1 & A2 & A3 & A4), S2 as (B1 & B2 & B3 & B4).
        repeat split; try congruence.
        * apply (sameDepth_trans _ _ _ A3 B3).
        * apply (sameDepth_trans _ _ _ A3 B3).
        * apply (sameDepth_trans _ _ _ A4 B4).
        * apply (sameDepth_trans _ _ _ A4 B4).
      + rewrite Hstep in IH. exact IH. }
  intros books Hall. pose proof (G messages books Hall) as H.
  destruct (JsMap.get books product) as [ob|]; [|exact H].
  split; [exact H|].
  intros time bb ba price. rewrite fold_left_app. cbn [fold_left].
  destruct H as (ob1 & E1 & S1).
  cbn [Coinbase.handleMessage]. unfold Coinbase.handleTicker. rewrite E1.
  cbn [fst]. rewrite get_set, String.eqb_refl. eexists. split; [reflexivity|].
  destruct S1 as (_ & _ & [Q1 _] & [Q2 _]). cbn [bids asks withSides].
  split.
  - destruct (bids ob1), (bids ob); try discriminate; reflexivity.
  - destruct (asks ob1), (asks ob); try discriminate; reflexivity.
Qed.

End CoinbaseTickers.

Section CoinbaseTickersExample.

Import Shared.

(** A book primed with two bids and no ask receives two tickers. *)
Definition oneSided : JsMap.t OrderBook :=
  JsMap.set JsMap.empty "BTC-USD"
    (Coinbase.snapshotBook "BTC-USD" [("100", "1"); ("99", "2")] [] 0).

Definition twoTickers : list Coinbase.Message :=
  [Coinbase.Ticker "BTC-USD" "t1" "101" "102" "101.5";
   Coinbase.Ticker "ETH-USD" "t2" "10" "11" "10.5"].

Lemma coinbase_tickers_example :
  match JsMap.get oneSided "BTC-USD" with
  | Some ob =>
      (exists ob',
         JsMap.get (coinbaseRun Num.parseFloatDecimal (fun _ => 1%Z) oneSided 5 twoTickers)
           "BTC-USD" = Some ob'
         /\ sameShape ob ob')
      /\ (forall time best_bid best_ask price,
            exists ob',
              JsMap.get
                (coinbaseRun Num.parseFloatDecimal (fun _ => 1%Z) oneSided 5
                   (twoTickers ++ [Coinbase.Ticker "BTC-USD" time best_bid best_ask price]))
                "BTC-USD" = Some ob'
              /\ map Shared.price (firstn 1 (bids ob'))
                 = map (fun _ => best_bid) (firstn 1 (bids ob))
              /\ map Shared.price (firstn 1 (asks ob'))
                 = map (fun _ => best_ask) (firstn 1 (asks ob)))
  | None =>
      JsMap.get (coinbaseRun Num.parseFloatDecimal (fun _ => 1%Z) oneSided 5 twoTickers)
        "BTC-USD" = None
  end.
Proof.
  apply (coinbase_tickers_keep_depth Num.parseFloatDecimal (fun _ => 1%Z)
           oneSided 5 twoTickers "BTC-USD").
  reflexivity.
Defined.

End CoinbaseTickersExample.

(* ------------------------------------------------------------------ *)
(** ** The registry of discovered pairs *)
(* ------------------------------------------------------------------ *)

Section PairsRegistry.

Import BaseExchange SymbolNormalizer.

(** The normalised symbol under which [addTradingPairs] files a pair. *)
Definition filedUnder (tradingPair : TradingPair) : string :=
  normalizeAsset (baseAsset tradingPair) ++ normalizeAsset (quoteAsset tradingPair).

(** The native symbol of the last active pair of the list that is filed
    under [normalizedSymbol]. *)
Definition lastFiled (tradingPairs : list TradingPair) (normalizedSymbol : string)
  : option string :=
  fold_left
    (fun acc tradingPair =>
       if active tradingPair && String.eqb (filedUnder tradingPair) normalizedSymbol
       then Some (symbol tradingPair) else acc)
    tradingPairs None.

(** The venue symbol stored for a normalised symbol, before the [|| null]
    of [getExchangeSymbol]. *)
Definition stored (r : SymbolNormalizer.t) (normalizedSymbol exchangeId : string)
  : option string :=
  match JsMap.get r normalizedSymbol with
  | Some normalizedPair => JsMap.get (exchangeSymbols normalizedPair) exchangeId
  | None => None
  end.

Lemma getExchangeSymbol_stored r n e :
  getExchangeSymbol r n e
  = match stored r n e with
    | Some s => if Str.truthy s then Some s else None
    | None => None
    end.
Proof. unfold getExchangeSymbol, stored. destruct (JsMap.get r n); reflexivity. Qed.

Lemma stored_add (e : string) (r : SymbolNormalizer.t) (p : TradingPair)
  (n e' : string) :
  stored (addTradingPair e r p) n e'
  = if active p && String.eqb (filedUnder p) n && String.eqb e e'
    then Some (symbol p) else stored r n e'.
Proof.
  unfold addTradingPair, stored. fold (filedUnder p).
  destruct (active p); cbn [negb andb]; [|reflexivity].
  rewrite get_set. destruct (String.eqb_spec (filedUnder p) n) as [<-|_];
    cbn [andb]; [|reflexivity].
  cbn [exchangeSymbols withExchangeSymbol]. rewrite get_set.
  destruct (String.eqb e e'); [reflexivity|].
  destruct (JsMap.get r (filedUnder p)); reflexivity.
Qed.

Lemma lastFiled_from (l : list TradingPair) (n : string) : forall acc,
  fold_left
    (fun acc tradingPair =>
       if active tradingPair && String.eqb (filedUnder tradingPair) n
       then Some (symbol tradingPair) else acc) l acc
  = match lastFiled l n with Some s => Some s | None => acc end.
Proof.
  unfold lastFiled. induction l as [|p l IH]; intros acc; [reflexivity|].
  cbn [fold_left]. rewrite IH.
  rewrite (IH (if active p && String.eqb (filedUnder p) n then Some (symbol p) else None)).
  destruct (fold_left _ l None); [reflexivity|].
  destruct (active p && String.eqb (filedUnder p) n); reflexivity.
Qed.

Lemma stored_adds (e : string) (l : list TradingPair) (n e' : string) : forall r,
  stored (addTradingPairs r e l) n e'
  = if String.eqb e e'
    then match lastFiled l n with Some s => Some s | None => stored r n e' end
    else stored r n e'.
Proof.
  unfold addTradingPairs. induction l as [|p l IH]; intros r.
  - cbn. destruct (String.eqb e e'); reflexivity.
  - cbn [fold_left]. rewrite IH, stored_add.
    unfold lastFiled at 2. cbn [fold_left]. rewrite lastFiled_from.
    destruct (String.eqb e e'); [|now rewrite andb_false_r].
    rewrite andb_true_r.
    destruct (lastFiled l n); [reflexivity|].
    destruct (active p && String.eqb (filedUnder p) n); reflexivity.
Qed.

(** X21.  Looking a venue symbol up after a list of pairs was added for the venue
    [exchangeId].  The registry answers with the native symbol of the last
    active pair of the list that is filed under the normalised symbol:
    inactive pairs are skipped, and pairs whose assets normalise alike (USDT
    and USDC as USD, XBT as BTC, any letter case) share one entry, in which
    the later pair replaces the earlier.  Where the list files nothing, the
    answer is what it was before, and the entries of other venues are not
    touched. *)
Theorem registry_lookup_after_adding
  (r : SymbolNormalizer.t) (exchangeId : string) (tradingPairs : list TradingPair)
  (normalizedSymbol otherExchange : string) :
  getExchangeSymbol (addTradingPairs r exchangeId tradingPairs)
    normalizedSymbol exchangeId
  = match lastFiled tradingPairs normalizedSymbol with
    | Some s => if Str.truthy s then Some s else None
    | None => getExchangeSymbol r normalizedSymbol exchangeId
    end
  /\ (otherExchange <> exchangeId ->
      getExchangeSymbol (addTradingPairs r exchangeId tradingPairs)
        normalizedSymbol otherExchange
      = getExchangeSymbol r normalizedSymbol otherExchange).
Proof.
  rewrite !getExchangeSymbol_stored, !stored_adds, String.eqb_refl. split.
  - destruct (lastFiled tradingPairs normalizedSymbol); reflexivity.
  - intros Hne. apply not_eq_sym in Hne. apply String.eqb_neq in Hne.
    now rewrite Hne.
Qed.

(** *** Registries built by adding *)

(** The registry after the pairs of several venues were added to an empty
    one. *)
Definition registryOf (added : list (string * list TradingPair)) : SymbolNormalizer.t :=
  fold_left (fun r entry => addTradingPairs r (fst entry) (snd entry)) added JsMap.empty.

(** Each pair is filed under its own normalised symbol, once. *)
Definition keyed (r : SymbolNormalizer.t) : Prop :=
  NoDup (JsMap.keys r)
  /\ forall k normalizedPair, In (k, normalizedPair) r -> pairNormalizedSymbol normalizedPair = k.

Lemma keyed_add (e : string) (r : SymbolNormalizer.t) (p : TradingPair) :
  keyed r -> keyed (addTradingPair e r p).
Proof.
  intros [Hnd Hk]. unfold addTradingPair. fold (filedUnder p).
  destruct (active p); cbn [negb]; [|now split].
  split; [now apply NoDup_keys_set|].
  intros k np Hin. apply In_set_inv in Hin. destruct Hin as [[-> ->] | Hin]; [|eauto].
  cbn [pairNormalizedSymbol withExchangeSymbol].
  destruct (JsMap.get r (filedUnder p)) as [found|] eqn:Hf; [|reflexivity].
  apply get_Some_In in Hf. eauto.
Qed.

Lemma keyed_adds (e : string) (l : list TradingPair) : forall r,
  keyed r -> keyed (addTradingPairs r e l).
Proof.
  unfold addTradingPairs. induction l as [|p l IH]; intros r H; [exact H|].
  cbn [fold_left]. apply IH. now apply keyed_add.
Qed.

Lemma keyed_registryOf (added : list (string * list TradingPair)) :
  keyed (registryOf added).
Proof.
  unfold registryOf.
  assert (G : forall r, keyed r ->
            keyed (fold_left (fun r entry => addTradingPairs r (fst entry) (snd entry))
                     added r)).
  { induction added as [|[e l] rest IH]; intros r H; [exact H|].
    cbn [fold_left fst snd]. apply IH. now apply keyed_adds. }
  apply G. split; [constructor | intros k np []].
Qed.

Lemma count_pairs (l : list NormalizedPair) : forall multi coverage,
  fst (fold_left
         (fun acc normalizedPair =>
            let '(multi, coverage) := acc in
            (if (2 <=? JsMap.size (exchangeSymbols normalizedPair))%nat
             then S multi else multi,
             fold_left countVenue (JsMap.keys (exchangeSymbols normalizedPair)) coverage))
         l (multi, coverage))
  = (multi
     + List.length
         (filter (fun normalizedPair =>
                    (2 <=? Z.of_nat (JsMap.size (exchangeSymbols normalizedPair)))%Z) l))%nat.
Proof.
  induction l as [|np l IH]; intros multi coverage; cbn [fold_left filter].
  - cbn. lia.
  - rewrite IH.
    destruct (Nat.leb_spec 2 (JsMap.size (exchangeSymbols np)));
      destruct (Z.leb_spec 2 (Z.of_nat (JsMap.size (exchangeSymbols np))));
      try lia; cbn [List.length]; lia.
Qed.

Variable localeCompare : string -> string -> float.

(** An available symbol is a symbol of the registry with enough venues. *)
Lemma available_iff
  (added : list (string * list TradingPair)) (minExchanges : Z)
  (normalizedSymbol : string) :
  In normalizedSymbol (getAvailableSymbols localeCompare (registryOf added) minExchanges)
  <-> In normalizedSymbol (JsMap.keys (registryOf added))
      /\ (minExchanges
          <= Z.of_nat (List.length
                         (getExchangesForSymbol (registryOf added) normalizedSymbol)))%Z.
Proof.
  destruct (keyed_registryOf added) as [Hnd Hk].
  set (r := registryOf added) in *.
  unfold getAvailableSymbols, getExchangesForSymbol. split.
  - intros H.
    apply (Permutation_in _ (sort_perm (compareSymbols localeCompare) _)) in H.
    apply in_map_iff in H. destruct H as (np & Hs & Hin).
    apply filter_In in Hin. destruct Hin as [Hin Hsize].
    unfold JsMap.values in Hin. apply in_map_iff in Hin.
    destruct Hin as ([k np'] & E & Hin). cbn in E. subst np'.
    assert (Ek : k = normalizedSymbol) by (rewrite <- (Hk k np Hin); exact Hs).
    subst k. split; [now apply (in_map fst) in Hin|].
    rewrite (In_get r normalizedSymbol np Hnd Hin).
    apply Z.leb_le in Hsize. unfold JsMap.size in Hsize. unfold JsMap.keys.
    now rewrite length_map.
  - intros [Hkey Hsize]. apply get_Some_keys in Hkey. destruct Hkey as [np Hget].
    rewrite Hget in Hsize.
    apply (Permutation_in _
             (Permutation_sym (sort_perm (compareSymbols localeCompare) _))).
    apply in_map_iff. exists np. apply get_Some_In in Hget. split.
    + now apply Hk in Hget.
    + apply filter_In. split; [now apply (in_map snd) in Hget|].
      apply Z.leb_le. unfold JsMap.keys in Hsize. rewrite length_map in Hsize.
      exact Hsize.
Qed.

(** X22.  The symbols offered for arbitrage have the venues asked for.  In a
    registry built by adding pairs, [getAvailableSymbols] lists exactly the
    normalised symbols that the registry holds with at least [minExchanges]
    venues, as [getExchangesForSymbol] counts them; and the number of
    multi-venue pairs that [getStats] reports is the number of symbols that
    [getAvailableSymbols] lists for two venues. *)
Theorem available_symbols_have_enough_venues
  (added : list (string * list TradingPair)) (minExchanges : Z)
  (normalizedSymbol : string) :
  let r := registryOf added in
  (In normalizedSymbol (getAvailableSymbols localeCompare r minExchanges)
   <-> In normalizedSymbol (JsMap.keys r)
       /\ (minExchanges
           <= Z.of_nat (List.length (getExchangesForSymbol r normalizedSymbol)))%Z)
  /\ multiExchangePairs (getStats r)
     = List.length (getAvailableSymbols localeCompare r 2).
Proof.
  cbv zeta. split; [apply available_iff|].
  unfold getStats, getAvailableSymbols.
  rewrite (Permutation_length (sort_perm (compareSymbols localeCompare) _)).
  rewrite length_map.
  pose proof (count_pairs (JsMap.values (registryOf added)) 0%nat JsMap.empty) as C.
  destruct (fold_left _ (JsMap.values (registryOf added)) (0%nat, JsMap.empty))
    as [multi coverage].
  cbn [fst] in C. cbn [multiExchangePairs]. exact C.
Qed.

End PairsRegistry.

(* ------------------------------------------------------------------ *)
(** ** From the venue symbol back to the normalised symbol *)
(* ------------------------------------------------------------------ *)

Section ReverseLookup.

Import BaseExchange SymbolNormalizer.

(** The test of the loop of [getNormalizedSymbol]. *)
Definition listsAs (exchangeId exchangeSymbol : string)
  (entry : string * NormalizedPair) : bool :=
  match JsMap.get (exchangeSymbols (snd entry)) exchangeId with
  | Some symbol => String.eqb symbol exchangeSymbol
  | None => false
  end.

Lemma getNormalizedSymbol_find (r : SymbolNormalizer.t) (e s : string) :
  getNormalizedSymbol r e s = option_map fst (find (listsAs e s) r).
Proof. reflexivity. Qed.

Lemma listsAs_stored (r : SymbolNormalizer.t) (e s n : string) (p : NormalizedPair) :
  JsMap.get r n = Some p ->
  listsAs e s (n, p) = true <-> stored r n e = Some s.
Proof.
  intros H. unfold listsAs, stored. rewrite H. cbn [snd].
  destruct (JsMap.get (exchangeSymbols p) e) as [s'|].
  - rewrite String.eqb_eq. split; congruence.
  - split; discriminate.
Qed.

(** X23.  The two directions of the registry agree.  In a registry built by
    adding pairs, a venue symbol that [getNormalizedSymbol] resolves is the
    symbol stored for the venue under the answer, so that
    [getExchangeSymbol] gives it back (an empty venue symbol is answered by
    [null]); and a venue symbol is resolved as soon as some normalised
    symbol stores it for the venue.  When several normalised symbols store
    the same venue symbol, the first one filed is the answer. *)
Theorem reverse_lookup_agrees
  (added : list (string * list TradingPair))
  (exchangeId exchangeSymbol normalizedSymbol : string) :
  let r := registryOf added in
  (getNormalizedSymbol r exchangeId exchangeSymbol = Some normalizedSymbol ->
   stored r normalizedSymbol exchangeId = Some exchangeSymbol
   /\ getExchangeSymbol r normalizedSymbol exchangeId
      = (if Str.truthy exchangeSymbol then Some exchangeSymbol else None)
   /\ In exchangeId (getExchangesForSymbol r normalizedSymbol))
  /\ (stored r normalizedSymbol exchangeId = Some exchangeSymbol ->
      exists first before after normalizedPair,
        getNormalizedSymbol r exchangeId exchangeSymbol = Some first
        /\ r = (before ++ (first, normalizedPair) :: after)%list
        /\ (first = normalizedSymbol \/ In normalizedSymbol (JsMap.keys after))
        /\ forall n, In n (JsMap.keys before) ->
                     stored r n exchangeId <> Some exchangeSymbol).
Proof.
  cbv zeta. destruct (keyed_registryOf added) as [Hnd _].
  set (r := registryOf added) in *. split.
  - rewrite getNormalizedSymbol_find.
    destruct (find (listsAs exchangeId exchangeSymbol) r) as [[n p]|] eqn:F;
      [|discriminate].
    cbn [option_map fst]. intros E. injection E as <-.
    apply find_some in F. destruct F as [Hin Hp].
    pose proof (In_get _ _ _ Hnd Hin) as G.
    pose proof (proj1 (listsAs_stored r exchangeId exchangeSymbol n p G) Hp) as S.
    split; [exact S|]. split.
    + rewrite getExchangeSymbol_stored, S. reflexivity.
    + unfold getExchangesForSymbol. rewrite G. apply get_Some_keys.
      unfold stored in S. rewrite G in S. eauto.
  - intros S. rewrite getNormalizedSymbol_find.
    assert (G : exists p, JsMap.get r normalizedSymbol = Some p).
    { unfold stored in S. destruct (JsMap.get r normalizedSymbol); [eauto|discriminate]. }
    destruct G as [p G].
    assert (Hp : listsAs exchangeId exchangeSymbol (normalizedSymbol, p) = true)
      by (now apply (listsAs_stored r)).
    pose proof (get_Some_In _ _ _ G) as Hin.
    clearbody r.
    assert (K : forall l,
              NoDup (JsMap.keys l) -> In (normalizedSymbol, p) l ->
              exists first before after normalizedPair,
                option_map fst (find (listsAs exchangeId exchangeSymbol) l) = Some first
                /\ l = (before ++ (first, normalizedPair) :: after)%list
                /\ (first = normalizedSymbol \/ In normalizedSymbol (JsMap.keys after))
                /\ forall n q, In (n, q) before ->
                               listsAs exchangeId exchangeSymbol (n, q) = false).
    { induction l as [|[k v] l IH]; intros Nl Il; [destruct Il|].
      cbn [find]. destruct (listsAs exchangeId exchangeSymbol (k, v)) eqn:T.
      - exists k, [], l, v. cbn. split; [reflexivity|]. split; [reflexivity|].
        split; [|intros n q []].
        destruct Il as [E | Il]; [left; congruence|].
        right. unfold JsMap.keys. apply in_map_iff. exists (normalizedSymbol, p). auto.
      - destruct Il as [E | Il]; [rewrite E in T; congruence|].
        inversion Nl as [|? ? _ Nl']; subst.
        destruct (IH Nl' Il) as (first & before & after & np & F & E & O & B).
        exists first, ((k, v) :: before), after, np. split; [exact F|].
        split; [cbn; now rewrite <- E|]. split; [exact O|].
        intros n q [Eq | Hb]; [injection Eq as <- <-; exact T | eauto]. }
    destruct (K r Hnd Hin) as (first & before & after & np & F & E & O & B).
    exists first, before, after, np. repeat split; auto.
    intros n Hn Sn. unfold JsMap.keys in Hn. apply in_map_iff in Hn.
    destruct Hn as ([n' q] & En & Hq). cbn [fst] in En. subst n'.
    assert (Gq : JsMap.get r n = Some q).
    { apply In_get; [exact Hnd|]. rewrite E. apply in_or_app. now left. }
    pose proof (proj2 (listsAs_stored r exchangeId exchangeSymbol n q Gq) Sn) as T.
    rewrite (B n q Hq) in T. discriminate.
Qed.

End ReverseLookup.

(* ------------------------------------------------------------------ *)
(** ** Discovery: which pairs are kept, which symbols recommended *)
(* ------------------------------------------------------------------ *)

Section Discovery.

Import BaseExchange SymbolDiscovery.

(** A pair that the preferences of the configuration admit: it is active,
    its quote asset is preferred (USDT and USDC pass for a preferred USD)
    and so is its base asset; an empty list of preferences admits all. *)
Definition eligible (config : DiscoveryConfig) (p : TradingPair) : Prop :=
  active p = true
  /\ (preferredQuoteAssets config = []
      \/ In (quoteAsset p) (preferredQuoteAssets config)
      \/ (In "USD" (preferredQuoteAssets config)
          /\ In (quoteAsset p) ["USDT"; "USDC"]))
  /\ (preferredBaseAssets config = []
      \/ In (baseAsset p) (preferredBaseAssets config)).

Lemma existsb_eqb_In (x : string) (l : list string) :
  existsb (String.eqb x) l = true <-> In x l.
Proof.
  rewrite existsb_exists. split.
  - intros (y & Hy & E). apply String.eqb_eq in E. now subst.
  - intros H. exists x. split; [exact H | apply String.eqb_refl].
Qed.

Lemma quotePreferred_iff (config : DiscoveryConfig) (p : TradingPair) :
  quotePreferred config p = true
  <-> In (quoteAsset p) (preferredQuoteAssets config)
      \/ (In "USD" (preferredQuoteAssets config) /\ In (quoteAsset p) ["USDT"; "USDC"]).
Proof.
  unfold quotePreferred. rewrite existsb_exists. split.
  - intros (q & Hq & H). apply orb_prop in H. destruct H as [H | H].
    + apply String.eqb_eq in H. left. now rewrite H.
    + apply andb_prop in H. destruct H as [H1 H2].
      apply String.eqb_eq in H1. subst q. right. split; [exact Hq|].
      now apply existsb_eqb_In.
  - intros [H | [H1 H2]].
    + exists (quoteAsset p). split; [exact H|]. now rewrite String.eqb_refl.
    + exists "USD". split; [exact H1|]. apply orb_true_iff. right.
      apply andb_true_iff. split; [reflexivity | now apply existsb_eqb_In].
Qed.

Lemma firstn_incl {A : Type} (n : nat) (l : list A) : incl (firstn n l) l.
Proof.
  intros x Hx. rewrite <- (firstn_skipn n l). apply in_or_app. now left.
Qed.

Lemma nonempty_length {A : Type} (l : list A) :
  (0 <? List.length l)%nat = false <-> l = [].
Proof. destruct l; cbn; split; congruence. Qed.

(** The pairs before the cut of [maxSymbolsPerExchange]. *)
Lemma uncut_iff (config : DiscoveryConfig) (pairs : list TradingPair) (p : TradingPair) :
  In p
    (let filtered := filter active pairs in
     let filtered :=
       if (0 <? List.length (preferredQuoteAssets config))%nat
       then filter (quotePreferred config) filtered else filtered in
     if (0 <? List.length (preferredBaseAssets config))%nat
     then filter (basePreferred config) filtered else filtered)
  <-> In p pairs /\ eligible config p.
Proof.
  cbv zeta. unfold eligible.
  destruct (0 <? List.length (preferredQuoteAssets config))%nat eqn:Eq;
    destruct (0 <? List.length (preferredBaseAssets config))%nat eqn:Eb;
    rewrite ?filter_In, ?quotePreferred_iff; unfold basePreferred;
    rewrite ?existsb_eqb_In;
    try (apply nonempty_length in Eq); try (apply nonempty_length in Eb);
    try rewrite Eq; try rewrite Eb.
  - assert (Nq : preferredQuoteAssets config <> []) by (intros E; now rewrite E in Eq).
    assert (Nb : preferredBaseAssets config <> []) by (intros E; now rewrite E in Eb).
    tauto.
  - assert (Nq : preferredQuoteAssets config <> []) by (intros E; now rewrite E in Eq).
    tauto.
  - assert (Nb : preferredBaseAssets config <> []) by (intros E; now rewrite E in Eb).
    tauto.
  - tauto.
Qed.

(** X24.  What [filterTradingPairs] keeps.  Every pair it returns is a pair of
    the venue that the preferences admit.  A positive
    [maxSymbolsPerExchange] bounds the number of pairs returned; zero or a
    negative value means no bound, and then every admitted pair is
    returned. *)
Theorem filtered_pairs_respect_preferences
  (config : DiscoveryConfig) (pairs : list TradingPair) :
  (forall p, In p (filterTradingPairs config pairs) -> In p pairs /\ eligible config p)
  /\ ((0 < maxSymbolsPerExchange config)%Z ->
      (Z.of_nat (List.length (filterTradingPairs config pairs))
       <= maxSymbolsPerExchange config)%Z)
  /\ ((maxSymbolsPerExchange config <= 0)%Z ->
      forall p, In p pairs -> eligible config p -> In p (filterTradingPairs config pairs)).
Proof.
  unfold filterTradingPairs.
  pose proof (uncut_iff config pairs) as U. cbv zeta in U.
  set (uncut := if (0 <? List.length (preferredBaseAssets config))%nat
                then _ else _) in *.
  destruct (Z.ltb_spec 0 (maxSymbolsPerExchange config)) as [Hpos|Hnon].
  - split; [|split].
    + intros p Hp. apply U. eapply firstn_incl. exact Hp.
    + intros _. pose proof (firstn_le_length (Z.to_nat (maxSymbolsPerExchange config)) uncut).
      rewrite length_firstn. lia.
    + lia.
  - split; [|split].
    + intros p Hp. now apply U.
    + lia.
    + intros _ p Hp He. apply U. auto.
Qed.

Variable localeCompare : string -> string -> float.

Lemma recommendations_perm (normalizer : SymbolNormalizer.t) (available : list string) :
  exists sorted,
    Permutation sorted available
    /\ generateRecommendations normalizer available = firstn 20 sorted.
Proof.
  unfold generateRecommendations.
  exists (map scoredSymbol
            (JsArray.sort byScore (map (scoreOf normalizer) available))).
  split.
  - eapply perm_trans; [apply Permutation_map, sort_perm|].
    rewrite map_map. cbn [scoredSymbol scoreOf]. rewrite map_id.
    apply Permutation_refl.
  - now rewrite firstn_map.
Qed.

Lemma slice0_incl {A : Type} (l : list A) (n : Z) : incl (slice0 l n) l.
Proof.
  unfold slice0. intros x Hx. destruct (n <? 0)%Z; eapply firstn_incl; exact Hx.
Qed.

Lemma slice0_length {A : Type} (l : list A) (n : Z) :
  (List.length (slice0 l n) <= List.length l)%nat
  /\ ((0 <= n)%Z -> (Z.of_nat (List.length (slice0 l n)) <= n)%Z).
Proof.
  unfold slice0. destruct (Z.ltb_spec n 0); rewrite length_firstn; split; lia.
Qed.

(** X25.  The symbols proposed for arbitrage.  Each of them is a normalised
    symbol of the registry that at least two venues list.  There are never
    more than twenty of them, whatever [maxSymbols] asks for, and at most
    [maxSymbols] when that is not negative. *)
Theorem arbitrage_symbols_are_multi_venue
  (added : list (string * list TradingPair)) (maxSymbols : Z) :
  let normalizer := registryOf added in
  let proposed := getArbitrageSymbols localeCompare normalizer maxSymbols in
  (forall symbol,
     In symbol proposed ->
     In symbol (JsMap.keys normalizer)
     /\ (2 <= List.length
                (SymbolNormalizer.getExchangesForSymbol normalizer symbol))%nat)
  /\ (List.length proposed <= 20)%nat
  /\ ((0 <= maxSymbols)%Z -> (Z.of_nat (List.length proposed) <= maxSymbols)%Z).
Proof.
  cbv zeta. unfold getArbitrageSymbols.
  set (normalizer := registryOf added).
  destruct (recommendations_perm normalizer
              (SymbolNormalizer.getAvailableSymbols localeCompare normalizer 2))
    as (sorted & Hperm & Hrec).
  rewrite Hrec.
  set (kept := filter _ (firstn 20 sorted)).
  assert (Hkept : (List.length kept <= 20)%nat).
  { unfold kept. pose proof (filter_length_le
                               (fun symbol =>
                                  (2 <=? List.length
                                           (SymbolNormalizer.getExchangesForSymbol
                                              normalizer symbol))%nat)
                               (firstn 20 sorted)).
    rewrite length_firstn in H. lia. }
  split; [|split].
  - intros symbol Hin. apply slice0_incl in Hin. unfold kept in Hin.
    apply filter_In in Hin. destruct Hin as [Hin Hsize].
    apply Nat.leb_le in Hsize. split; [|exact Hsize].
    apply firstn_incl in Hin. apply (Permutation_in _ Hperm) in Hin.
    now apply (available_iff localeCompare added 2 symbol) in Hin.
  - pose proof (proj1 (slice0_length kept maxSymbols)). lia.
  - apply (proj2 (slice0_length kept maxSymbols)).
Qed.

End Discovery.
